(** * Claude-Memory: the autonomous learning pipeline

    A shallow embedding of [scripts/claude_learning.py]: the store adapter
    [ClaudeLearning], the web helpers [search_web] and [fetch_page_content],
    the two LLM steps [choose_learning_topic] and [reflect_on_learning], the
    research loop [perform_research] and the orchestrator
    [run_learning_session]; with them the configuration reader
    [load_db_config], the key lookup [get_anthropic_client] and the body of
    [scripts/claude_learning_cron.py].

    Python values that come out of [json.loads] are the inductive [pyval];
    dictionaries are [gmap string _]; the database is a record of tables;
    every call that leaves the process (SQL statement, LLM request, web
    search, page fetch) is answered by an oracle of the record [Env] and
    leaves an [event] in the trace.  Exceptions are explicit: an action of
    the monad [M] either returns or raises, and keeps the state it reached. *)

From Stdlib Require Import ZArith QArith Ascii String.
From stdpp Require Import gmap strings list fin_maps.

Set Warnings "-register-all".
Local Open Scope Z_scope.
Local Open Scope string_scope.
Local Open Scope list_scope.

(* ===================================================================== *)
(** * Part I: definitions                                                 *)
(* ===================================================================== *)

(** ** Python text operations

    Text is a [string] of characters below 128; [isspace] is [str.isspace]
    on that range. *)

Module Text.

Definition isspace (c : ascii) : bool :=
  let n := nat_of_ascii c in
  ((9 <=? n)%nat && (n <=? 13)%nat) || ((28 <=? n)%nat && (n <=? 32)%nat).

Definition newline : ascii := ascii_of_nat 10.

Definition is_empty (s : string) : bool :=
  match s with EmptyString => true | String _ _ => false end.

(** [s.lstrip()], [s.rstrip()], [s.strip()] *)
Fixpoint lstrip (s : string) : string :=
  match s with
  | EmptyString => EmptyString
  | String c s' => if isspace c then lstrip s' else s
  end.

Fixpoint rstrip (s : string) : string :=
  match s with
  | EmptyString => EmptyString
  | String c s' =>
      match rstrip s' with
      | EmptyString => if isspace c then EmptyString else String c EmptyString
      | r => String c r
      end
  end.

Definition strip (s : string) : string := rstrip (lstrip s).

(** What a stripped line looks like, stated without [strip]. *)
Definition leading_space (s : string) : bool :=
  match s with EmptyString => false | String c _ => isspace c end.

Fixpoint trailing_space (s : string) : bool :=
  match s with
  | EmptyString => false
  | String c EmptyString => isspace c
  | String _ s' => trailing_space s'
  end.

Definition trimmed (s : string) : Prop :=
  leading_space s = false ∧ trailing_space s = false.

Fixpoint blank (s : string) : bool :=
  match s with
  | EmptyString => true
  | String c s' => isspace c && blank s'
  end.

Fixpoint has_char (a : ascii) (s : string) : bool :=
  match s with
  | EmptyString => false
  | String c s' => if Ascii.eqb a c then true else has_char a s'
  end.

(** [sub in s] *)
Fixpoint contains (sub s : string) : bool :=
  String.prefix sub s
  || match s with EmptyString => false | String _ s' => contains sub s' end.

(** [s.split(sep)] for a non-empty [sep]: the pieces between the
    non-overlapping occurrences of [sep], scanned left to right.  [skip]
    counts the characters of a separator that are still to be passed. *)
Definition cons_head (c : ascii) (l : list string) : list string :=
  match l with
  | h :: t => String c h :: t
  | [] => [String c EmptyString]
  end.

Fixpoint split_go (sep : string) (skip : nat) (s : string) : list string :=
  match s with
  | EmptyString => [EmptyString]
  | String c s' =>
      match skip with
      | S k => split_go sep k s'
      | O =>
          if String.prefix sep s
          then EmptyString :: split_go sep (String.length sep - 1) s'
          else cons_head c (split_go sep 0 s')
      end
  end.

Definition split (sep s : string) : list string := split_go sep 0 s.

(** [sep.join(l)] *)
Fixpoint join (sep : string) (l : list string) : string :=
  match l with
  | [] => EmptyString
  | [x] => x
  | x :: l' => x +:+ sep +:+ join sep l'
  end.

Fixpoint take (n : nat) (s : string) : string :=
  match n, s with
  | S k, String c s' => String c (take k s')
  | _, _ => EmptyString
  end.

(** [s[:n]] for any integer [n]: a negative bound counts from the end. *)
Definition slice_to (n : Z) (s : string) : string :=
  if (0 <=? n)%Z then take (Z.to_nat n) s
  else take (String.length s - Z.to_nat (- n)) s.

End Text.

(** ** Python values and exceptions *)

(** A float is its rational value, or one of the three floats that have
    none: [json.loads] builds them from [NaN], [Infinity] and [-Infinity]. *)
Inductive pyfloat : Type :=
  | Finite (q : Q)
  | NaN
  | PosInfinity
  | NegInfinity.

(** The values [json.loads] builds, which are also the values the script
    passes around untyped. *)
Inductive pyval : Type :=
  | PNone
  | PBool (b : bool)
  | PInt (z : Z)
  | PFloat (x : pyfloat)
  | PStr (s : string)
  | PList (l : list pyval)
  | PDict (d : gmap string pyval).

Abbreviation pydict := (gmap string pyval).

(** [bool(v)] *)
Definition truthy (v : pyval) : bool :=
  match v with
  | PNone => false
  | PBool b => b
  | PInt z => negb (Z.eqb z 0)
  | PFloat (Finite q) => negb (Qeq_bool q 0)
  | PFloat _ => true
  | PStr s => negb (Text.is_empty s)
  | PList l => match l with [] => false | _ => true end
  | PDict d => negb (bool_decide (d = ∅))
  end.

(** The exception classes the script distinguishes; the string is [str(e)].
    [ExternalError] stands for what psycopg2, requests, html2text, the search
    provider and the Anthropic client raise. *)
Inductive exn : Type :=
  | JSONDecodeError (msg : string)
  | IndexError (msg : string)
  | AttributeError (msg : string)
  | TypeError (msg : string)
  | KeyError (msg : string)
  | ValueError (msg : string)
  | RecursionError (msg : string)
  | ExternalError (msg : string).

Definition str_exn (e : exn) : string :=
  match e with
  | JSONDecodeError m | IndexError m | AttributeError m | TypeError m
  | KeyError m | ValueError m | RecursionError m | ExternalError m => m
  end.

Inductive result (A : Type) : Type :=
  | Ok (a : A)
  | Raise (e : exn).
Arguments Ok {A} a.
Arguments Raise {A} e.

(** [d.get(k, default)] on a dictionary *)
Definition dget {V} (d : gmap string V) (k : string) (dflt : V) : V :=
  match d !! k with Some v => v | None => dflt end.

(** [x or []] *)
Definition or_empty (v : pyval) : pyval := if truthy v then v else PList [].

(** [type(v).__name__] *)
Definition type_name (v : pyval) : string :=
  match v with
  | PNone => "NoneType"
  | PBool _ => "bool"
  | PInt _ => "int"
  | PFloat _ => "float"
  | PStr _ => "str"
  | PList _ => "list"
  | PDict _ => "dict"
  end.

(** [v.get]: only a [dict] has the attribute. *)
Definition as_dict (v : pyval) : result pydict :=
  match v with
  | PDict d => Ok d
  | _ => Raise (AttributeError
                  ("'" +:+ type_name v +:+ "' object has no attribute 'get'"))
  end.

(** [len(v)] *)
Definition py_len (v : pyval) : result Z :=
  match v with
  | PStr s => Ok (Z.of_nat (String.length s))
  | PList l => Ok (Z.of_nat (length l))
  | PDict d => Ok (Z.of_nat (size d))
  | _ => Raise (TypeError ("object of type '" +:+ type_name v +:+ "' has no len()"))
  end.

(** [v[:n]] followed by iteration: the items a [for] loop visits. *)
Fixpoint chars (s : string) : list pyval :=
  match s with
  | EmptyString => []
  | String c s' => PStr (String c EmptyString) :: chars s'
  end.

Definition slice_items (n : nat) (v : pyval) : result (list pyval) :=
  match v with
  | PList l => Ok (take n l)
  | PStr s => Ok (take n (chars s))
  | PDict _ => Raise (TypeError "unhashable type: 'slice'")
  | _ => Raise (TypeError ("'" +:+ type_name v +:+ "' object is not subscriptable"))
  end.

(** ** The database: one record per table row *)

(** JSONB columns hold a [pyval]; an id sent as a statement parameter is
    whatever Python value the caller had. *)
Record interest : Type := Interest {
  int_topic : pyval;
  why_interested : pyval;
  sparked_by : option string;
  int_priority : Z;
  int_status : string;
  insights_gained : pyval;
  remaining_questions : pyval;
  int_tags : pyval;
  last_explored_at : option Z
}.

Record request : Type := Request {
  req_topic : pyval;
  req_queries : pyval;
  why_researching : pyval;
  req_hoping_to_learn : pyval;
  req_priority : string;
  req_status : string;
  req_interest_id : pyval;
  req_project_id : pyval;
  req_error_message : option string;
  req_started_at : option Z;
  req_completed_at : option Z
}.

Record research_row : Type := ResearchRow {
  res_request_id : pyval;
  query_used : pyval;
  source_url : string;
  source_title : string;
  res_snippet : string;
  full_content : option string;
  content_type : string;
  relevance_score : pyval
}.

Record insight : Type := Insight {
  ins_topic : pyval;
  ins_summary : pyval;
  ins_insights : pyval;
  ins_questions : pyval;
  ins_confidence : pyval;
  ins_sources : pyval;
  ins_request_id : pyval;
  ins_interest_id : pyval
}.

Record session : Type := Session {
  session_type : string;
  topic_chosen : pyval;
  choice_reason : pyval;
  ses_status : string;
  ses_insights_count : Z;
  ses_new_questions_count : Z;
  ses_new_interests_sparked : Z;
  ses_error_message : option string;
  ses_started_at : Z;
  ses_completed_at : option Z;
  ses_duration_seconds : option Z
}.

Record store : Type := Store {
  learning_interests : gmap Z interest;
  research_requests : gmap Z request;
  research_results : list research_row;
  learning_insights : gmap Z insight;
  learning_sessions : gmap Z session
}.

Definition set_interests (f : gmap Z interest → gmap Z interest) (d : store) : store :=
  Store (f (learning_interests d)) (research_requests d) (research_results d)
        (learning_insights d) (learning_sessions d).
Definition set_requests (f : gmap Z request → gmap Z request) (d : store) : store :=
  Store (learning_interests d) (f (research_requests d)) (research_results d)
        (learning_insights d) (learning_sessions d).
Definition set_results (f : list research_row → list research_row) (d : store) : store :=
  Store (learning_interests d) (research_requests d) (f (research_results d))
        (learning_insights d) (learning_sessions d).
Definition set_insights (f : gmap Z insight → gmap Z insight) (d : store) : store :=
  Store (learning_interests d) (research_requests d) (research_results d)
        (f (learning_insights d)) (learning_sessions d).
Definition set_sessions (f : gmap Z session → gmap Z session) (d : store) : store :=
  Store (learning_interests d) (research_requests d) (research_results d)
        (learning_insights d) (f (learning_sessions d)).

(** The id a SERIAL column hands out: above every id in the table, from 1. *)
Definition next_id {A} (m : gmap Z A) : Z :=
  1 + map_fold (λ k _ acc, Z.max k acc) 0 m.

(** ** Finding the API key: [get_anthropic_client] *)

(** What the function reads: the environment variable, the database, the
    key file and the secrets table. *)
Record KeyEnv : Type := {
  (** [os.environ.get("ANTHROPIC_API_KEY")] *)
  environ_api_key : option string;
  (** [get_db_connection()], when it raises *)
  connect_fault : option exn;
  (** [conn.cursor()], when it raises *)
  cursor_fault : option exn;
  (** [KEY_FILE]: [None] when it does not exist, else what reading it gives *)
  key_file : option (result string);
  (** the query [get_secret('api_key', 'anthropic', key)] followed by
      [fetchone()]: an exception, no row, or a row whose column may be NULL *)
  get_secret : string → result (option (option string))
}.

Inductive key_event : Type :=
  | KeyConnect
  | KeyQuery (key : string)
  | KeyClose.

(** [bool(s)] for an optional string *)
Definition truthy_str (o : option string) : bool :=
  match o with
  | Some s => negb (Text.is_empty s)
  | None => false
  end.

(** The body of the [try] block: the key it leaves in [api_key]. *)
Definition secret_lookup (K : KeyEnv) : result (option string) * list key_event :=
  match cursor_fault K with
  | Some e => (Raise e, [])
  | None =>
      match key_file K with
      | None => (Ok None, [])
      | Some (Raise e) => (Raise e, [])
      | Some (Ok text) =>
          let key := Text.strip text in
          if Text.is_empty key then (Ok None, [])
          else
            match get_secret K key with
            | Raise e => (Raise e, [KeyQuery key])
            | Ok row =>
                (Ok (match row with
                     | Some (Some s) => if Text.is_empty s then None else Some s
                     | _ => None
                     end),
                 [KeyQuery key])
            end
      end
  end.

Definition missing_key : exn :=
  ValueError "ANTHROPIC_API_KEY not found in environment or secrets".

(** [get_anthropic_client()]: the key the client is built with, or the
    exception, and what was done to the database on the way. *)
Definition get_anthropic_client (K : KeyEnv) : result string * list key_event :=
  if truthy_str (environ_api_key K) then
    match environ_api_key K with
    | Some k => (Ok k, [])
    | None => (Raise missing_key, [])
    end
  else
    match connect_fault K with
    | Some e => (Raise e, [])
    | None =>
        (* try: ... finally: conn.close() *)
        let '(found, calls) := secret_lookup K in
        let calls := KeyConnect :: calls ++ [KeyClose] in
        match found with
        | Raise e => (Raise e, calls)
        | Ok (Some k) => (Ok k, calls)
        | Ok None => (Raise missing_key, calls)
        end
    end.

(** A machine with no environment variable, whose secrets table holds the
    key under the contents of the key file. *)
Definition keyed_machine : KeyEnv :=
  {| environ_api_key := None;
     connect_fault := None;
     cursor_fault := None;
     key_file := Some (Ok "  passphrase  ");
     get_secret := λ key, if String.eqb key "passphrase"
                          then Ok (Some (Some "sk-ant-1")) else Ok None |}.

(** ** Calls that leave the process *)

Inductive store_call : Type :=
  | GetLearningInterests (limit : Z)
  | AddLearningInterest (topic why : pyval) (sparked : option string) (priority : Z)
  | UpdateInterestInsights (id insights : pyval) (questions : option pyval) (n : Z)
  | GetPendingResearch (limit : Z)
  | QueueResearch (topic queries : pyval)
  | UpdateResearchStatus (id : pyval) (status : string) (error : option string)
  | SaveResearchResult (row : research_row)
  | RecordInsight (row : insight)
  | GetRecentInsights (limit : Z)
  | StartLearningSession (session_type : string)
  | CompleteLearningSession (id : Z) (status : string) (error : option string)
  | GetUserContext
  | GetProjects.

(** A statement on the session's connection, a step of the key lookup (on
    its own connection), the client being built, a request to the LLM, a
    web search, a page fetch. *)
Inductive event : Type :=
  | EvSql (call : store_call)
  | EvKey (e : key_event)
  | EvClient
  | EvLlm (model : string) (max_tokens : Z)
  | EvSearch (query : pyval) (max_results : Z)
  | EvFetch (url : string).

(** The world outside the script.  An oracle that answers a call takes the
    number of calls made so far, so the same request may be answered
    differently each time. *)
Record Env : Type := {
  (** [json.loads]: the value it builds, or the exception it raises,
      [JSONDecodeError] or another ([RecursionError], [ValueError]) *)
  json_loads : string → result pyval;
  (** [repr] of a value that is not a [str], for an f-string *)
  py_repr : pyval → string;
  (** how PostgreSQL reads a parameter that is not an [int] where it expects
      a row id: an error, no id, or the id it converts to *)
  pg_key : pyval → result (option Z);
  (** whether the statement sent at this time fails *)
  db_fault : nat → option exn;
  (** [CURRENT_TIMESTAMP] *)
  now : nat → Z;
  (** what [get_anthropic_client()] finds when it looks for the key *)
  key_env : nat → KeyEnv;
  (** [Anthropic(api_key=...)], when it raises *)
  client_fault : nat → option exn;
  (** [client.messages.create]: the texts of [response.content] *)
  llm_reply : nat → result (list string);
  (** [DDGS().text(query, max_results)]: the provider's rows *)
  ddgs_text : nat → pyval → Z → result (list (gmap string string));
  (** [requests.get] followed by [raise_for_status]: the body *)
  http_get : nat → string → result string;
  (** [html2text.HTML2Text().handle] with links and images ignored *)
  html_to_text : string → result string
}.

(** ** Program state and the monad of actions *)

Record state : Type := State {
  db : store;
  client : bool;        (** [self.client is not None] *)
  trace : list event    (** the calls made so far, oldest first *)
}.

Definition clock (s : state) : nat := length (trace s).
Definition emit (e : event) (s : state) : state :=
  State (db s) (client s) (trace s ++ [e]).
Definition set_db (d : store) (s : state) : state :=
  State d (client s) (trace s).
Definition set_client (b : bool) (s : state) : state :=
  State (db s) b (trace s).

Definition M (A : Type) : Type := state → result A * state.

Definition ret {A} (a : A) : M A := λ s, (Ok a, s).
Definition raise {A} (e : exn) : M A := λ s, (Raise e, s).
Definition bind {A B} (m : M A) (k : A → M B) : M B :=
  λ s, match m s with
       | (Ok a, s') => k a s'
       | (Raise e, s') => (Raise e, s')
       end.
(** [try: m  except Exception as e: h e] *)
Definition try_except {A} (m : M A) (h : exn → M A) : M A :=
  λ s, match m s with
       | (Ok a, s') => (Ok a, s')
       | (Raise e, s') => h e s'
       end.
Definition lift {A} (r : result A) : M A := λ s, (r, s).

Definition rbind {A B} (r : result A) (k : A → result B) : result B :=
  match r with Ok a => k a | Raise e => Raise e end.

Declare Scope py_scope.
Delimit Scope py_scope with py.
Notation "x <- m ;; k" := (bind m (λ x, k))
  (at level 100, m at next level, right associativity) : py_scope.
Notation "m ;; k" := (bind m (λ _, k))
  (at level 100, right associativity) : py_scope.
Notation "x <-? r ;; k" := (rbind r (λ x, k))
  (at level 100, r at next level, right associativity) : py_scope.
Local Open Scope py_scope.

(** A loop [for x in l: acc = body acc x]; an exception leaves the loop. *)
Fixpoint for_each {A B} (body : B → A → M B) (l : list A) (acc : B) : M B :=
  match l with
  | [] => ret acc
  | x :: l' => acc' <- body acc x ;; for_each body l' acc'
  end.

(** ** Configuration constants *)

Definition MAX_SEARCH_QUERIES : nat := 3.
Definition MAX_RESULTS_PER_QUERY : Z := 3.
Definition MAX_CONTENT_PER_PAGE : Z := 4000.
Definition LEARNING_MODEL : string := "claude-sonnet-4-20250514".
Definition REFLECTION_MODEL : string := "claude-sonnet-4-20250514".

(** ** JSONB operators used by the statements *)

Definition jsonb_elements (v : pyval) : list pyval :=
  match v with PList l => l | _ => [v] end.

(** [a || b]: two objects merge with the right one winning, anything else is
    concatenated as arrays, a non-array counting as a one-element array. *)
Definition jsonb_concat (a b : pyval) : pyval :=
  match a, b with
  | PDict x, PDict y => PDict (y ∪ x)
  | _, _ => PList (jsonb_elements a ++ jsonb_elements b)
  end.

Definition jsonb_array_length (v : pyval) : result Z :=
  match v with
  | PList l => Ok (Z.of_nat (length l))
  | _ => Raise (ExternalError "cannot get array length of a non-array")
  end.

(** ** Row-level effect of the UPDATE statements *)

(** The CASE expression of [update_interest_insights]; every column on the
    right-hand side is the row's value before the statement. *)
Definition interest_status_case (r : interest) (n : Z) : result string :=
  if String.eqb (int_status r) "curious" then Ok "exploring"
  else len <-? jsonb_array_length (insights_gained r) ;;
       Ok (if (len + n >? 10)%Z then "deepening" else int_status r).

Definition sql_update_interest (now : Z) (insights : pyval)
    (questions : option pyval) (n : Z) (r : interest) : result interest :=
  st <-? interest_status_case r n ;;
  Ok (Interest (int_topic r) (why_interested r) (sparked_by r) (int_priority r)
        st
        (jsonb_concat (insights_gained r) insights)
        (match questions with Some q => q | None => remaining_questions r end)
        (int_tags r)
        (Some now)).

(** The four branches of [update_research_status]. *)
Definition sql_update_request (now : Z) (status : string) (error : option string)
    (r : request) : request :=
  if String.eqb status "in_progress" then
    Request (req_topic r) (req_queries r) (why_researching r) (req_hoping_to_learn r)
      (req_priority r) status (req_interest_id r) (req_project_id r)
      (req_error_message r) (Some now) (req_completed_at r)
  else if String.eqb status "completed" then
    Request (req_topic r) (req_queries r) (why_researching r) (req_hoping_to_learn r)
      (req_priority r) status (req_interest_id r) (req_project_id r)
      (req_error_message r) (req_started_at r) (Some now)
  else if String.eqb status "failed" then
    Request (req_topic r) (req_queries r) (why_researching r) (req_hoping_to_learn r)
      (req_priority r) status (req_interest_id r) (req_project_id r)
      error (req_started_at r) (Some now)
  else
    Request (req_topic r) (req_queries r) (why_researching r) (req_hoping_to_learn r)
      (req_priority r) status (req_interest_id r) (req_project_id r)
      (req_error_message r) (req_started_at r) (req_completed_at r).

Definition sql_complete_session (now : Z) (topic reason : pyval) (status : string)
    (insights_count questions_count new_interests : Z) (error : option string)
    (r : session) : session :=
  Session (session_type r) topic reason status insights_count questions_count
    new_interests error (ses_started_at r) (Some now)
    (Some (now - ses_started_at r)).

(** [UPDATE ... WHERE id = k]: the row with that id, if there is one. *)
Definition update_row {A} (k : option Z) (f : A → result A) (m : gmap Z A)
    : result (gmap Z A) :=
  match k with
  | None => Ok m
  | Some id =>
      match m !! id with
      | None => Ok m
      | Some r => r' <-? f r ;; Ok (<[id := r']> m)
      end
  end.

(** The table such an UPDATE leaves when its expressions cannot fail. *)
Definition updated_rows {A} (k : option Z) (f : A → A) (m : gmap Z A) : gmap Z A :=
  match k with
  | Some id => match m !! id with Some r => <[id := f r]> m | None => m end
  | None => m
  end.

(** Rows the schema and its stored functions create.  *)

(** Modelled from the spec: the stored function [add_learning_interest] is
    not in the Python sources.  A new interest starts as "curious"
    (spec, sections 3 and 8: curious, then exploring, then deepening) with
    no insights and no questions yet. *)
Definition new_interest_row (topic why : pyval) (sparked : option string)
    (priority : Z) (tags : pyval) : interest :=
  Interest topic why sparked priority "curious" (PList []) (PList []) tags None.

(** Modelled from the spec: the stored function [queue_research] is not in
    the Python sources.  A request starts as "pending" (spec, section 3). *)
Definition new_request_row (topic queries why hoping : pyval) (priority : string)
    (interest_id project_id : pyval) : request :=
  Request topic queries why hoping priority "pending" interest_id project_id
    None None None.

(** Modelled from the spec: the column defaults of [learning_sessions] are
    not in the Python sources.  A session starts as "in_progress" with its
    start time recorded (spec, section 4.6 step 1), no error and zero counts. *)
Definition new_session_row (now : Z) (session_type : string) : session :=
  Session session_type PNone PNone "in_progress" 0 0 0 None now None None.

(** ** The store adapter [ClaudeLearning] *)

Section Adapter.
Context (E : Env).

(** A parameter compared with an integer id column. *)
Definition row_key (v : pyval) : result (option Z) :=
  match v with
  | PInt z => Ok (Some z)
  | PNone => Ok None
  | _ => pg_key E v
  end.

(** [cur.execute]: the statement is sent (and traced); it fails when the
    database does, or when one of its expressions does; otherwise it is
    committed at once (autocommit). *)
Definition sql {A} (call : store_call) (run : Z → store → result (store * A)) : M A :=
  λ s, let s1 := emit (EvSql call) s in
       match db_fault E (clock s) with
       | Some e => (Raise e, s1)
       | None =>
           match run (now E (clock s)) (db s) with
           | Ok (d, a) => (Ok a, set_db d s1)
           | Raise e => (Raise e, s1)
           end
       end.

(** A SELECT; its rows only feed the prompt text. *)
Definition sql_read (call : store_call) : M unit :=
  sql call (λ _ d, Ok (d, tt)).

Definition get_learning_interests (limit : Z) : M unit :=
  sql_read (GetLearningInterests limit).
Definition get_pending_research (limit : Z) : M unit :=
  sql_read (GetPendingResearch limit).
Definition get_recent_insights (limit : Z) : M unit :=
  sql_read (GetRecentInsights limit).
Definition get_user_context : M unit := sql_read GetUserContext.
Definition get_projects : M unit := sql_read GetProjects.

Definition add_learning_interest (topic why_interested : pyval)
    (sparked : option string) (priority : Z) (tags : pyval) : M Z :=
  sql (AddLearningInterest topic why_interested sparked priority)
    (λ _ d, let id := next_id (learning_interests d) in
            Ok (set_interests
                  <[id := new_interest_row topic why_interested sparked priority
                            (or_empty tags)]> d,
                id)).

Definition update_interest_insights (interest_id insights questions : pyval) : M unit :=
  let q := if truthy questions then Some questions else None in
  n <- lift (py_len insights) ;;
  sql (UpdateInterestInsights interest_id insights q n)
    (λ now d,
       k <-? row_key interest_id ;;
       m <-? update_row k (sql_update_interest now insights q n) (learning_interests d) ;;
       Ok (set_interests (λ _, m) d, tt)).

Definition queue_research (topic queries why hoping_to_learn : pyval)
    (priority : string) (interest_id project_id : pyval) : M Z :=
  sql (QueueResearch topic queries)
    (λ _ d, let id := next_id (research_requests d) in
            Ok (set_requests
                  <[id := new_request_row topic queries why hoping_to_learn priority
                            interest_id project_id]> d,
                id)).

Definition update_research_status (request_id : pyval) (status : string)
    (error : option string) : M unit :=
  sql (UpdateResearchStatus request_id status error)
    (λ now d,
       k <-? row_key request_id ;;
       m <-? update_row k (λ r, Ok (sql_update_request now status error r))
               (research_requests d) ;;
       Ok (set_requests (λ _, m) d, tt)).

Definition save_research_result (row : research_row) : M unit :=
  sql (SaveResearchResult row) (λ _ d, Ok (set_results (λ l, l ++ [row]) d, tt)).

Definition record_insight (topic summary insights questions confidence sources
    request_id interest_id : pyval) : M Z :=
  let row := Insight topic summary insights (or_empty questions) confidence
               (or_empty sources) request_id interest_id in
  sql (RecordInsight row)
    (λ _ d, let id := next_id (learning_insights d) in
            Ok (set_insights <[id := row]> d, id)).

Definition start_learning_session (session_type : string) : M Z :=
  sql (StartLearningSession session_type)
    (λ now d, let id := next_id (learning_sessions d) in
              Ok (set_sessions <[id := new_session_row now session_type]> d, id)).

Definition complete_learning_session (session_id : Z) (topic reason : pyval)
    (status : string) (insights_count questions_count new_interests : Z)
    (error : option string) : M unit :=
  sql (CompleteLearningSession session_id status error)
    (λ now d,
       m <-? update_row (Some session_id)
               (λ r, Ok (sql_complete_session now topic reason status insights_count
                           questions_count new_interests error r))
               (learning_sessions d) ;;
       Ok (set_sessions (λ _, m) d, tt)).

(** [_get_client]: the client is created on first use and kept.  Creating
    it is [get_anthropic_client()]: the key is looked up, on a connection of
    its own, and the client is built with it. *)
Definition get_client : M unit :=
  λ s, if client s then (Ok tt, s)
       else
         let '(key, calls) := get_anthropic_client (key_env E (clock s)) in
         let s1 := State (db s) (client s) (trace s ++ (EvKey <$> calls)) in
         match key with
         | Raise e => (Raise e, s1)
         | Ok _ =>
             let s2 := emit EvClient s1 in
             match client_fault E (clock s) with
             | Some e => (Raise e, s2)
             | None => (Ok tt, set_client true s2)
             end
         end.

(** [client.messages.create(model, max_tokens, messages)] *)
Definition messages_create (model : string) (max_tokens : Z) : M (list string) :=
  λ s, (llm_reply E (clock s), emit (EvLlm model max_tokens) s).

(** ** Web search and content fetching *)

Definition search_hit (r : gmap string string) : gmap string string :=
  <["url" := dget r "href" (dget r "link" "")]>
  (<["title" := dget r "title" ""]>
  (<["snippet" := dget r "body" (dget r "snippet" "")]> ∅)).

Definition search_web (query : pyval) (max_results : Z) : M (list (gmap string string)) :=
  λ s, let s1 := emit (EvSearch query max_results) s in
       match ddgs_text E (clock s) query max_results with
       | Ok results => (Ok (search_hit <$> results), s1)
       | Raise _ => (Ok [], s1)
       end.

(** ['\n'.join(line.strip() for line in text.split('\n') if line.strip())] *)
Definition clean_lines (text : string) : list string :=
  Text.strip <$> filter (λ line, Text.is_empty (Text.strip line) = false)
                   (Text.split (String Text.newline EmptyString) text).

Definition clean_text (text : string) : string :=
  Text.join (String Text.newline EmptyString) (clean_lines text).

(** [text[:max_length] if len(text) > max_length else text] *)
Definition truncate (max_length : Z) (text : string) : string :=
  if (Z.of_nat (String.length text) >? max_length)%Z
  then Text.slice_to max_length text else text.

Definition fetch_page_content (url : string) (max_length : Z) : M (option string) :=
  λ s, let s1 := emit (EvFetch url) s in
       match http_get E (clock s) url with
       | Raise _ => (Ok None, s1)
       | Ok body =>
           match html_to_text E body with
           | Raise _ => (Ok None, s1)
           | Ok text => (Ok (Some (truncate max_length (clean_text text))), s1)
           end
       end.
End Adapter.

(** ** The LLM steps *)

Section Pipeline.
Context (E : Env).

(** [l[i]] *)
Definition item {A} (l : list A) (i : nat) : result A :=
  match l !! i with
  | Some x => Ok x
  | None => Raise (IndexError "list index out of range")
  end.

(** The text between the first code fence and the next one, or the whole
    reply when it has no fence. *)
Definition extract_payload (content : string) : result string :=
  if Text.contains "```json" content then
    x <-? item (Text.split "```json" content) 1 ;; item (Text.split "```" x) 0
  else if Text.contains "```" content then
    x <-? item (Text.split "```" content) 1 ;; item (Text.split "```" x) 0
  else Ok content.

(** [content.strip()] of the payload of [response.content[0].text] *)
Definition reply_payload (response : list string) : result string :=
  content <-? item response 0 ;;
  payload <-? extract_payload content ;;
  Ok (Text.strip payload).

(** The body of the [try] block. *)
Definition decode_reply (response : list string) : result pyval :=
  payload <-? reply_payload response ;;
  json_loads E payload.

(** [try: ... except (json.JSONDecodeError, IndexError): return fallback] *)
Definition parse_reply (response : list string) (fallback : pyval) : M pyval :=
  match decode_reply response with
  | Ok v => ret v
  | Raise (JSONDecodeError _) | Raise (IndexError _) => ret fallback
  | Raise e => raise e
  end.

Definition fallback_topic : string := "Python best practices 2026".

Definition fallback_topic_choice : pyval :=
  PDict (list_to_map
    [ ("choice_type", PStr "new_topic");
      ("topic", PStr fallback_topic);
      ("search_queries",
         PList [PStr "Python best practices 2026";
                PStr "modern Python development patterns"]);
      ("why_now", PStr "Fallback topic for continued learning");
      ("hoping_to_learn", PStr "Current Python development standards") ]).

Definition fallback_reflection : pyval :=
  PDict (list_to_map
    [ ("summary", PStr "Research completed but reflection parsing failed.");
      ("key_insights", PList []);
      ("new_questions", PList []);
      ("confidence", PStr "low");
      ("applicable_to", PList []);
      ("new_interest_sparked", PNone) ]).

(** Everything [choose_learning_topic] does up to the LLM's answer.  The
    prompt text is not modelled: the oracle answers whatever it is asked. *)
Definition ask_for_topic : M (list string) :=
  get_client E ;;
  get_learning_interests E 15 ;;
  get_pending_research E 5 ;;
  get_user_context E ;;
  get_projects E ;;
  get_recent_insights E 5 ;;
  messages_create E LEARNING_MODEL 1000.

Definition choose_learning_topic : M pyval :=
  response <- ask_for_topic ;;
  parse_reply response fallback_topic_choice.

Definition ask_for_reflection : M (list string) :=
  get_client E ;;
  messages_create E REFLECTION_MODEL 1500.

Definition reflect_on_learning (topic : pyval) (research_results : list pydict)
    (hoping_to_learn : pyval) : M pyval :=
  response <- ask_for_reflection ;;
  parse_reply response fallback_reflection.

(** ** The research loop *)

Definition opt_str (o : option string) : pyval :=
  match o with Some s => PStr s | None => PNone end.

Definition result_data (query : pyval) (url title snippet : string)
    (content : option string) : pydict :=
  list_to_map
    [ ("query", query); ("url", PStr url); ("title", PStr title);
      ("snippet", PStr snippet); ("content", opt_str content) ].

(** The body of the inner loop, for one search result. *)
Definition research_one (query request_id : pyval) (all_results : list pydict)
    (hit : gmap string string) : M (list pydict) :=
  let url := dget hit "url" "" in
  if Text.is_empty url then ret all_results
  else
    content <- fetch_page_content E url MAX_CONTENT_PER_PAGE ;;
    let all_results :=
      all_results ++ [result_data query url (dget hit "title" "")
                        (dget hit "snippet" "") content] in
    (if truthy request_id
     then save_research_result E
            (ResearchRow request_id query url (dget hit "title" "")
               (dget hit "snippet" "") content "article" PNone)
     else ret tt) ;;
    ret all_results.

(** The body of the outer loop, for one query. *)
Definition research_query (request_id : pyval) (all_results : list pydict)
    (query : pyval) : M (list pydict) :=
  results <- search_web E query MAX_RESULTS_PER_QUERY ;;
  for_each (research_one query request_id) (take 2 results) all_results.

Definition perform_research (queries request_id : pyval) : M (list pydict) :=
  qs <- lift (slice_items MAX_SEARCH_QUERIES queries) ;;
  for_each (research_query request_id) qs [].

(** ** The orchestrator [run_learning_session] *)

(** What the first half of the session settles. *)
Record plan : Type := Plan {
  plan_choice : pydict;
  plan_topic : pyval;
  plan_queries : pyval;
  plan_request_id : pyval;
  plan_interest_id : pyval
}.

(** [d[k]] *)
Definition subscript (d : pydict) (k : string) : result pyval :=
  match d !! k with
  | Some v => Ok v
  | None => Raise (KeyError k)
  end.

(** [{'url': r['url'], 'title': r['title']}] *)
Definition source_ref (r : pydict) : result pyval :=
  url <-? subscript r "url" ;;
  title <-? subscript r "title" ;;
  Ok (PDict (list_to_map [("url", url); ("title", title)])).

Fixpoint source_refs (results : list pydict) : result (list pyval) :=
  match results with
  | [] => Ok []
  | r :: rest =>
      x <-? source_ref r ;; xs <-? source_refs rest ;; Ok (x :: xs)
  end.

(** [f"{v}"] *)
Definition py_str (v : pyval) : string :=
  match v with PStr s => s | _ => py_repr E v end.

Definition failed_result (topic : pyval) : pydict :=
  list_to_map
    [ ("status", PStr "failed"); ("error", PStr "No results found");
      ("topic", topic) ].

Definition completed_result (session_id : Z) (topic insights new_questions
    summary new_interest : pyval) : pydict :=
  list_to_map
    [ ("status", PStr "completed"); ("session_id", PInt session_id);
      ("topic", topic); ("insights", insights);
      ("new_questions", new_questions); ("summary", summary);
      ("new_interest", new_interest) ].

Definition error_result (e : exn) : pydict :=
  list_to_map [ ("status", PStr "error"); ("error", PStr (str_exn e)) ].

(** Choose the topic, resolve or create the research request and mark it
    in progress.  [topic_choice.get] needs a dictionary; once the first
    [.get] has passed, the later ones on the same object cannot fail, so the
    dictionary is taken out once. *)
Definition prepare_research : M plan :=
  topic_choice <- choose_learning_topic ;;
  tc <- lift (as_dict topic_choice) ;;
  let topic := dget tc "topic" (PStr "Unknown") in
  let queries := dget tc "search_queries" (PList []) in
  let request_id := dget tc "research_id" PNone in
  let interest_id := dget tc "interest_id" PNone in
  request_id <-
    (if truthy request_id then ret request_id
     else id <- queue_research E topic queries (dget tc "why_now" PNone)
                   (dget tc "hoping_to_learn" PNone) "medium" interest_id PNone ;;
          ret (PInt id)) ;;
  update_research_status E request_id "in_progress" None ;;
  ret (Plan tc topic queries request_id interest_id).

(** The branch [if not results]. *)
Definition fail_session (session_id : Z) (p : plan) : M pydict :=
  update_research_status E (plan_request_id p) "failed" (Some "No results found") ;;
  complete_learning_session E session_id (plan_topic p)
    (dget (plan_choice p) "why_now" (PStr "")) "failed" 0 0 0
    (Some "No research results") ;;
  ret (failed_result (plan_topic p)).

(** Reflection and everything after it. *)
Definition finish_session (session_id : Z) (p : plan) (results : list pydict)
    : M pydict :=
  reflection <- reflect_on_learning (plan_topic p) results
                  (dget (plan_choice p) "hoping_to_learn" PNone) ;;
  rf <- lift (as_dict reflection) ;;
  let summary := dget rf "summary" (PStr "") in
  let key_insights := dget rf "key_insights" (PList []) in
  let new_questions := dget rf "new_questions" (PList []) in
  sources <- lift (source_refs results) ;;
  record_insight E (plan_topic p) summary key_insights new_questions
    (dget rf "confidence" (PStr "medium")) (PList sources)
    (plan_request_id p) (plan_interest_id p) ;;
  (if truthy (plan_interest_id p)
   then update_interest_insights E (plan_interest_id p) key_insights new_questions
   else ret tt) ;;
  let new_interest := dget rf "new_interest_sparked" PNone in
  sparked <-
    (if truthy new_interest
     then d <- lift (as_dict new_interest) ;; ret (Some d)
     else ret None) ;;
  new_interest_count <-
    match sparked with
    | Some d =>
        if truthy (dget d "topic" PNone)
        then add_learning_interest E (dget d "topic" PNone)
               (dget d "why" (PStr "Sparked by research"))
               (Some ("Research on: " +:+ py_str (plan_topic p))) 5 PNone ;;
             ret 1
        else ret 0
    | None => ret 0
    end ;;
  update_research_status E (plan_request_id p) "completed" None ;;
  insights_count <- lift (py_len key_insights) ;;
  questions_count <- lift (py_len new_questions) ;;
  complete_learning_session E session_id (plan_topic p)
    (dget (plan_choice p) "why_now" (PStr "")) "completed"
    insights_count questions_count new_interest_count None ;;
  ret (completed_result session_id (plan_topic p) key_insights new_questions summary
         (match sparked with Some d => dget d "topic" PNone | None => PNone end)).

(** The body of the [try] block after the session row exists. *)
Definition session_steps (session_id : Z) : M pydict :=
  p <- prepare_research ;;
  results <- perform_research (plan_queries p) (plan_request_id p) ;;
  match results with
  | [] => fail_session session_id p
  | _ :: _ => finish_session session_id p results
  end.

(** [run_learning_session(learning)] for a caller-supplied adapter, as both
    entry points call it. *)
Definition run_learning_session : M pydict :=
  try_except
    (session_id <- start_learning_session E "autonomous" ;;
     session_steps session_id)
    (λ e, ret (error_result e)).

End Pipeline.

(** ** A JSON decoder to run the model on concrete replies

    The theorems below hold for every decoder [json_loads].  This one reads
    texts over ASCII (no [\u] escapes above 127), either by the grammar of
    RFC 8259 or as [json.loads] does, which also reads the constants [NaN],
    [Infinity] and [-Infinity] wherever a value may stand; it is what the
    concrete environments use.  The limits of the interpreter (recursion
    depth, digits of an integer) are not part of it. *)

Module Json.

Definition ws (c : ascii) : bool :=
  let n := nat_of_ascii c in
  (n =? 32)%nat || (n =? 9)%nat || (n =? 10)%nat || (n =? 13)%nat.

Fixpoint skip_ws (s : list ascii) : list ascii :=
  match s with
  | c :: s' => if ws c then skip_ws s' else s
  | [] => []
  end.

Definition digit (c : ascii) : option Z :=
  let n := nat_of_ascii c in
  if (48 <=? n)%nat && (n <=? 57)%nat then Some (Z.of_nat (n - 48)) else None.

Definition hex (c : ascii) : option nat :=
  let n := nat_of_ascii c in
  if (48 <=? n)%nat && (n <=? 57)%nat then Some (n - 48)%nat
  else if (65 <=? n)%nat && (n <=? 70)%nat then Some (n - 55)%nat
  else if (97 <=? n)%nat && (n <=? 102)%nat then Some (n - 87)%nat
  else None.

(** Digits read so far as [(value, how many)]. *)
Fixpoint digits (s : list ascii) (acc : Z) (count : nat) : Z * nat * list ascii :=
  match s with
  | c :: s' =>
      match digit c with
      | Some d => digits s' (10 * acc + d) (S count)
      | None => (acc, count, s)
      end
  | [] => (acc, count, [])
  end.

Definition escape (c : ascii) : option ascii :=
  let n := nat_of_ascii c in
  if (n =? 34)%nat || (n =? 92)%nat || (n =? 47)%nat then Some c
  else if (n =? 98)%nat then Some (ascii_of_nat 8)
  else if (n =? 102)%nat then Some (ascii_of_nat 12)
  else if (n =? 110)%nat then Some (ascii_of_nat 10)
  else if (n =? 114)%nat then Some (ascii_of_nat 13)
  else if (n =? 116)%nat then Some (ascii_of_nat 9)
  else None.

(** The characters after an opening quote, up to the closing one. *)
Fixpoint string_body (s : list ascii) : option (string * list ascii) :=
  match s with
  | [] => None
  | c :: s' =>
      let n := nat_of_ascii c in
      if (n =? 34)%nat then Some (EmptyString, s')
      else if (n <? 32)%nat then None
      else if (n =? 92)%nat then
        match s' with
        | e :: s'' =>
            if (nat_of_ascii e =? 117)%nat then
              match s'' with
              | a :: b :: c2 :: d :: s3 =>
                  match hex a, hex b, hex c2, hex d with
                  | Some 0%nat, Some 0%nat, Some x, Some y =>
                      if (x <? 8)%nat then
                        match string_body s3 with
                        | Some (r, rest) =>
                            Some (String (ascii_of_nat (16 * x + y)) r, rest)
                        | None => None
                        end
                      else None
                  | _, _, _, _ => None
                  end
              | _ => None
              end
            else
              match escape e, string_body s'' with
              | Some x, Some (r, rest) => Some (String x r, rest)
              | _, _ => None
              end
        | [] => None
        end
      else
        match string_body s' with
        | Some (r, rest) => Some (String c r, rest)
        | None => None
        end
  end.

Definition is_char (n : nat) (c : ascii) : bool := (nat_of_ascii c =? n)%nat.

(** [-? int frac? exp?]; an integer literal gives [PInt], the rest [PFloat]. *)
Definition number (s : list ascii) : option (pyval * list ascii) :=
  let '(neg, s1) :=
    match s with
    | c :: s' => if is_char 45 c then (true, s') else (false, s)
    | [] => (false, s)
    end in
  let '(int_part, n_int, s2) := digits s1 0 0 in
  let leading_zero :=
    match s1 with c :: _ => is_char 48 c && (1 <? n_int)%nat | [] => false end in
  if (n_int =? 0)%nat || leading_zero then None
  else
    let sign (z : Z) := if neg then (- z)%Z else z in
    let '(frac, n_frac, has_frac, s3) :=
      match s2 with
      | c :: s' =>
          if is_char 46 c
          then let '(f, k, r) := digits s' 0 0 in (f, k, true, r)
          else (0%Z, 0%nat, false, s2)
      | [] => (0%Z, 0%nat, false, s2)
      end in
    if has_frac && (n_frac =? 0)%nat then None
    else
      let mantissa := (int_part * 10 ^ Z.of_nat n_frac + frac)%Z in
      let exponent :=
        match s3 with
        | c :: s' =>
            if is_char 101 c || is_char 69 c then
              let '(eneg, s4) :=
                match s' with
                | d :: s'' =>
                    if is_char 45 d then (true, s'')
                    else if is_char 43 d then (false, s'')
                    else (false, s')
                | [] => (false, s')
                end in
              let '(e, k, r) := digits s4 0 0 in
              if (k =? 0)%nat then None
              else Some (Some (if eneg then (- e)%Z else e), r)
            else Some (None, s3)
        | [] => Some (None, s3)
        end in
      match exponent with
      | None => None
      | Some (None, rest) =>
          if has_frac
          then Some (PFloat (Finite (Qmake (sign mantissa)
                                       (Z.to_pos (10 ^ Z.of_nat n_frac)))), rest)
          else Some (PInt (sign int_part), rest)
      | Some (Some e, rest) =>
          let p := (e - Z.of_nat n_frac)%Z in
          Some (PFloat (Finite (if (0 <=? p)%Z
                                then Qmake (sign mantissa * 10 ^ p) 1
                                else Qmake (sign mantissa) (Z.to_pos (10 ^ (- p))))),
                rest)
      end.

Fixpoint keyword (k : list ascii) (s : list ascii) : option (list ascii) :=
  match k, s with
  | [], _ => Some s
  | a :: k', b :: s' => if Ascii.eqb a b then keyword k' s' else None
  | _ :: _, [] => None
  end.

(** [value] reads one value; [elements] and [members] read what follows an
    opening bracket or a comma; with [py] the three constants are values.  The fuel bounds the nesting of calls; two
    nested calls never start on the same input twice, so twice the length of
    the text is enough. *)
Fixpoint value (py : bool) (fuel : nat) (s : list ascii) : option (pyval * list ascii) :=
  match fuel with
  | O => None
  | S f =>
      match skip_ws s with
      | [] => None
      | c :: s' =>
          if is_char 123 c then
            match skip_ws s' with
            | d :: s'' =>
                if is_char 125 d then Some (PDict ∅, s'')
                else match members py f (skip_ws s') with
                     | Some (m, rest) => Some (PDict m, rest)
                     | None => None
                     end
            | [] => None
            end
          else if is_char 91 c then
            match skip_ws s' with
            | d :: s'' =>
                if is_char 93 d then Some (PList [], s'')
                else match elements py f (skip_ws s') with
                     | Some (l, rest) => Some (PList l, rest)
                     | None => None
                     end
            | [] => None
            end
          else if is_char 34 c then
            match string_body s' with
            | Some (str, rest) => Some (PStr str, rest)
            | None => None
            end
          else if is_char 116 c then
            option_map (λ r, (PBool true, r)) (keyword (list_ascii_of_string "rue") s')
          else if is_char 102 c then
            option_map (λ r, (PBool false, r)) (keyword (list_ascii_of_string "alse") s')
          else if is_char 110 c then
            option_map (λ r, (PNone, r)) (keyword (list_ascii_of_string "ull") s')
          else if py && is_char 78 c then
            option_map (λ r, (PFloat NaN, r)) (keyword (list_ascii_of_string "aN") s')
          else if py && is_char 73 c then
            option_map (λ r, (PFloat PosInfinity, r))
              (keyword (list_ascii_of_string "nfinity") s')
          else
            match number (c :: s') with
            | Some r => Some r
            | None =>
                if py && is_char 45 c then
                  option_map (λ r, (PFloat NegInfinity, r))
                    (keyword (list_ascii_of_string "Infinity") s')
                else None
            end
      end
  end
with elements (py : bool) (fuel : nat) (s : list ascii) : option (list pyval * list ascii) :=
  match fuel with
  | O => None
  | S f =>
      match value py f s with
      | Some (v, rest) =>
          match skip_ws rest with
          | c :: rest' =>
              if is_char 93 c then Some ([v], rest')
              else if is_char 44 c then
                match elements py f rest' with
                | Some (l, rest'') => Some (v :: l, rest'')
                | None => None
                end
              else None
          | [] => None
          end
      | None => None
      end
  end
with members (py : bool) (fuel : nat) (s : list ascii) : option (pydict * list ascii) :=
  match fuel with
  | O => None
  | S f =>
      match skip_ws s with
      | q :: s1 =>
          if is_char 34 q then
            match string_body s1 with
            | Some (k, s2) =>
                match skip_ws s2 with
                | colon :: s3 =>
                    if is_char 58 colon then
                      match value py f s3 with
                      | Some (v, rest) =>
                          match skip_ws rest with
                          | c :: rest' =>
                              if is_char 125 c then Some ({[ k := v ]}, rest')
                              else if is_char 44 c then
                                match members py f rest' with
                                | Some (m, rest'') =>
                                    (* a repeated key keeps its last value *)
                                    Some (m ∪ {[ k := v ]}, rest'')
                                | None => None
                                end
                              else None
                          | [] => None
                          end
                      | None => None
                      end
                    else None
                | [] => None
                end
            | None => None
            end
          else None
      | [] => None
      end
  end.

Definition parse (py : bool) (s : string) : option pyval :=
  let l := list_ascii_of_string s in
  match value py (2 * length l + 2) l with
  | Some (v, rest) =>
      match skip_ws rest with [] => Some v | _ :: _ => None end
  | None => None
  end.

(** [json.loads] *)
Definition loads (s : string) : result pyval :=
  match parse true s with
  | Some v => Ok v
  | None => Raise (JSONDecodeError "Expecting value")
  end.

(** The text is a JSON text. *)
Definition rfc8259 (s : string) : bool :=
  match parse false s with Some _ => true | None => false end.

End Json.

(** ** Vocabulary of the statements *)

(** The queries searched and the pages requested in a stretch of trace. *)
Definition searched (e : event) : option pyval :=
  match e with EvSearch q _ => Some q | _ => None end.
Definition fetched (e : event) : option string :=
  match e with EvFetch u => Some u | _ => None end.
Definition searches (t : list event) : list pyval := omap searched t.
Definition fetches (t : list event) : list string := omap fetched t.

(** The request to the reflection model, told from the topic request by its
    token bound. *)
Definition is_reflection_call (e : event) : bool :=
  match e with EvLlm _ max_tokens => Z.eqb max_tokens 1500 | _ => false end.

(** The calls one query of the research loop makes: its search, then
    [calls] (page fetches and result inserts). *)
Record query_block : Type := QueryBlock {
  block_query : pyval;
  block_calls : list event
}.
Definition block_events (b : query_block) : list event :=
  EvSearch (block_query b) MAX_RESULTS_PER_QUERY :: block_calls b.

(** A line as [fetch_page_content] means to leave it: not empty, not blank,
    no whitespace at either end. *)
Definition line_ok (l : string) : Prop :=
  Text.is_empty l = false ∧ Text.blank l = false ∧ Text.trimmed l.

Definition nl : string := String Text.newline EmptyString.

(** A text made of such lines only (the empty text has no line). *)
Definition only_clean_lines (t : string) : Prop :=
  t = EmptyString ∨ Forall line_ok (Text.split nl t).

Definition is_prefix_of (t s : string) : Prop := ∃ rest, s = t +:+ rest.

(** One call [update_interest_insights(id, insights, questions)] seen from
    the row it addresses: the row the statement leaves, which is the old row
    when the statement fails. *)
Record insights_call : Type := InsightsCall {
  call_time : Z;
  call_insights : list pyval;
  call_questions : pyval
}.

Definition interest_row_after (r : interest) (c : insights_call) : interest :=
  match
    sql_update_interest (call_time c) (PList (call_insights c))
      (if truthy (call_questions c) then Some (call_questions c) else None)
      (Z.of_nat (length (call_insights c))) r
  with
  | Ok r' => r'
  | Raise _ => r
  end.

(** The state after a series of calls [update_interest_insights(id,
    insights, questions)], each made whatever became of the one before. *)
Definition updates_run (E : Env) (calls : list (pyval * pyval * pyval))
    (s : state) : state :=
  foldl (λ s c, (update_interest_insights E c.1.1 c.1.2 c.2 s).2) s calls.

(** An interest that has been updated: "exploring" or "deepening", its
    insights an array. *)
Definition explored (r : interest) : Prop :=
  (int_status r = "exploring" ∨ int_status r = "deepening") ∧
  ∃ l, insights_gained r = PList l.

(** What [insights_gained] holds when it is an array. *)
Definition insight_count (r : interest) : Z :=
  match insights_gained r with PList l => Z.of_nat (length l) | _ => 0 end.

(** [follows P s s']: from [s] to [s'] the sessions table is untouched and
    every call made satisfies [P]; [steps P m]: so it is across the action
    [m], however it ends. *)
Definition follows (P : event → Prop) (s s' : state) : Prop :=
  learning_sessions (db s') = learning_sessions (db s) ∧
  ∃ evs, trace s' = trace s ++ evs ∧ Forall P evs.

Definition steps (P : event → Prop) {A} (m : M A) : Prop :=
  ∀ s, follows P s (m s).2.

(** An action that leaves the sessions table as it found it whenever it
    raises. *)
Definition raise_keeps {A} (m : M A) : Prop :=
  ∀ s e s', m s = (Raise e, s') →
            learning_sessions (db s') = learning_sessions (db s).

Definition any_call (e : event) : Prop := True.
Definition no_reflection (e : event) : Prop := is_reflection_call e = false.

(** ** Concrete worlds, to run the model *)

Definition quoted (s : string) : string :=
  String (ascii_of_nat 34) s +:+ String (ascii_of_nat 34) EmptyString.

(** A machine with the key in its environment. *)
Definition keyed_environment : KeyEnv :=
  {| environ_api_key := Some "sk-ant-0";
     connect_fault := None;
     cursor_fault := None;
     key_file := None;
     get_secret := λ _, Ok None |}.

(** A world where the database and the client work, the key is in the
    environment, the LLM answers with [replies] (by call time), the provider returns [hits] for every query and
    every page has the body [page]; html2text's output ends in a blank line. *)
Definition world (replies : nat → result (list string))
    (hits : result (list (gmap string string))) (page : result string) : Env :=
  {| json_loads := Json.loads;
     py_repr := λ _, "<object>";
     pg_key := λ _, Raise (ExternalError "invalid input syntax for type integer");
     db_fault := λ _, None;
     now := λ t, Z.of_nat t;
     key_env := λ _, keyed_environment;
     client_fault := λ _, None;
     llm_reply := replies;
     ddgs_text := λ _ _ _, hits;
     http_get := λ _ _, page;
     html_to_text := λ body, Ok (body +:+ nl +:+ nl) |}.

(** Two replies that are not JSON: a fenced block with unquoted keys, and
    plain prose. *)
Definition fenced_reply : string :=
  "Here is my choice: ```json {topic: Rust, search_queries: [rust]} ``` Done.".
Definition prose_reply : string := "I could not settle on anything.".

Definition provider_row : gmap string string :=
  list_to_map [("link", "http://example.org/a"); ("title", "A"); ("body", "about a")].

Definition empty_store : store := Store ∅ ∅ [] ∅ ∅.
Definition initial_state : state := State empty_store false [].

(** A topic choice with four queries and a reflection with two insights and
    one question, as the LLM would send them. *)
Definition four_queries_reply : string :=
  "```json {" +:+ quoted "topic" +:+ ": " +:+ quoted "Rocq" +:+ ", "
  +:+ quoted "search_queries" +:+ ": [" +:+ quoted "X" +:+ ", " +:+ quoted "Y"
  +:+ ", " +:+ quoted "Z" +:+ ", " +:+ quoted "W" +:+ "]} ```".

Definition two_insights_reply : string :=
  "{" +:+ quoted "summary" +:+ ": " +:+ quoted "fine" +:+ ", "
  +:+ quoted "key_insights" +:+ ": [" +:+ quoted "a" +:+ ", " +:+ quoted "b" +:+ "], "
  +:+ quoted "new_questions" +:+ ": [" +:+ quoted "why" +:+ "], "
  +:+ quoted "confidence" +:+ ": " +:+ quoted "high" +:+ "}".

(** The topic request is the eighth call of a run; later requests to the
    LLM are reflections. *)
Definition scripted_world : Env :=
  world (λ t, if (t <=? 7)%nat then Ok [four_queries_reply] else Ok [two_insights_reply])
    (Ok (replicate 3 provider_row)) (Ok "some text").

(** A store holding one interest that has been explored once. *)
Definition one_interest : interest :=
  Interest (PStr "Rocq") (PStr "proofs") None 5 "exploring"
    (PList [PStr "i1"]) (PList [PStr "q1"]) (PList []) (Some 0).
Definition one_interest_state : state :=
  State (Store {[ 1 := one_interest ]} ∅ [] ∅ ∅) false [].

(** ** Code fences

    The character of a fence, and a piece put in front of the first piece
    of a split. *)

Definition backtick : ascii := ascii_of_nat 96.

Definition prepend_head (pre : string) (l : list string) : list string :=
  match l with
  | h :: t => (pre +:+ h) :: t
  | [] => [pre]
  end.

(** ** [load_db_config] *)

(** [s.startswith(c)] for a one-character [c] *)
Definition starts_with (a : ascii) (s : string) : bool :=
  match s with
  | String c _ => Ascii.eqb a c
  | EmptyString => false
  end.

(** [s.split(c, 1)]: the text before the first [c] and the text after it;
    [None] when [c] does not occur (the split has one piece, and unpacking
    it into two names would raise). *)
Fixpoint split_once (a : ascii) (s : string) : option (string * string) :=
  match s with
  | EmptyString => None
  | String c s' =>
      if Ascii.eqb a c then Some (EmptyString, s')
      else match split_once a s' with
           | Some (k, v) => Some (String c k, v)
           | None => None
           end
  end.

Definition equals_sign : ascii := ascii_of_nat 61.
Definition hash_sign : ascii := ascii_of_nat 35.

(** The body of the loop over the lines of [db.env]. *)
Definition config_line (config : gmap string string) (line : string)
    : gmap string string :=
  let line := Text.strip line in
  if negb (Text.is_empty line) && negb (starts_with hash_sign line)
     && Text.has_char equals_sign line
  then match split_once equals_sign line with
       | Some (key, value) => <[key := value]> config
       | None => config
       end
  else config.

(** [load_db_config()]: [file] is [None] when [db.env] does not exist, and
    its lines otherwise. *)
Definition load_db_config (file : option (list string)) : gmap string string :=
  match file with
  | Some lines => foldl config_line ∅ lines
  | None => ∅
  end.

(** A line the loop passes over: blank, a comment, or without an equals
    sign. *)
Definition ignored_line (line : string) : Prop :=
  Text.is_empty (Text.strip line) = true
  ∨ starts_with hash_sign (Text.strip line) = true
  ∨ Text.has_char equals_sign (Text.strip line) = false.

(** ** What [perform_research] leaves behind *)

(** One page the loop fetched: its query, the three fields of the search
    hit, and what the fetch returned. *)
Record fetched_item : Type := FetchedItem {
  item_query : pyval;
  item_url : string;
  item_title : string;
  item_snippet : string;
  item_content : option string
}.

(** The dictionary appended to [all_results] for it, and the row inserted. *)
Definition item_result (it : fetched_item) : pydict :=
  result_data (item_query it) (item_url it) (item_title it) (item_snippet it)
    (item_content it).

Definition item_row (request_id : pyval) (it : fetched_item) : research_row :=
  ResearchRow request_id (item_query it) (item_url it) (item_title it)
    (item_snippet it) (item_content it) "article" PNone.

Definition saved_rows (request_id : pyval) (items : list fetched_item)
    : list research_row :=
  if truthy request_id then item_row request_id <$> items else [].

(** From [s], a stretch of the loop that started with [acc] ended in [out]:
    it fetched the pages of [items] and saved their rows, then possibly
    fetched one more page ([pending]) whose insert raised; the other tables
    are as they were. *)
Definition research_progress (request_id : pyval) (acc : list pydict) (s : state)
    (out : result (list pydict) * state) (items : list fetched_item)
    (pending : list string) : Prop :=
  (∃ new, trace out.2 = trace s ++ new ∧
          fetches new = (item_url <$> items) ++ pending) ∧
  (length pending ≤ 1)%nat ∧
  Forall (λ it, item_url it ≠ EmptyString) items ∧
  research_results (db out.2)
    = research_results (db s) ++ saved_rows request_id items ∧
  learning_interests (db out.2) = learning_interests (db s) ∧
  research_requests (db out.2) = research_requests (db s) ∧
  learning_insights (db out.2) = learning_insights (db s) ∧
  learning_sessions (db out.2) = learning_sessions (db s) ∧
  match out.1 with
  | Ok results => results = acc ++ (item_result <$> items) ∧ pending = []
  | Raise _ => True
  end.

(** ** Relations between the store before and after *)

(** [db_walks Q m]: the stores before and after the action [m] are related
    by [Q], however [m] ends. *)
Definition db_walks (Q : store → store → Prop) {A} (m : M A) : Prop :=
  ∀ s, Q (db s) (db (m s).2).

(** Nothing is deleted: every table keeps its rows' ids, the results and
    the insights keep their rows as they are. *)
Definition store_kept (d d' : store) : Prop :=
  dom (learning_interests d) ⊆ dom (learning_interests d') ∧
  dom (research_requests d) ⊆ dom (research_requests d') ∧
  research_results d `prefix_of` research_results d' ∧
  learning_insights d ⊆ learning_insights d' ∧
  dom (learning_sessions d) ⊆ dom (learning_sessions d').

(** The sessions with an id in [ids] are as they were. *)
Definition sessions_kept (ids : gset Z) (d d' : store) : Prop :=
  ∀ id, id ∈ ids → learning_sessions d' !! id = learning_sessions d !! id.

(** The session table is as it was. *)
Definition same_sessions (d d' : store) : Prop :=
  learning_sessions d' = learning_sessions d.


(** ** Counting the calls of a run *)

(** The price of a call by its kind, and of a stretch of trace. *)
Definition call_price
    (sql_price secret_price client_price llm_price search_price fetch_price : nat)
    (e : event) : nat :=
  match e with
  | EvSql _ => sql_price
  | EvKey (KeyQuery _) => secret_price
  | EvKey _ => 0
  | EvClient => client_price
  | EvLlm _ _ => llm_price
  | EvSearch _ _ => search_price
  | EvFetch _ => fetch_price
  end.

Fixpoint trace_price (w : event → nat) (t : list event) : nat :=
  match t with
  | [] => 0
  | e :: t' => w e + trace_price w t'
  end.

(** [costs w n m]: however [m] ends, the calls it made cost at most [n]. *)
Definition costs (w : event → nat) (n : nat) {A} (m : M A) : Prop :=
  ∀ s, ∃ new, trace (m s).2 = trace s ++ new ∧ (trace_price w new ≤ n)%nat.

(** [once u n m]: the action [m] pays for at most one client.  With a
    client it pays nothing and keeps it; without one it pays at most [n],
    and when it has paid and returns, the client is there. *)
Definition once (u : event → nat) (n : nat) {A} (m : M A) : Prop :=
  ∀ s, ∃ new, trace (m s).2 = trace s ++ new ∧
    if client s
    then client (m s).2 = true ∧ trace_price u new = 0%nat
    else trace_price u new = 0%nat ∨
         ((trace_price u new ≤ n)%nat ∧
          ∀ a, (m s).1 = Ok a → client (m s).2 = true).

(** A store that already holds one session. *)
Definition one_session_state : state :=
  State (Store ∅ ∅ [] ∅ {[ 1 := new_session_row 0 "autonomous" ]}) false [].

(** ** The cron script [claude_learning_cron.py] *)





(** A topic choice that names the pending request 7. *)
Definition named_request_reply : string :=
  "{" +:+ quoted "topic" +:+ ": " +:+ quoted "Rocq" +:+ ", "
  +:+ quoted "research_id" +:+ ": 7}".

Definition named_request_world : Env :=
  world (λ _, Ok [named_request_reply]) (Ok []) (Ok EmptyString).

Definition pending_request : request :=
  new_request_row (PStr "Rocq") (PList []) PNone PNone "high" PNone PNone.

Definition pending_request_state : state :=
  State (Store ∅ {[ 7 := pending_request ]} [] ∅ ∅) false [].

(* ===================================================================== *)
(** * Part II: properties                                                 *)
(* ===================================================================== *)

(** ** Text: stripping *)

Section TextFacts.
Import Text.

Lemma lstrip_no_leading_space s : leading_space (lstrip s) = false.
Proof.
  induction s as [|c s IH]; simpl; [done|].
  destruct (isspace c) eqn:Hc; [done|]. simpl. by rewrite Hc.
Qed.

Lemma rstrip_no_trailing_space s : trailing_space (rstrip s) = false.
Proof.
  induction s as [|c s IH]; simpl; [done|].
  destruct (rstrip s) as [|d r] eqn:Hr.
  - destruct (isspace c) eqn:Hc; simpl; [done|]. by rewrite Hc.
  - simpl in *. done.
Qed.

Lemma rstrip_keeps_head s : leading_space s = false → leading_space (rstrip s) = false.
Proof.
  destruct s as [|c s]; simpl; [done|]. intros Hc.
  destruct (rstrip s); [by rewrite Hc|done].
Qed.

Lemma strip_trimmed s : trimmed (strip s).
Proof.
  split.
  - apply rstrip_keeps_head, lstrip_no_leading_space.
  - apply rstrip_no_trailing_space.
Qed.

Lemma not_blank_of_head s :
  is_empty s = false → leading_space s = false → blank s = false.
Proof. destruct s as [|c s]; simpl; [done|]. by intros _ ->. Qed.

Lemma strip_line_ok l : is_empty (strip l) = false → line_ok (strip l).
Proof.
  intros Hne. pose proof (strip_trimmed l) as Ht.
  split; [done|]. split; [|done].
  apply not_blank_of_head; [done|apply Ht].
Qed.

Lemma has_char_lstrip a s : has_char a s = false → has_char a (lstrip s) = false.
Proof.
  induction s as [|c s IH]; simpl; [done|].
  destruct (Ascii.eqb a c) eqn:Hac; [done|]. intros H.
  destruct (isspace c); [auto|]. simpl. by rewrite Hac.
Qed.

Lemma has_char_rstrip a s : has_char a s = false → has_char a (rstrip s) = false.
Proof.
  induction s as [|c s IH]; simpl; [done|].
  destruct (Ascii.eqb a c) eqn:Hac; [done|]. intros H.
  specialize (IH H).
  destruct (rstrip s) as [|d r].
  - destruct (isspace c); simpl; [done|]. by rewrite Hac.
  - simpl. rewrite Hac. exact IH.
Qed.

Lemma has_char_strip a s : has_char a s = false → has_char a (strip s) = false.
Proof. intros H. by apply has_char_rstrip, has_char_lstrip. Qed.

(** ** Text: splitting on one character and joining *)

Lemma split_one_cons c a s :
  split (String c EmptyString) (String a s) =
  if Ascii.eqb c a then EmptyString :: split (String c EmptyString) s
  else cons_head a (split (String c EmptyString) s).
Proof.
  unfold split. simpl.
  destruct (ascii_dec c a) as [->|Hne].
  - rewrite Ascii.eqb_refl. by destruct s.
  - apply Ascii.eqb_neq in Hne. by rewrite Hne.
Qed.

Lemma split_one_nonempty c s : split (String c EmptyString) s ≠ [].
Proof.
  destruct s as [|a s]; [done|]. rewrite split_one_cons.
  destruct (Ascii.eqb c a); [done|].
  by destruct (split (String c EmptyString) s).
Qed.

Lemma split_one_pieces c s :
  Forall (λ p, has_char c p = false) (split (String c EmptyString) s).
Proof.
  induction s as [|a s IH]; [by repeat constructor|].
  rewrite split_one_cons. destruct (Ascii.eqb c a) eqn:Hca.
  - by constructor.
  - destruct (split (String c EmptyString) s) as [|h t]; simpl.
    + repeat constructor. simpl. by rewrite Hca.
    + inversion IH; subst. constructor; [|done]. simpl. by rewrite Hca.
Qed.

Lemma split_one_whole c s :
  has_char c s = false → split (String c EmptyString) s = [s].
Proof.
  induction s as [|a s IH]; [done|]. intros H. simpl in H.
  destruct (Ascii.eqb c a) eqn:Hca; [done|].
  rewrite split_one_cons, Hca, IH; done.
Qed.

Lemma split_one_app c x rest :
  has_char c x = false →
  split (String c EmptyString) (x +:+ String c rest) =
  x :: split (String c EmptyString) rest.
Proof.
  induction x as [|a x IH]; intros H.
  - change (EmptyString +:+ String c rest) with (String c rest).
    by rewrite split_one_cons, Ascii.eqb_refl.
  - simpl in H. destruct (Ascii.eqb c a) eqn:Hca; [done|].
    change (String a x +:+ String c rest) with (String a (x +:+ String c rest)).
    rewrite split_one_cons, Hca, IH; done.
Qed.

Lemma split_join c (l : list string) :
  l ≠ [] → Forall (λ p, has_char c p = false) l →
  split (String c EmptyString) (join (String c EmptyString) l) = l.
Proof.
  induction l as [|x l IH]; [done|]. intros _ Hall.
  inversion Hall as [|? ? Hx Hl]; subst.
  destruct l as [|y l].
  - simpl. by apply split_one_whole.
  - change (join (String c EmptyString) (x :: y :: l))
      with (x +:+ String c (join (String c EmptyString) (y :: l))).
    rewrite split_one_app by done. f_equal. by apply IH.
Qed.

(** ** Text: the cleaned page and its truncation *)

Lemma clean_lines_ok text :
  Forall (λ l, line_ok l ∧ has_char newline l = false) (clean_lines text).
Proof.
  unfold clean_lines. apply Forall_fmap, Forall_forall. intros l Hl.
  apply list_elem_of_filter in Hl as [Hne Hin]. simpl. split.
  - by apply strip_line_ok.
  - apply has_char_strip.
    pose proof (split_one_pieces newline text) as Hall.
    rewrite Forall_forall in Hall. by apply Hall.
Qed.

Lemma clean_text_only_clean_lines text : only_clean_lines (clean_text text).
Proof.
  unfold only_clean_lines, clean_text.
  pose proof (clean_lines_ok text) as Hall.
  destruct (clean_lines text) as [|x l] eqn:Hcl; [by left|right].
  unfold nl. rewrite split_join; [|done|].
  - eapply Forall_impl; [exact Hall|]. by intros ? [? _].
  - eapply Forall_impl; [exact Hall|]. by intros ? [_ ?].
Qed.

Lemma take_prefix n s : is_prefix_of (take n s) s.
Proof.
  revert s. induction n as [|n IH]; intros s.
  - by exists s.
  - destruct s as [|c s]; [by exists EmptyString|].
    destruct (IH s) as [rest Hrest]. exists rest.
    change (String c s = String c (take n s +:+ rest)). by f_equal.
Qed.

Lemma take_length n s : String.length (take n s) = Nat.min n (String.length s).
Proof.
  revert s. induction n as [|n IH]; intros s; [done|].
  destruct s as [|c s]; [done|]. simpl. by rewrite IH.
Qed.

Lemma take_all n s : (String.length s ≤ n)%nat → take n s = s.
Proof.
  revert s. induction n as [|n IH]; intros [|c s] H; simpl in *; try done; try lia.
  rewrite IH; [done|lia].
Qed.

Lemma app_empty_r s : s +:+ EmptyString = s.
Proof.
  induction s as [|c s IH]; [done|].
  change (String c (s +:+ EmptyString) = String c s). by f_equal.
Qed.

Lemma truncate_prefix m t : is_prefix_of (truncate m t) t.
Proof.
  unfold truncate, slice_to.
  destruct (Z.of_nat (String.length t) >? m)%Z.
  - destruct (0 <=? m)%Z; apply take_prefix.
  - exists EmptyString. by rewrite app_empty_r.
Qed.

Lemma truncate_length m t :
  (0 ≤ m)%Z → (Z.of_nat (String.length (truncate m t)) ≤ m)%Z.
Proof.
  intros Hm. unfold truncate, slice_to.
  destruct (Z.of_nat (String.length t) >? m)%Z eqn:Hgt; [|lia].
  destruct (0 <=? m)%Z eqn:H0; [|lia].
  rewrite take_length. lia.
Qed.

Lemma truncate_whole m t :
  (Z.of_nat (String.length t) ≤ m)%Z → truncate m t = t.
Proof.
  intros Hm. unfold truncate.
  destruct (Z.of_nat (String.length t) >? m)%Z eqn:Hgt; [lia|done].
Qed.

End TextFacts.

(** ** [fetch_page_content] *)

(** C8 (counterexample).  With a page whose cleaned text is "hello world",
    a bound of 6 cuts the line after the space, so the returned text ends in
    whitespace; and a negative bound of -1 drops the last character, leaving
    a text longer than the bound. *)
Lemma fetch_page_content_cuts_mid_line :
  let E := world (λ _, Ok []) (Ok []) (Ok "hello world") in
  fetch_page_content E "http://example.org" 6 initial_state
    = (Ok (Some "hello "), emit (EvFetch "http://example.org") initial_state)
  ∧ ¬ only_clean_lines "hello "
  ∧ fetch_page_content E "http://example.org" (-1) initial_state
    = (Ok (Some "hello worl"), emit (EvFetch "http://example.org") initial_state)
  ∧ ¬ (Z.of_nat (String.length "hello worl") ≤ -1)%Z.
Proof.
  split; [reflexivity|]. split; [|split; [reflexivity|simpl; lia]].
  intros [H|H]; [discriminate|].
  vm_compute in H. inversion H as [|? ? Hline _]; subst.
  destruct Hline as (_ & _ & _ & Htrail). discriminate.
Qed.

(** C8 (amended).  [fetch_page_content] always returns: [None] when the
    request, the status check or the conversion raises, and otherwise a
    prefix of the cleaned text.  The cleaned text consists only of non-blank
    stripped lines; what is returned has at most [max_length] characters
    when [max_length] is not negative, and is the whole cleaned text when
    that fits the bound. *)
Theorem fetch_page_content_total E url max_length s :
  ∃ r, fetch_page_content E url max_length s = (Ok r, emit (EvFetch url) s) ∧
    match http_get E (clock s) url with
    | Raise _ => r = None
    | Ok body =>
        match html_to_text E body with
        | Raise _ => r = None
        | Ok text =>
            only_clean_lines (clean_text text) ∧
            ∃ t, r = Some t ∧ is_prefix_of t (clean_text text) ∧
              ((0 ≤ max_length)%Z → (Z.of_nat (String.length t) ≤ max_length)%Z) ∧
              ((Z.of_nat (String.length (clean_text text)) ≤ max_length)%Z →
               t = clean_text text)
        end
    end.
Proof.
  unfold fetch_page_content.
  destruct (http_get E (clock s) url) as [body|e]; [|by eexists].
  destruct (html_to_text E body) as [text|e]; [|by eexists].
  eexists. split; [reflexivity|]. split; [apply clean_text_only_clean_lines|].
  eexists. split; [reflexivity|]. split; [apply truncate_prefix|].
  split; [apply truncate_length|apply truncate_whole].
Qed.

(** ** [search_web] *)

Lemma search_hit_keys (r : gmap string string) :
  dom (search_hit r) = ({["url"; "title"; "snippet"]} : gset string).
Proof. unfold search_hit. rewrite !dom_insert_L, dom_empty_L. set_solver. Qed.

Lemma search_hit_url (r : gmap string string) :
  search_hit r !! "url" =
  Some (match r !! "href" with
        | Some v => v
        | None => match r !! "link" with Some v => v | None => EmptyString end
        end).
Proof. unfold search_hit, dget. by simplify_map_eq. Qed.

Lemma search_hit_title (r : gmap string string) :
  search_hit r !! "title" =
  Some (match r !! "title" with Some v => v | None => EmptyString end).
Proof. unfold search_hit, dget. by simplify_map_eq. Qed.

Lemma search_hit_snippet (r : gmap string string) :
  search_hit r !! "snippet" =
  Some (match r !! "body" with
        | Some v => v
        | None => match r !! "snippet" with Some v => v | None => EmptyString end
        end).
Proof. unfold search_hit, dget. by simplify_map_eq. Qed.

(** C9 (amended).  [search_web] always returns: the empty list when the
    provider raises, and otherwise one dictionary per provider row, in the
    provider's order, with exactly the keys url, title and snippet, the url
    read from 'href' or else 'link' and the snippet from 'body' or else
    'snippet'.  [max_results] is handed to the provider and not enforced:
    the list is as long as the provider's answer. *)
Theorem search_web_total E query max_results s :
  ∃ hits, search_web E query max_results s
            = (Ok hits, emit (EvSearch query max_results) s) ∧
    match ddgs_text E (clock s) query max_results with
    | Raise _ => hits = []
    | Ok rows =>
        hits = search_hit <$> rows ∧
        length hits = length rows ∧
        Forall2 (λ (r h : gmap string string),
                   dom h = ({["url"; "title"; "snippet"]} : gset string) ∧
                   h !! "url" = Some (dget r "href" (dget r "link" EmptyString)) ∧
                   h !! "title" = Some (dget r "title" EmptyString) ∧
                   h !! "snippet" = Some (dget r "body" (dget r "snippet" EmptyString)))
                rows hits
    end.
Proof.
  unfold search_web.
  destruct (ddgs_text E (clock s) query max_results) as [rows|e] eqn:Hp.
  - eexists. split; [reflexivity|]. split; [done|]. split.
    + by rewrite length_fmap.
    + apply Forall2_fmap_r, Forall_Forall2_diag, Forall_forall.
      intros r _. split; [apply search_hit_keys|].
      split; [apply search_hit_url|]. split; [apply search_hit_title|apply search_hit_snippet].
  - by eexists.
Qed.

(** C9 (counterexample).  A provider that answers with five rows when asked
    for three: [search_web] returns all five. *)
Lemma search_web_returns_five :
  let E := world (λ _, Ok []) (Ok (replicate 5 provider_row)) (Ok EmptyString) in
  (search_web E (PStr "rocq") 3 initial_state).1
    = Ok (replicate 5 (search_hit provider_row)) ∧
  (3 < length (replicate 5 (search_hit provider_row)))%nat.
Proof. cbv zeta. split; [reflexivity|]. rewrite length_replicate. lia. Qed.

(** ** The monad: how a sequence returns or raises *)

Lemma bind_ok_inv {A B} (m : M A) (k : A → M B) s b s' :
  bind m k s = (Ok b, s') → ∃ a s1, m s = (Ok a, s1) ∧ k a s1 = (Ok b, s').
Proof.
  unfold bind. destruct (m s) as [[a|e] s1]; [eauto|discriminate].
Qed.

Lemma bind_raise_inv {A B} (m : M A) (k : A → M B) s e s' :
  bind m k s = (Raise e, s') →
  m s = (Raise e, s') ∨ ∃ a s1, m s = (Ok a, s1) ∧ k a s1 = (Raise e, s').
Proof.
  unfold bind. destruct (m s) as [[a|e1] s1]; [eauto|].
  intros [= -> ->]. by left.
Qed.

Lemma bind_ok {A B} (m : M A) (k : A → M B) s a s1 :
  m s = (Ok a, s1) → bind m k s = k a s1.
Proof. unfold bind. by intros ->. Qed.

Lemma bind_raise {A B} (m : M A) (k : A → M B) s e s1 :
  m s = (Raise e, s1) → bind m k s = (Raise e, s1).
Proof. unfold bind. by intros ->. Qed.

Lemma lift_ok_inv {A} (r : result A) s a s' :
  lift r s = (Ok a, s') → r = Ok a ∧ s' = s.
Proof. unfold lift. by intros [= -> ->]. Qed.

Lemma ret_inv {A} (a : A) s r s' : ret a s = (r, s') → r = Ok a ∧ s' = s.
Proof. unfold ret. by intros [= <- <-]. Qed.

(** ** Parsing an LLM reply *)

Section Replies.
Context (E : Env).

(** Extracting the payload raises nothing but [IndexError]. *)
Lemma reply_payload_raises response e :
  reply_payload response = Raise e → ∃ m, e = IndexError m.
Proof.
  unfold reply_payload, extract_payload, item, rbind.
  repeat match goal with
         | |- context [if ?b then _ else _] => destruct b
         | |- context [match ?l !! ?i with _ => _ end] => destruct (l !! i)
         end;
    intros [= <-]; eauto.
Qed.

(** The parser leaves the state as it is, however it ends. *)
Lemma parse_reply_state response fallback s :
  (parse_reply E response fallback s).2 = s.
Proof.
  unfold parse_reply. by destruct (decode_reply E response) as [v|[]].
Qed.

Lemma parse_reply_nothing response fallback s e :
  reply_payload response = Raise e →
  parse_reply E response fallback s = (Ok fallback, s).
Proof.
  intros Hp. unfold parse_reply, decode_reply. rewrite Hp. simpl.
  by apply reply_payload_raises in Hp as [m ->].
Qed.

Lemma parse_reply_rejected response fallback s p m :
  reply_payload response = Ok p →
  json_loads E p = Raise (JSONDecodeError m) →
  parse_reply E response fallback s = (Ok fallback, s).
Proof.
  intros Hp Hbad. unfold parse_reply, decode_reply. rewrite Hp. simpl. by rewrite Hbad.
Qed.

Lemma parse_reply_decoded response fallback s p v :
  reply_payload response = Ok p →
  json_loads E p = Ok v →
  parse_reply E response fallback s = (Ok v, s).
Proof.
  intros Hp Hv. unfold parse_reply, decode_reply. rewrite Hp. simpl. by rewrite Hv.
Qed.

Lemma parse_reply_escapes response fallback s p e :
  reply_payload response = Ok p →
  json_loads E p = Raise e →
  (∀ m, e ≠ JSONDecodeError m) → (∀ m, e ≠ IndexError m) →
  parse_reply E response fallback s = (Raise e, s).
Proof.
  intros Hp He Hj Hi. unfold parse_reply, decode_reply. rewrite Hp. simpl. rewrite He.
  destruct e; try done; [by destruct (Hj msg)|by destruct (Hi msg)].
Qed.

(** C6 (amended).  [choose_learning_topic] returns the one fixed fallback
    choice (the fallback topic and exactly the two canned queries), without
    raising, on the two exceptions its handler names: when the reply has
    nothing to extract, and when [json.loads] rejects the extracted payload
    with [JSONDecodeError].  A payload that [json.loads] reads is returned
    as read, and any other exception of [json.loads] reaches the caller. *)
Theorem choose_learning_topic_fallback s response s1
    (Hasked : ask_for_topic E s = (Ok response, s1)) :
  (∀ e, reply_payload response = Raise e →
        choose_learning_topic E s = (Ok fallback_topic_choice, s1)) ∧
  (∀ p m, reply_payload response = Ok p →
          json_loads E p = Raise (JSONDecodeError m) →
          choose_learning_topic E s = (Ok fallback_topic_choice, s1)) ∧
  (∀ p v, reply_payload response = Ok p → json_loads E p = Ok v →
          choose_learning_topic E s = (Ok v, s1)) ∧
  (∀ p e, reply_payload response = Ok p → json_loads E p = Raise e →
          (∀ m, e ≠ JSONDecodeError m) → (∀ m, e ≠ IndexError m) →
          choose_learning_topic E s = (Raise e, s1)) ∧
  ∃ d, fallback_topic_choice = PDict d ∧
    d !! "topic" = Some (PStr "Python best practices 2026") ∧
    d !! "search_queries" =
      Some (PList [PStr "Python best practices 2026";
                   PStr "modern Python development patterns"]).
Proof.
  unfold choose_learning_topic. rewrite (bind_ok _ _ _ _ _ Hasked).
  split; [intros e; apply parse_reply_nothing|].
  split; [intros p m; apply parse_reply_rejected|].
  split; [intros p v; apply parse_reply_decoded|].
  split; [intros p e; apply parse_reply_escapes|].
  eexists. split; [reflexivity|]. split; reflexivity.
Qed.

(** C7 (amended).  [reflect_on_learning] returns the fixed fallback
    reflection (confidence "low", no insights, no questions), without
    raising, on the two exceptions its handler names: when the reply has
    nothing to extract, and when [json.loads] rejects the extracted payload
    with [JSONDecodeError].  A payload that [json.loads] reads is returned
    as read, and any other exception of [json.loads] reaches the caller. *)
Theorem reflect_on_learning_fallback topic results hoping s response s1
    (Hasked : ask_for_reflection E s = (Ok response, s1)) :
  (∀ e, reply_payload response = Raise e →
        reflect_on_learning E topic results hoping s = (Ok fallback_reflection, s1)) ∧
  (∀ p m, reply_payload response = Ok p →
          json_loads E p = Raise (JSONDecodeError m) →
          reflect_on_learning E topic results hoping s = (Ok fallback_reflection, s1)) ∧
  (∀ p v, reply_payload response = Ok p → json_loads E p = Ok v →
          reflect_on_learning E topic results hoping s = (Ok v, s1)) ∧
  (∀ p e, reply_payload response = Ok p → json_loads E p = Raise e →
          (∀ m, e ≠ JSONDecodeError m) → (∀ m, e ≠ IndexError m) →
          reflect_on_learning E topic results hoping s = (Raise e, s1)) ∧
  ∃ d, fallback_reflection = PDict d ∧
    d !! "confidence" = Some (PStr "low") ∧
    d !! "key_insights" = Some (PList []) ∧
    d !! "new_questions" = Some (PList []).
Proof.
  unfold reflect_on_learning. rewrite (bind_ok _ _ _ _ _ Hasked).
  split; [intros e; apply parse_reply_nothing|].
  split; [intros p m; apply parse_reply_rejected|].
  split; [intros p v; apply parse_reply_decoded|].
  split; [intros p e; apply parse_reply_escapes|].
  eexists. split; [reflexivity|]. repeat split; reflexivity.
Qed.

End Replies.

(** A fenced reply whose payload has unquoted keys. *)
Lemma choose_learning_topic_fallback_witness :
  let E := world (λ _, Ok [fenced_reply]) (Ok []) (Ok EmptyString) in
  reply_payload [fenced_reply] = Ok "{topic: Rust, search_queries: [rust]}" ∧
  (choose_learning_topic E initial_state).1 = Ok fallback_topic_choice.
Proof.
  cbv zeta. split; [reflexivity|].
  destruct (choose_learning_topic_fallback
              (world (λ _, Ok [fenced_reply]) (Ok []) (Ok EmptyString))
              initial_state [fenced_reply]
              (ask_for_topic (world (λ _, Ok [fenced_reply]) (Ok []) (Ok EmptyString))
                 initial_state).2) as (_ & Hrejected & _).
  - reflexivity.
  - by rewrite (Hrejected "{topic: Rust, search_queries: [rust]}" "Expecting value"
                  eq_refl eq_refl).
Defined.

(** A reply in plain prose. *)
Lemma reflect_on_learning_fallback_witness :
  let E := world (λ _, Ok [prose_reply]) (Ok []) (Ok EmptyString) in
  (reflect_on_learning E (PStr "Rust") [] PNone initial_state).1
    = Ok fallback_reflection.
Proof.
  cbv zeta.
  destruct (reflect_on_learning_fallback
              (world (λ _, Ok [prose_reply]) (Ok []) (Ok EmptyString))
              (PStr "Rust") [] PNone initial_state [prose_reply]
              (ask_for_reflection (world (λ _, Ok [prose_reply]) (Ok []) (Ok EmptyString))
                 initial_state).2) as (_ & Hrejected & _).
  - reflexivity.
  - by rewrite (Hrejected prose_reply "Expecting value" eq_refl eq_refl).
Defined.

(** C6 (counterexample).  The payload [NaN] is not a JSON text, yet
    [json.loads] reads it: the topic chooser returns the float it stands
    for, not the fallback choice. *)
Lemma nan_reply_is_no_fallback :
  let E := world (λ _, Ok ["NaN"]) (Ok []) (Ok EmptyString) in
  reply_payload ["NaN"] = Ok "NaN" ∧
  Json.rfc8259 "NaN" = false ∧
  (choose_learning_topic E initial_state).1 = Ok (PFloat NaN).
Proof. cbv zeta. split; [reflexivity|]. split; reflexivity. Qed.

(** C7 (counterexample).  The fenced payload [-Infinity] is not a JSON
    text, yet [json.loads] reads it: the reflector returns the float it
    stands for, not the fallback reflection. *)
Lemma infinity_reply_is_no_fallback :
  let E := world (λ _, Ok ["```json -Infinity ```"]) (Ok []) (Ok EmptyString) in
  reply_payload ["```json -Infinity ```"] = Ok "-Infinity" ∧
  Json.rfc8259 "-Infinity" = false ∧
  (reflect_on_learning E (PStr "Rust") [] PNone initial_state).1
    = Ok (PFloat NegInfinity).
Proof. cbv zeta. split; [reflexivity|]. split; reflexivity. Qed.

(** ** [update_interest_insights] *)

(** The statement on a row whose [insights_gained] is an array, for a list
    of new insights. *)
Lemma sql_update_interest_array now ins q n r old :
  insights_gained r = PList old →
  sql_update_interest now (PList ins) q n r =
  Ok (Interest (int_topic r) (why_interested r) (sparked_by r) (int_priority r)
        (if String.eqb (int_status r) "curious" then "exploring"
         else if (Z.of_nat (length old) + n >? 10)%Z then "deepening"
         else int_status r)
        (PList (old ++ ins))
        (match q with Some v => v | None => remaining_questions r end)
        (int_tags r) (Some now)).
Proof.
  intros Hold. unfold sql_update_interest, interest_status_case.
  rewrite Hold. simpl. by destruct (String.eqb (int_status r) "curious").
Qed.

(** The row [add_learning_interest] creates. *)
Lemma add_learning_interest_ok_inv E topic why sparked priority tags s id s' :
  add_learning_interest E topic why sparked priority tags s = (Ok id, s') →
  learning_interests (db s') !! id
  = Some (new_interest_row topic why sparked priority (or_empty tags)).
Proof.
  unfold add_learning_interest, sql.
  destruct (db_fault E (clock s)); [done|]. simpl. intros [= <- <-]. simpl.
  apply lookup_insert_eq.
Qed.

(** An accepted call on a row whose insights are an array. *)
Lemma update_interest_insights_ok_inv E id r old ins qs s s' :
  learning_interests (db s) !! id = Some r →
  insights_gained r = PList old →
  update_interest_insights E (PInt id) (PList ins) qs s = (Ok tt, s') →
  ∃ r', learning_interests (db s') !! id = Some r' ∧
    int_status r'
      = (if String.eqb (int_status r) "curious" then "exploring"
         else if (Z.of_nat (length old) + Z.of_nat (length ins) >? 10)%Z
              then "deepening" else int_status r) ∧
    insights_gained r' = PList (old ++ ins).
Proof.
  intros Hrow Hold. unfold update_interest_insights, bind, lift, sql. simpl.
  destruct (db_fault E (clock s)); [done|]. simpl. rewrite Hrow.
  rewrite (sql_update_interest_array _ _ _ _ _ old Hold). simpl.
  intros [= <-]. simpl. eexists. split; [apply lookup_insert_eq|]. done.
Qed.

(** Whatever the call (any id, any arguments) and whatever its outcome, an
    updated interest stays one, a "deepening" interest stays "deepening",
    and a call that raises leaves the row as it was. *)
Lemma update_interest_insights_keeps E iid ins qs s id r :
  learning_interests (db s) !! id = Some r →
  explored r →
  ∃ r', learning_interests (db (update_interest_insights E iid ins qs s).2) !! id
          = Some r' ∧
    explored r' ∧
    (int_status r = "deepening" → int_status r' = "deepening") ∧
    (∀ e, (update_interest_insights E iid ins qs s).1 = Raise e → r' = r).
Proof.
  intros Hrow Hex.
  assert (∀ (x : result unit) d,
            learning_interests d = learning_interests (db s) →
            ∃ r', learning_interests d !! id = Some r' ∧ explored r' ∧
                  (int_status r = "deepening" → int_status r' = "deepening") ∧
                  (∀ e, x = Raise e → r' = r)) as Hsame.
  { intros x d ->. by exists r. }
  unfold update_interest_insights, bind, lift.
  destruct (py_len ins) as [n|e0]; simpl; [|by apply Hsame].
  unfold sql. destruct (db_fault E (clock s)); simpl; [by apply Hsame|].
  destruct (row_key E iid) as [[id'|]|e0]; simpl; [| |by apply Hsame].
  2:{ by apply Hsame. }
  destruct (learning_interests (db s) !! id') as [r0|] eqn:Hrow0; simpl.
  2:{ by apply Hsame. }
  destruct (sql_update_interest _ _ _ _ r0) as [r1|e0] eqn:Hupd; simpl;
    [|by apply Hsame].
  destruct (decide (id' = id)) as [->|Hne].
  2:{ exists r. rewrite lookup_insert_ne by done. by rewrite Hrow. }
  rewrite Hrow in Hrow0. injection Hrow0 as <-.
  exists r1. rewrite lookup_insert_eq. split; [done|].
  destruct Hex as [Hst [l Hl]].
  unfold sql_update_interest, interest_status_case in Hupd.
  rewrite Hl in Hupd. simpl in Hupd.
  assert (String.eqb (int_status r) "curious" = false) as Hnc
    by (destruct Hst as [-> | ->]; reflexivity).
  rewrite Hnc in Hupd. simpl in Hupd. injection Hupd as <-. simpl.
  split; [|split; [|done]].
  - split; [|by eexists].
    destruct (_ >? _)%Z; [by right|exact Hst].
  - intros ->. by destruct (_ >? _)%Z.
Qed.

Lemma updates_run_keeps E calls s id r :
  learning_interests (db s) !! id = Some r →
  explored r →
  ∃ r', learning_interests (db (updates_run E calls s)) !! id = Some r' ∧
    explored r' ∧
    (int_status r = "deepening" → int_status r' = "deepening").
Proof.
  revert s r. induction calls as [|[[iid ins] qs] calls IH]; intros s r Hrow Hex.
  - by exists r.
  - destruct (update_interest_insights_keeps E iid ins qs s id r Hrow Hex)
      as (r1 & Hrow1 & Hex1 & Hdeep1 & _).
    destruct (IH _ r1 Hrow1 Hex1) as (r' & Hrow' & Hex' & Hdeep').
    exists r'. split; [exact Hrow'|]. split; [exact Hex'|]. auto.
Qed.

(** C4.  An interest that [add_learning_interest] created is "curious".
    The first accepted [update_interest_insights] on it makes it
    "exploring".  After any further calls of [update_interest_insights]
    (on any id, with any arguments, accepted or not) it is "exploring" or
    "deepening"; one more accepted call makes it "deepening" when the
    insights it holds plus those supplied exceed 10 and leaves the status
    as it is otherwise, and a call that raises leaves the row as it was.
    Once "deepening", the interest stays "deepening" whatever calls follow. *)
Theorem interest_status_progression E topic why sparked priority tags s0 id s1
    first questions s2 later next next_questions
    (Hadded : add_learning_interest E topic why sparked priority tags s0 = (Ok id, s1))
    (Hfirst : update_interest_insights E (PInt id) (PList first) questions s1
              = (Ok tt, s2)) :
  let sk := updates_run E later s2 in
  let out := update_interest_insights E (PInt id) (PList next) next_questions sk in
  ∃ r0 r1 rk rk',
    learning_interests (db s1) !! id = Some r0 ∧ int_status r0 = "curious" ∧
    learning_interests (db s2) !! id = Some r1 ∧ int_status r1 = "exploring" ∧
    insights_gained r1 = PList first ∧
    learning_interests (db sk) !! id = Some rk ∧
    (int_status rk = "exploring" ∨ int_status rk = "deepening") ∧
    learning_interests (db out.2) !! id = Some rk' ∧
    (out.1 = Ok tt →
     int_status rk'
       = (if (insight_count rk + Z.of_nat (length next) >? 10)%Z
          then "deepening" else int_status rk)) ∧
    (∀ e, out.1 = Raise e → rk' = rk) ∧
    (int_status rk = "deepening" → int_status rk' = "deepening") ∧
    ∀ more, ∃ r,
      learning_interests (db (updates_run E more out.2)) !! id = Some r ∧
      (int_status r = "exploring" ∨ int_status r = "deepening") ∧
      (int_status rk' = "deepening" → int_status r = "deepening").
Proof.
  intros sk out.
  pose proof (add_learning_interest_ok_inv _ _ _ _ _ _ _ _ _ Hadded) as Hrow0.
  destruct (update_interest_insights_ok_inv E id _ [] first questions s1 s2
              Hrow0 eq_refl Hfirst) as (r1 & Hrow1 & Hst1 & Hins1).
  simpl in Hst1, Hins1.
  assert (explored r1) as Hex1 by (split; [by left|by eexists]).
  destruct (updates_run_keeps E later s2 id r1 Hrow1 Hex1)
    as (rk & Hrowk & Hexk & _). fold sk in Hrowk.
  destruct (update_interest_insights_keeps E (PInt id) (PList next) next_questions
              sk id rk Hrowk Hexk) as (rk' & Hrowk' & Hexk' & Hdeep & Hraise).
  fold out in Hrowk', Hraise.
  eexists _, r1, rk, rk'.
  split; [exact Hrow0|]. split; [done|]. split; [exact Hrow1|]. split; [exact Hst1|].
  split; [exact Hins1|]. split; [exact Hrowk|]. split; [apply Hexk|].
  split; [exact Hrowk'|]. split; [|split; [exact Hraise|split; [exact Hdeep|]]].
  - intros Hok. destruct Hexk as [Hstk [l Hl]].
    destruct (update_interest_insights_ok_inv E id rk l next next_questions sk out.2
                Hrowk Hl) as (r' & Hrow' & Hst' & _).
    { rewrite <- Hok. fold out. by destruct out. }
    rewrite Hrowk' in Hrow'. injection Hrow' as <-.
    rewrite Hst'. unfold insight_count. rewrite Hl.
    by destruct Hstk as [-> | ->].
  - intros more.
    destruct (updates_run_keeps E more out.2 id rk' Hrowk' Hexk')
      as (r & Hr & [Hst _] & Hd).
    by exists r.
Qed.

(** A new interest updated with six, then three, then two insights: the
    third call takes the count past 10. *)
Lemma interest_status_progression_witness :
  let E := world (λ _, Ok []) (Ok []) (Ok EmptyString) in
  let six := PList (PStr <$> ["a"; "b"; "c"; "d"; "e"; "f"]) in
  let three := PList (PStr <$> ["g"; "h"; "i"]) in
  let s1 := (add_learning_interest E (PStr "Rocq") (PStr "proofs") None 5 PNone
               initial_state).2 in
  let s2 := (update_interest_insights E (PInt 1) six PNone s1).2 in
  let s3 := updates_run E [(PInt 1, three, PNone)] s2 in
  let s4 := (update_interest_insights E (PInt 1) (PList [PStr "j"; PStr "k"]) PNone
               s3).2 in
  int_status <$> learning_interests (db s1) !! 1%Z = Some "curious" ∧
  int_status <$> learning_interests (db s2) !! 1%Z = Some "exploring" ∧
  int_status <$> learning_interests (db s3) !! 1%Z = Some "exploring" ∧
  int_status <$> learning_interests (db s4) !! 1%Z = Some "deepening".
Proof.
  cbv zeta.
  set (E := world (λ _, Ok []) (Ok []) (Ok EmptyString)).
  set (s1 := (add_learning_interest E (PStr "Rocq") (PStr "proofs") None 5 PNone
                initial_state).2).
  set (s2 := (update_interest_insights E (PInt 1)
                (PList (PStr <$> ["a"; "b"; "c"; "d"; "e"; "f"])) PNone s1).2).
  destruct (interest_status_progression E (PStr "Rocq") (PStr "proofs") None 5 PNone
              initial_state 1 s1 (PStr <$> ["a"; "b"; "c"; "d"; "e"; "f"]) PNone s2
              [(PInt 1, PList (PStr <$> ["g"; "h"; "i"]), PNone)]
              [PStr "j"; PStr "k"] PNone eq_refl eq_refl)
    as (r0 & r1 & rk & rk' & H0 & Hs0 & H1 & Hs1 & _ & Hk & _ & Hk' & Hnext & _).
  rewrite H0, H1, Hk, Hk'. simpl. rewrite Hs0, Hs1.
  specialize (Hnext eq_refl).
  assert (rk = Interest (PStr "Rocq") (PStr "proofs") None 5 "exploring"
                 (PList (PStr <$> ["a"; "b"; "c"; "d"; "e"; "f"; "g"; "h"; "i"]))
                 (PList []) (PList []) (Some 2%Z)) as Hrk.
  { vm_compute in Hk. by injection Hk as <-. }
  rewrite Hnext, Hrk. done.
Defined.

(** The adapter call and the row-level reading agree: when the database
    accepts the statement, the addressed row becomes [interest_row_after]. *)
Lemma update_interest_insights_row E s id r old ins qs :
  learning_interests (db s) !! id = Some r →
  insights_gained r = PList old →
  db_fault E (clock s) = None →
  ∃ s', update_interest_insights E (PInt id) (PList ins) qs s = (Ok tt, s') ∧
    learning_interests (db s')
      = <[id := interest_row_after r (InsightsCall (now E (clock s)) ins qs)]>
          (learning_interests (db s)) ∧
    research_requests (db s') = research_requests (db s) ∧
    learning_sessions (db s') = learning_sessions (db s).
Proof.
  intros Hrow Hold Hdb.
  unfold update_interest_insights, bind, lift, sql. simpl.
  rewrite Hdb. simpl. rewrite Hrow. unfold interest_row_after. simpl.
  rewrite (sql_update_interest_array _ _ _ _ _ old Hold). simpl.
  eexists. split; [reflexivity|]. done.
Qed.

(** C5 (counterexample).  An interest is created and updated twice, each
    time with one insight and one question: both insights are kept, but
    only the second question is. *)
Lemma second_questions_replace_first :
  let E := world (λ _, Ok []) (Ok []) (Ok EmptyString) in
  let calls :=
    (id <- add_learning_interest E (PStr "Rocq") (PStr "proofs") None 5 PNone ;;
     update_interest_insights E (PInt id) (PList [PStr "i1"]) (PList [PStr "q1"]) ;;
     update_interest_insights E (PInt id) (PList [PStr "i2"]) (PList [PStr "q2"]) ;;
     ret id)%py in
  match calls initial_state with
  | (Ok id, s) =>
      (λ r, (insights_gained r, remaining_questions r))
        <$> learning_interests (db s) !! id
  | (Raise _, _) => None
  end = Some (PList [PStr "i1"; PStr "i2"], PList [PStr "q2"])
  ∧ PList [PStr "q2"] ≠ PList ([PStr "q1"] ++ [PStr "q2"]).
Proof. split; [reflexivity|discriminate]. Qed.

(** C5 (amended).  On an interest whose insights are an array, an accepted
    [update_interest_insights] appends the supplied insights to
    [insights_gained], sets [last_explored_at] to the current time, and
    replaces [remaining_questions] by the supplied questions when there are
    any, leaving them as they were when none are supplied. *)
Theorem update_interest_insights_effect E s id r old ins qs
    (Hrow : learning_interests (db s) !! id = Some r)
    (Harray : insights_gained r = PList old)
    (Haccepted : db_fault E (clock s) = None) :
  ∃ r' s', update_interest_insights E (PInt id) (PList ins) qs s = (Ok tt, s') ∧
    learning_interests (db s') = <[id := r']> (learning_interests (db s)) ∧
    insights_gained r' = PList (old ++ ins) ∧
    remaining_questions r' = (if truthy qs then qs else remaining_questions r) ∧
    last_explored_at r' = Some (now E (clock s)).
Proof.
  destruct (update_interest_insights_row E s id r old ins qs Hrow Harray Haccepted)
    as (s' & Hrun & Hint & _).
  eexists _, s'. split; [exact Hrun|]. split; [exact Hint|].
  unfold interest_row_after. simpl.
  rewrite (sql_update_interest_array _ _ _ _ _ old Harray). simpl.
  by destruct (truthy qs).
Qed.

(** One more insight and no question for an interest that holds one of
    each. *)
Lemma update_interest_insights_effect_witness :
  let E := world (λ _, Ok []) (Ok []) (Ok EmptyString) in
  ∃ r' s',
    update_interest_insights E (PInt 1) (PList [PStr "i2"]) (PList []) one_interest_state
      = (Ok tt, s') ∧
    learning_interests (db s') !! 1%Z = Some r' ∧
    insights_gained r' = PList [PStr "i1"; PStr "i2"] ∧
    remaining_questions r' = PList [PStr "q1"].
Proof.
  cbv zeta.
  destruct (update_interest_insights_effect
              (world (λ _, Ok []) (Ok []) (Ok EmptyString)) one_interest_state 1
              one_interest [PStr "i1"] [PStr "i2"] (PList []))
    as (r' & s' & Hrun & Hint & Hins & Hq & _); [reflexivity..|].
  exists r', s'. split; [exact Hrun|]. split; [|split; [exact Hins|exact Hq]].
  rewrite Hint. apply lookup_insert_eq.
Defined.

(** ** [perform_research]: what the loop calls *)

Section Research.
Context (E : Env).

Lemma fetch_page_content_returns url max_length s :
  ∃ r, fetch_page_content E url max_length s = (Ok r, emit (EvFetch url) s).
Proof.
  unfold fetch_page_content.
  destruct (http_get E (clock s) url) as [body|e]; [|by eexists].
  destruct (html_to_text E body); by eexists.
Qed.

Lemma search_web_never_raises query max_results s :
  ∃ hits, search_web E query max_results s
            = (Ok hits, emit (EvSearch query max_results) s).
Proof.
  unfold search_web. destruct (ddgs_text E (clock s) query max_results); by eexists.
Qed.

Lemma for_each_cons {A B} (body : B → A → M B) x l acc s :
  for_each body (x :: l) acc s =
  match body acc x s with
  | (Ok acc', s') => for_each body l acc' s'
  | (Raise e, s') => (Raise e, s')
  end.
Proof. done. Qed.

Lemma trace_emit e s : trace (emit e s) = trace s ++ [e].
Proof. done. Qed.

Lemma searches_app t1 t2 : searches (t1 ++ t2) = searches t1 ++ searches t2.
Proof. apply omap_app. Qed.

Lemma fetches_app t1 t2 : fetches (t1 ++ t2) = fetches t1 ++ fetches t2.
Proof. apply omap_app. Qed.

(** One search result: at most one page fetch, no search. *)
Lemma research_one_trace q rid acc hit s :
  ∃ evs, trace (research_one E q rid acc hit s).2 = trace s ++ evs ∧
    searches evs = [] ∧ (length (fetches evs) ≤ 1)%nat.
Proof.
  unfold research_one.
  destruct (Text.is_empty (dget hit "url" EmptyString)).
  { exists []. simpl. rewrite app_nil_r. auto. }
  destruct (fetch_page_content_returns (dget hit "url" EmptyString)
              MAX_CONTENT_PER_PAGE s) as (content & Hfetch).
  rewrite (bind_ok _ _ _ _ _ Hfetch).
  destruct (truthy rid).
  - exists [EvFetch (dget hit "url" EmptyString); EvSql (SaveResearchResult
             (ResearchRow rid q (dget hit "url" EmptyString) (dget hit "title" EmptyString)
                (dget hit "snippet" EmptyString) content "article" PNone))].
    split; [|by auto].
    unfold bind, save_research_result, sql, ret. simpl.
    destruct (db_fault E _); simpl; by rewrite <- app_assoc.
  - exists [EvFetch (dget hit "url" EmptyString)]. split; [|by auto]. done.
Qed.

(** The inner loop: at most one fetch per result it is given. *)
Lemma inner_loop_trace q rid hits acc s :
  ∃ evs, trace (for_each (research_one E q rid) hits acc s).2 = trace s ++ evs ∧
    searches evs = [] ∧ (length (fetches evs) ≤ length hits)%nat.
Proof.
  revert acc s. induction hits as [|hit hits IH]; intros acc s.
  { exists []. simpl. rewrite app_nil_r. auto with lia. }
  destruct (research_one_trace q rid acc hit s) as (ev1 & Ht1 & Hs1 & Hf1).
  rewrite for_each_cons.
  destruct (research_one E q rid acc hit s) as [[acc'|e] s1] eqn:Hone; simpl in Ht1.
  - destruct (IH acc' s1) as (ev2 & Ht2 & Hs2 & Hf2).
    exists (ev1 ++ ev2). rewrite Ht2, Ht1, app_assoc.
    split; [done|]. rewrite searches_app, fetches_app, Hs1, Hs2, length_app.
    split; [done|simpl; lia].
  - exists ev1. simpl. split; [done|]. split; [done|]. simpl. lia.
Qed.

(** One query: its search, then at most two fetches. *)
Lemma research_query_trace rid acc q s :
  ∃ calls,
    trace (research_query E rid acc q s).2
      = trace s ++ EvSearch q MAX_RESULTS_PER_QUERY :: calls ∧
    searches calls = [] ∧ (length (fetches calls) ≤ 2)%nat.
Proof.
  unfold research_query.
  destruct (search_web_never_raises q MAX_RESULTS_PER_QUERY s) as (hits & Hsearch).
  rewrite (bind_ok _ _ _ _ _ Hsearch).
  destruct (inner_loop_trace q rid (take 2 hits) acc
              (emit (EvSearch q MAX_RESULTS_PER_QUERY) s)) as (calls & Ht & Hs & Hf).
  exists calls. rewrite Ht, trace_emit, <- app_assoc. split; [done|].
  split; [done|]. rewrite length_take in Hf. lia.
Qed.

(** The outer loop: one block of calls per query, in order; every query
    is reached unless an exception ends the loop. *)
Lemma outer_loop_trace rid qs acc s :
  ∃ blocks,
    trace (for_each (research_query E rid) qs acc s).2
      = trace s ++ concat (block_events <$> blocks) ∧
    block_query <$> blocks `prefix_of` qs ∧
    Forall (λ b, searches (block_calls b) = [] ∧
                 (length (fetches (block_calls b)) ≤ 2)%nat) blocks ∧
    (∀ r, (for_each (research_query E rid) qs acc s).1 = Ok r →
          block_query <$> blocks = qs).
Proof.
  revert acc s. induction qs as [|q qs IH]; intros acc s.
  { exists []. simpl. rewrite app_nil_r. repeat split; auto. }
  destruct (research_query_trace rid acc q s) as (calls & Ht1 & Hs1 & Hf1).
  rewrite !for_each_cons.
  destruct (research_query E rid acc q s) as [[acc'|e] s1] eqn:Hq; simpl in Ht1.
  - destruct (IH acc' s1) as (blocks & Ht2 & Hpre & Hall & Hok).
    exists (QueryBlock q calls :: blocks). simpl.
    rewrite Ht2, Ht1, <- app_assoc. split; [done|].
    split; [by apply prefix_cons|]. split; [by constructor|].
    intros r Hr. f_equal. by eapply Hok.
  - exists [QueryBlock q calls]. simpl. rewrite app_nil_r.
    split; [done|]. split; [apply prefix_cons, prefix_nil|].
    split; [by constructor|]. done.
Qed.

Lemma blocks_searches blocks :
  Forall (λ b, searches (block_calls b) = [] ∧
               (length (fetches (block_calls b)) ≤ 2)%nat) blocks →
  searches (concat (block_events <$> blocks)) = block_query <$> blocks ∧
  (length (fetches (concat (block_events <$> blocks))) ≤ 2 * length blocks)%nat.
Proof.
  induction 1 as [|b blocks [Hs Hf] _ [IHs IHf]]; [done|].
  change (concat (block_events <$> b :: blocks))
    with (block_events b ++ concat (block_events <$> blocks)).
  rewrite searches_app, fetches_app, length_app, IHs.
  change (searches (block_events b)) with (block_query b :: searches (block_calls b)).
  change (fetches (block_events b)) with (fetches (block_calls b)).
  rewrite Hs. split; [done|]. simpl. lia.
Qed.

End Research.

(** C1.  For every list of queries, whatever the searches return:
    [perform_research] makes its calls query by query, each query's block
    being one search followed by at most two page fetches; the queries
    searched are the first three of the list, in order (all of them when the
    function returns, a prefix of them when an insert raises); so at most 3
    searches and at most 6 page fetches are made. *)
Theorem perform_research_bounded E (queries : list pyval) request_id s :
  ∃ blocks,
    trace (perform_research E (PList queries) request_id s).2
      = trace s ++ concat (block_events <$> blocks) ∧
    Forall (λ b, searches (block_calls b) = [] ∧
                 (length (fetches (block_calls b)) ≤ 2)%nat) blocks ∧
    searches (concat (block_events <$> blocks)) = block_query <$> blocks ∧
    block_query <$> blocks `prefix_of` take 3 queries ∧
    (∀ r, (perform_research E (PList queries) request_id s).1 = Ok r →
          block_query <$> blocks = take 3 queries) ∧
    (length (searches (concat (block_events <$> blocks))) ≤ 3)%nat ∧
    (length (fetches (concat (block_events <$> blocks))) ≤ 6)%nat.
Proof.
  unfold perform_research. simpl.
  destruct (outer_loop_trace E request_id (take MAX_SEARCH_QUERIES queries) [] s)
    as (blocks & Ht & Hpre & Hall & Hok).
  destruct (blocks_searches blocks Hall) as [Hs Hf].
  assert (length blocks ≤ 3)%nat as Hlen.
  { apply prefix_length in Hpre. rewrite length_fmap, length_take in Hpre.
    unfold MAX_SEARCH_QUERIES in Hpre. lia. }
  exists blocks. unfold bind, lift. simpl.
  split; [exact Ht|]. split; [exact Hall|]. split; [exact Hs|].
  split; [exact Hpre|]. split; [exact Hok|].
  split; [rewrite Hs, length_fmap; lia|lia].
Qed.

(** ** Creating the client *)

(** What the key lookup does to the database: nothing, or a connection
    opened, at most one query, and the connection closed. *)
Lemma get_anthropic_client_calls K :
  (get_anthropic_client K).2 = [] ∨
  ∃ queries, (get_anthropic_client K).2 = KeyConnect :: queries ++ [KeyClose] ∧
             (length queries ≤ 1)%nat ∧
             Forall (λ e, ∃ key, e = KeyQuery key) queries.
Proof.
  unfold get_anthropic_client.
  destruct (truthy_str (environ_api_key K)).
  { left. by destruct (environ_api_key K). }
  destruct (connect_fault K); [by left|]. right.
  destruct (secret_lookup K) as [found calls] eqn:Hlookup.
  exists calls. split; [by destruct found as [[k|]|e]|].
  unfold secret_lookup in Hlookup.
  destruct (cursor_fault K); [injection Hlookup as <- <-; auto|].
  destruct (key_file K) as [[text|e]|];
    try (injection Hlookup as <- <-; by auto).
  destruct (Text.is_empty (Text.strip text)); [injection Hlookup as <- <-; by auto|].
  destruct (get_secret K (Text.strip text)); injection Hlookup as <- <-;
    (split; [simpl; lia|repeat constructor; eauto]).
Qed.

(** [_get_client] with a client does nothing; without one it looks the key
    up and then, with a key, builds the client, which is kept exactly when
    the call returns.  The store is never touched. *)
Lemma get_client_cases E s :
  db (get_client E s).2 = db s ∧
  ((client s = true ∧ get_client E s = (Ok tt, s)) ∨
   (client s = false ∧
    ∃ built,
      trace (get_client E s).2
        = trace s ++ (EvKey <$> (get_anthropic_client (key_env E (clock s))).2) ++ built ∧
      (built = [] ∨ built = [EvClient]) ∧
      ((get_client E s).1 = Ok tt → client (get_client E s).2 = true))).
Proof.
  unfold get_client. destruct (client s) eqn:Hc; [by split; [|left]|].
  destruct (get_anthropic_client _) as [[k|e] calls]; simpl.
  - destruct (client_fault E (clock s)); simpl; (split; [done|right; split; [done|]]);
      exists [EvClient]; rewrite <- app_assoc; (split; [done|]); (split; [by right|done]).
  - split; [done|]. right. split; [done|]. exists []. rewrite app_nil_r.
    split; [done|]. split; [by left|done].
Qed.

(** ** What a stretch of the session may do *)

Section Steps.
Context (E : Env) (P : event → Prop).
Hypothesis P_sql : ∀ c, P (EvSql c).
Hypothesis P_key : ∀ k, P (EvKey k).
Hypothesis P_client : P EvClient.
Hypothesis P_search : ∀ q m, P (EvSearch q m).
Hypothesis P_fetch : ∀ u, P (EvFetch u).

Lemma follows_refl s : follows P s s.
Proof. split; [done|]. exists []. by rewrite app_nil_r. Qed.

Lemma follows_trans s1 s2 s3 : follows P s1 s2 → follows P s2 s3 → follows P s1 s3.
Proof.
  intros [Hd1 (ev1 & Ht1 & Hp1)] [Hd2 (ev2 & Ht2 & Hp2)]. split; [congruence|].
  exists (ev1 ++ ev2). rewrite Ht2, Ht1, app_assoc. split; [done|].
  by apply Forall_app.
Qed.

Lemma follows_emit e s : P e → follows P s (emit e s).
Proof. intros He. split; [done|]. exists [e]. split; [done|]. by constructor. Qed.

Lemma steps_ret {A} (a : A) : steps P (ret a).
Proof. intros s. apply follows_refl. Qed.

Lemma steps_raise {A} e : steps P (@raise A e).
Proof. intros s. apply follows_refl. Qed.

Lemma steps_lift {A} (r : result A) : steps P (lift r).
Proof. intros s. apply follows_refl. Qed.

Lemma steps_bind {A B} (m : M A) (k : A → M B) :
  steps P m → (∀ a, steps P (k a)) → steps P (bind m k).
Proof.
  intros Hm Hk s. specialize (Hm s). unfold bind.
  destruct (m s) as [[a|e] s1]; simpl in *; [|done].
  eapply follows_trans; [exact Hm|apply Hk].
Qed.

Lemma steps_for_each {A B} (body : B → A → M B) l acc :
  (∀ acc x, steps P (body acc x)) → steps P (for_each body l acc).
Proof.
  intros Hbody. revert acc. induction l as [|x l IH]; intros acc.
  - apply steps_ret.
  - simpl. apply steps_bind; [apply Hbody|apply IH].
Qed.

(** A statement that leaves the sessions table alone. *)
Lemma steps_sql {A} call (run : Z → store → result (store * A)) :
  (∀ t d d' a, run t d = Ok (d', a) → learning_sessions d' = learning_sessions d) →
  steps P (sql E call run).
Proof.
  intros Hrun s. unfold sql.
  destruct (db_fault E (clock s)); simpl; [by apply follows_emit|].
  destruct (run (now E (clock s)) (db s)) as [[d' a]|e] eqn:Hr; simpl;
    [|by apply follows_emit].
  split; [simpl; by eapply Hrun|].
  exists [EvSql call]. split; [done|]. by constructor.
Qed.

Lemma steps_sql_read call : steps P (sql_read E call).
Proof. apply steps_sql. by intros t d d' a [= <- _]. Qed.

Lemma steps_get_client : steps P (get_client E).
Proof.
  intros s. destruct (get_client_cases E s) as [Hdb [[_ ->]|(_ & built & Ht & Hb & _)]];
    [apply follows_refl|].
  split; [by rewrite Hdb|]. eexists. split; [exact Ht|].
  apply Forall_app. split; [apply Forall_fmap, Forall_forall; intros; apply P_key|].
  destruct Hb as [-> | ->]; by repeat constructor.
Qed.

Lemma steps_messages_create model max_tokens :
  P (EvLlm model max_tokens) → steps P (messages_create E model max_tokens).
Proof. intros Hp s. by apply follows_emit. Qed.

Lemma steps_parse_reply response fallback : steps P (parse_reply E response fallback).
Proof.
  intros s. rewrite parse_reply_state. apply follows_refl.
Qed.

Lemma steps_search_web q m : steps P (search_web E q m).
Proof.
  intros s. destruct (search_web_never_raises E q m s) as [hits ->].
  by apply follows_emit.
Qed.

Lemma steps_fetch_page_content u m : steps P (fetch_page_content E u m).
Proof.
  intros s. destruct (fetch_page_content_returns E u m s) as [r ->].
  by apply follows_emit.
Qed.

Lemma steps_queue_research topic queries why hoping priority interest_id project_id :
  steps P (queue_research E topic queries why hoping priority interest_id project_id).
Proof. apply steps_sql. by intros t d d' a [= <- _]. Qed.

Lemma steps_update_research_status rid status error :
  steps P (update_research_status E rid status error).
Proof.
  apply steps_sql. intros t d d' a. unfold rbind.
  destruct (row_key E rid); [|done].
  destruct (update_row _ _ _); [|done]. by intros [= <- _].
Qed.

Lemma steps_save_research_result row : steps P (save_research_result E row).
Proof. apply steps_sql. by intros t d d' a [= <- _]. Qed.

Lemma steps_record_insight topic summary insights questions confidence sources
    request_id interest_id :
  steps P (record_insight E topic summary insights questions confidence sources
             request_id interest_id).
Proof. apply steps_sql. by intros t d d' a [= <- _]. Qed.

Lemma steps_add_learning_interest topic why sparked priority tags :
  steps P (add_learning_interest E topic why sparked priority tags).
Proof. apply steps_sql. by intros t d d' a [= <- _]. Qed.

Lemma steps_update_interest_insights id insights questions :
  steps P (update_interest_insights E id insights questions).
Proof.
  unfold update_interest_insights. apply steps_bind; [apply steps_lift|].
  intros n. apply steps_sql. intros t d d' a. unfold rbind.
  destruct (row_key E id); [|done].
  destruct (update_row _ _ _); [|done]. by intros [= <- _].
Qed.

Lemma steps_perform_research queries rid : steps P (perform_research E queries rid).
Proof.
  unfold perform_research. apply steps_bind; [apply steps_lift|]. intros qs.
  apply steps_for_each. intros acc q. unfold research_query.
  apply steps_bind; [apply steps_search_web|]. intros hits.
  apply steps_for_each. intros acc' hit. unfold research_one.
  destruct (Text.is_empty _); [apply steps_ret|].
  apply steps_bind; [apply steps_fetch_page_content|]. intros content.
  apply steps_bind; [|intros; apply steps_ret].
  destruct (truthy rid); [apply steps_save_research_result|apply steps_ret].
Qed.

Lemma steps_choose_learning_topic :
  P (EvLlm LEARNING_MODEL 1000) → steps P (choose_learning_topic E).
Proof.
  intros Hp. unfold choose_learning_topic, ask_for_topic.
  repeat first
    [ apply steps_parse_reply | apply steps_get_client | apply steps_sql_read
    | by apply steps_messages_create
    | apply steps_bind; [|intros ?] ].
Qed.

Lemma steps_prepare_research :
  P (EvLlm LEARNING_MODEL 1000) → steps P (prepare_research E).
Proof.
  intros Hp. unfold prepare_research.
  apply steps_bind; [by apply steps_choose_learning_topic|]. intros choice.
  apply steps_bind; [apply steps_lift|]. intros tc.
  apply steps_bind.
  - destruct (truthy _); [apply steps_ret|].
    apply steps_bind; [apply steps_queue_research|intros; apply steps_ret].
  - intros rid. apply steps_bind; [apply steps_update_research_status|].
    intros; apply steps_ret.
Qed.

Lemma steps_reflect_on_learning topic results hoping :
  P (EvLlm REFLECTION_MODEL 1500) → steps P (reflect_on_learning E topic results hoping).
Proof.
  intros Hp. unfold reflect_on_learning, ask_for_reflection.
  repeat first
    [ apply steps_parse_reply | apply steps_get_client
    | by apply steps_messages_create
    | apply steps_bind; [|intros ?] ].
Qed.

End Steps.

(** ** Statements sent to the database *)

Section Statements.
Context (E : Env).

Lemma sql_accepted {A} call (run : Z → store → result (store * A)) s d a :
  db_fault E (clock s) = None →
  run (now E (clock s)) (db s) = Ok (d, a) →
  sql E call run s = (Ok a, set_db d (emit (EvSql call) s)).
Proof. intros Hf Hr. unfold sql. by rewrite Hf, Hr. Qed.

Lemma sql_ok_inv {A} call (run : Z → store → result (store * A)) s a s' :
  sql E call run s = (Ok a, s') →
  db_fault E (clock s) = None ∧
  ∃ d, run (now E (clock s)) (db s) = Ok (d, a) ∧
       s' = set_db d (emit (EvSql call) s).
Proof.
  unfold sql. destruct (db_fault E (clock s)); [done|].
  destruct (run _ _) as [[d x]|e]; [|done]. intros [= <- <-]. eauto.
Qed.

Lemma sql_raise_inv {A} call (run : Z → store → result (store * A)) s e s' :
  sql E call run s = (Raise e, s') → s' = emit (EvSql call) s.
Proof.
  unfold sql. destruct (db_fault E (clock s)); [by intros [= _ <-]|].
  destruct (run _ _) as [[d x]|e1]; [done|]. by intros [= _ <-].
Qed.

Lemma clock_emit e s : clock (emit e s) = S (clock s).
Proof. unfold clock, emit. simpl. rewrite length_app. simpl. lia. Qed.

Lemma start_learning_session_ok_inv session_type s sid s1 :
  start_learning_session E session_type s = (Ok sid, s1) →
  learning_sessions (db s1) !! sid
    = Some (new_session_row (now E (clock s)) session_type) ∧
  trace s1 = trace s ++ [EvSql (StartLearningSession session_type)].
Proof.
  intros H. apply sql_ok_inv in H as (_ & d & [= <- <-] & ->).
  split; [apply lookup_insert_eq|done].
Qed.

Lemma update_row_total {A} k (f : A → A) (m : gmap Z A) :
  update_row k (λ r, Ok (f r)) m = Ok (updated_rows k f m).
Proof.
  destruct k as [id|]; simpl; [|done]. by destruct (m !! id).
Qed.

Lemma updated_rows_lookup {A} id (f : A → A) (m : gmap Z A) :
  updated_rows (Some id) f m !! id = f <$> m !! id.
Proof.
  simpl. destruct (m !! id) as [r|] eqn:Hr; simpl; [apply lookup_insert_eq|done].
Qed.

Lemma update_research_status_accepted rid status error k s :
  db_fault E (clock s) = None →
  row_key E rid = Ok k →
  ∃ s', update_research_status E rid status error s = (Ok tt, s') ∧
    trace s' = trace s ++ [EvSql (UpdateResearchStatus rid status error)] ∧
    learning_sessions (db s') = learning_sessions (db s) ∧
    ∀ id, k = Some id →
      research_requests (db s') !! id
        = sql_update_request (now E (clock s)) status error
            <$> research_requests (db s) !! id.
Proof.
  intros Hf Hk. unfold update_research_status.
  eexists. split.
  - apply sql_accepted; [done|]. rewrite Hk. simpl.
    rewrite update_row_total. reflexivity.
  - split; [done|]. split; [done|].
    intros id ->. apply updated_rows_lookup.
Qed.

Lemma update_research_status_ok_inv rid status error s s' :
  update_research_status E rid status error s = (Ok tt, s') →
  ∃ k, row_key E rid = Ok k.
Proof.
  intros H. apply sql_ok_inv in H as (_ & d & Hrun & _).
  destruct (row_key E rid) as [k|e]; [eauto|done].
Qed.

Lemma complete_learning_session_accepted sid topic reason status n1 n2 n3 error s :
  db_fault E (clock s) = None →
  ∃ s', complete_learning_session E sid topic reason status n1 n2 n3 error s
          = (Ok tt, s') ∧
    trace s' = trace s ++ [EvSql (CompleteLearningSession sid status error)] ∧
    research_requests (db s') = research_requests (db s) ∧
    learning_sessions (db s') !! sid
      = sql_complete_session (now E (clock s)) topic reason status n1 n2 n3 error
          <$> learning_sessions (db s) !! sid.
Proof.
  intros Hf. unfold complete_learning_session. eexists. split.
  - apply sql_accepted; [done|]. rewrite update_row_total. reflexivity.
  - split; [done|]. split; [done|]. apply updated_rows_lookup.
Qed.

Lemma raise_keeps_complete sid topic reason status n1 n2 n3 error :
  raise_keeps (complete_learning_session E sid topic reason status n1 n2 n3 error).
Proof. intros s e s' H. by apply sql_raise_inv in H as ->. Qed.

Lemma raise_keeps_steps {A} (m : M A) : steps any_call m → raise_keeps m.
Proof. intros Hm s e s' H. specialize (Hm s). rewrite H in Hm. apply Hm. Qed.

Lemma raise_keeps_bind {A B} (m : M A) (k : A → M B) :
  steps any_call m → (∀ a, raise_keeps (k a)) → raise_keeps (bind m k).
Proof.
  intros Hm Hk s e s' H. apply bind_raise_inv in H as [H|(a & s1 & H1 & H2)].
  - by apply (raise_keeps_steps m Hm) in H.
  - apply Hk in H2. specialize (Hm s). rewrite H1 in Hm.
    destruct Hm as [Hm _]. simpl in Hm. congruence.
Qed.

Lemma raise_keeps_last {A B} (m : M A) (b : B) :
  raise_keeps m → raise_keeps (bind m (λ _, ret b)).
Proof.
  intros Hm s e s' H. apply bind_raise_inv in H as [H|(a & s1 & _ & H2)].
  - by apply Hm in H.
  - done.
Qed.

End Statements.

(** The spec's two scenarios, run on the model: ten queries with ten
    results each cost three searches and six fetches; four queries with three
    results each leave six result rows and a completed session whose counts
    are the lengths of the reflection's lists. *)
Example ten_queries_ten_results :
  let E := world (λ _, Ok []) (Ok (replicate 10 provider_row)) (Ok "some text") in
  let s' := (perform_research E (PList (replicate 10 (PStr "q"))) PNone initial_state).2 in
  length (searches (trace s')) = 3%nat ∧ length (fetches (trace s')) = 6%nat.
Proof. split; reflexivity. Qed.

Example four_queries_three_results :
  let out := run_learning_session scripted_world initial_state in
  (λ d : pydict, d !! "status") <$> (match out.1 with Ok d => Some d | Raise _ => None end)
    = Some (Some (PStr "completed")) ∧
  length (research_results (db out.2)) = 6%nat ∧
  (λ r, (ses_status r, ses_insights_count r, ses_new_questions_count r))
    <$> learning_sessions (db out.2) !! 1%Z = Some ("completed", 2%Z, 1%Z).
Proof. repeat split; vm_compute; reflexivity. Qed.

(** ** The orchestrator *)

Section Orchestrator.
Context (E : Env).

Ltac trivial_call :=
  first [ exact I | reflexivity | intros; exact I | intros; reflexivity ].

(** Closes [steps P m] for the pieces the session is made of. *)
Ltac session_steps_tac :=
  repeat first
    [ apply steps_ret | apply steps_lift | apply steps_raise
    | apply steps_prepare_research; trivial_call
    | apply steps_perform_research; trivial_call
    | apply steps_reflect_on_learning; trivial_call
    | apply steps_record_insight; trivial_call
    | apply steps_update_interest_insights; trivial_call
    | apply steps_add_learning_interest; trivial_call
    | apply steps_update_research_status; trivial_call
    | apply steps_bind; [|intros ?]
    | match goal with
      | |- steps _ (if ?b then _ else _) => destruct b
      | |- steps _ (match ?o with Some _ => _ | None => _ end) => destruct o
      end ].

Lemma fail_session_raise_keeps sid p : raise_keeps (fail_session E sid p).
Proof.
  unfold fail_session.
  apply raise_keeps_bind; [session_steps_tac|intros _].
  apply raise_keeps_last, raise_keeps_complete.
Qed.

Lemma finish_session_raise_keeps sid p results :
  raise_keeps (finish_session E sid p results).
Proof.
  unfold finish_session. cbv zeta.
  do 10 (apply raise_keeps_bind; [session_steps_tac|intros ?]).
  apply raise_keeps_last, raise_keeps_complete.
Qed.

Lemma session_steps_raise_keeps sid : raise_keeps (session_steps E sid).
Proof.
  unfold session_steps.
  apply raise_keeps_bind; [session_steps_tac|intros p].
  apply raise_keeps_bind; [session_steps_tac|intros results].
  destruct results; [apply fail_session_raise_keeps|apply finish_session_raise_keeps].
Qed.

Lemma run_learning_session_started s0 sid s1 :
  start_learning_session E "autonomous" s0 = (Ok sid, s1) →
  run_learning_session E s0 =
  match session_steps E sid s1 with
  | (Ok d, s') => (Ok d, s')
  | (Raise e, s') => (Ok (error_result e), s')
  end.
Proof.
  intros Hstart. unfold run_learning_session, try_except.
  rewrite (bind_ok _ _ _ _ _ Hstart). by destruct (session_steps E sid s1) as [[d|e] s'].
Qed.

(** C10.  When a step after [start_learning_session] raises, the run
    returns the error result and ends in the very state the exception was
    raised in: the handler sends nothing to the database.  In that state the
    session row is as [start_learning_session] created it ("in_progress",
    no error message, not completed), and so is every research request that
    was "in_progress" when the exception was raised. *)
Theorem session_error_leaves_store s0 sid s1 e s2
    (Hstart : start_learning_session E "autonomous" s0 = (Ok sid, s1))
    (Hraise : session_steps E sid s1 = (Raise e, s2)) :
  run_learning_session E s0 = (Ok (error_result e), s2) ∧
  error_result e !! "status" = Some (PStr "error") ∧
  error_result e !! "error" = Some (PStr (str_exn e)) ∧
  (∃ ses, learning_sessions (db (run_learning_session E s0).2) !! sid = Some ses ∧
          ses_status ses = "in_progress" ∧ ses_error_message ses = None ∧
          ses_completed_at ses = None) ∧
  trace (run_learning_session E s0).2 = trace s2 ∧
  (∀ id r, research_requests (db s2) !! id = Some r → req_status r = "in_progress" →
           research_requests (db (run_learning_session E s0).2) !! id = Some r).
Proof.
  rewrite (run_learning_session_started _ _ _ Hstart), Hraise. simpl.
  split; [done|]. split; [reflexivity|]. split; [reflexivity|].
  split; [|done].
  apply session_steps_raise_keeps in Hraise. rewrite Hraise.
  apply start_learning_session_ok_inv in Hstart as [-> _].
  eexists. split; [reflexivity|]. done.
Qed.

Ltac invert_binds H :=
  repeat (cbv zeta beta in H;
          match type of H with
          | bind _ _ _ = (Ok _, _) =>
              let a := fresh "a" in let s := fresh "s" in let Ha := fresh "Hstep" in
              apply bind_ok_inv in H as (a & s & Ha & H)
          end);
  cbv zeta beta in H.

Lemma prepare_research_key s p s' :
  prepare_research E s = (Ok p, s') → ∃ k, row_key E (plan_request_id p) = Ok k.
Proof.
  intros H. unfold prepare_research in H. invert_binds H.
  apply ret_inv in H as [[= ->] _]. simpl.
  destruct a2. by eapply update_research_status_ok_inv.
Qed.

(** C2.  When the research returns no result and the database accepts the
    two statements that follow, the run marks the request "failed" with the
    message 'No results found', marks the session "failed", and returns the
    result with status "failed"; from start to end it never calls the
    reflection model. *)
Theorem empty_research_fails_session s0 sid s1 p s2 s3
    (Hstart : start_learning_session E "autonomous" s0 = (Ok sid, s1))
    (Hplan : prepare_research E s1 = (Ok p, s2))
    (Hempty : perform_research E (plan_queries p) (plan_request_id p) s2 = (Ok [], s3))
    (Haccept1 : db_fault E (clock s3) = None)
    (Haccept2 : db_fault E (S (clock s3)) = None) :
  ∃ s4,
    run_learning_session E s0 = (Ok (failed_result (plan_topic p)), s4) ∧
    failed_result (plan_topic p) !! "status" = Some (PStr "failed") ∧
    trace s4 = trace s3 ++
      [ EvSql (UpdateResearchStatus (plan_request_id p) "failed"
                 (Some "No results found"));
        EvSql (CompleteLearningSession sid "failed" (Some "No research results")) ] ∧
    (∃ k, row_key E (plan_request_id p) = Ok k ∧
       ∀ id r0, k = Some id → research_requests (db s3) !! id = Some r0 →
         ∃ r, research_requests (db s4) !! id = Some r ∧
              req_status r = "failed" ∧
              req_error_message r = Some "No results found") ∧
    (∃ ses, learning_sessions (db s4) !! sid = Some ses ∧
            ses_status ses = "failed") ∧
    (∃ calls, trace s4 = trace s0 ++ calls ∧
              Forall (λ e, is_reflection_call e = false) calls).
Proof.
  destruct (prepare_research_key _ _ _ Hplan) as [k Hk].
  destruct (update_research_status_accepted E (plan_request_id p) "failed"
              (Some "No results found") k s3 Haccept1 Hk)
    as (s3' & Hupd & Htr1 & Hses1 & Hreq1).
  assert (clock s3' = S (clock s3)) as Hclock
    by (unfold clock; rewrite Htr1, length_app; simpl; lia).
  rewrite <- Hclock in Haccept2.
  destruct (complete_learning_session_accepted E sid (plan_topic p)
              (dget (plan_choice p) "why_now" (PStr EmptyString)) "failed" 0 0 0
              (Some "No research results") s3' Haccept2)
    as (s4 & Hcomp & Htr2 & Hreq2 & Hses2).
  (* the session row is still there when the session is completed *)
  pose proof (steps_prepare_research E no_reflection) as Hprep.
  specialize (Hprep ltac:(intros; reflexivity) ltac:(intros; reflexivity)
                ltac:(reflexivity) ltac:(reflexivity) s1).
  rewrite Hplan in Hprep. destruct Hprep as [Hs12 (ev1 & Ht12 & Hq1)].
  pose proof (steps_perform_research E no_reflection) as Hperf.
  specialize (Hperf ltac:(intros; reflexivity) ltac:(intros; reflexivity)
                ltac:(intros; reflexivity) (plan_queries p) (plan_request_id p) s2).
  rewrite Hempty in Hperf. destruct Hperf as [Hs23 (ev2 & Ht23 & Hq2)].
  simpl in Hs12, Ht12, Hs23, Ht23.
  pose proof (start_learning_session_ok_inv E _ _ _ _ Hstart) as [Hrow Ht01].
  exists s4. split.
  { rewrite (run_learning_session_started _ _ _ Hstart). unfold session_steps.
    rewrite (bind_ok _ _ _ _ _ Hplan), (bind_ok _ _ _ _ _ Hempty).
    unfold fail_session.
    rewrite (bind_ok _ _ _ _ _ Hupd), (bind_ok _ _ _ _ _ Hcomp). done. }
  split; [reflexivity|].
  split; [by rewrite Htr2, Htr1, <- app_assoc|].
  split.
  { exists k. split; [done|]. intros id r0 -> Hr0.
    eexists. split.
    - rewrite Hreq2, (Hreq1 id eq_refl), Hr0. reflexivity.
    - done. }
  split.
  { rewrite Hses2, Hses1, Hs23, Hs12, Hrow. simpl. eexists. split; [reflexivity|done]. }
  eexists. split.
  - rewrite Htr2, Htr1, Ht23, Ht12, Ht01, <- !app_assoc. reflexivity.
  - repeat (apply Forall_app; split); try done; by repeat constructor.
Qed.

(** What [session_steps] returns when it returns. *)
Lemma session_steps_ok_shape sid s d s' :
  session_steps E sid s = (Ok d, s') →
  (∃ topic, d = failed_result topic) ∨
  (∃ topic insights questions summary sparked,
     d = completed_result sid topic insights questions summary sparked).
Proof.
  intros H. unfold session_steps in H. invert_binds H.
  destruct a0 as [|r results].
  - left. unfold fail_session in H. invert_binds H.
    apply ret_inv in H as [[= ->] _]. eauto.
  - right. unfold finish_session in H. invert_binds H.
    apply ret_inv in H as [[= ->] _]. eauto 10.
Qed.

(** C3 (amended).  [run_learning_session] always returns a dictionary, of
    one of three kinds: status "error", with an 'error' key and no 'topic'
    key (the outermost handler); status "failed", with 'topic' and 'error';
    status "completed", with 'topic', 'insights', 'new_questions', 'summary'
    and 'new_interest' (the sparked topic, or None). *)
Theorem run_learning_session_result s :
  ∃ d s', run_learning_session E s = (Ok d, s') ∧
    ((d !! "status" = Some (PStr "error") ∧ d !! "topic" = None ∧
      is_Some (d !! "error")) ∨
     (d !! "status" = Some (PStr "failed") ∧ is_Some (d !! "topic") ∧
      is_Some (d !! "error")) ∨
     (d !! "status" = Some (PStr "completed") ∧ is_Some (d !! "topic") ∧
      is_Some (d !! "insights") ∧ is_Some (d !! "new_questions") ∧
      is_Some (d !! "summary") ∧ is_Some (d !! "new_interest"))).
Proof.
  unfold run_learning_session, try_except.
  destruct (bind _ _ s) as [[d|e] s'] eqn:Hrun.
  - exists d, s'. split; [done|].
    apply bind_ok_inv in Hrun as (sid & s1 & _ & Hsteps).
    apply session_steps_ok_shape in Hsteps
      as [(topic & ->)|(topic & ins & qs & summary & sparked & ->)].
    + right; left. split; [reflexivity|]. split; eexists; reflexivity.
    + right; right. split; [reflexivity|]. repeat split; eexists; reflexivity.
  - exists (error_result e), s'. split; [done|]. left.
    split; [reflexivity|]. split; [reflexivity|]. eexists; reflexivity.
Qed.

End Orchestrator.

(** C3 (counterexample).  The LLM answers with a JSON array: the first
    [.get] raises, the handler returns, and the result has no 'topic'. *)
Lemma error_result_has_no_topic :
  let E := world (λ _, Ok ["[1, 2]"]) (Ok []) (Ok EmptyString) in
  (run_learning_session E initial_state).1
    = Ok (error_result (AttributeError "'list' object has no attribute 'get'")) ∧
  error_result (AttributeError "'list' object has no attribute 'get'") !! "status"
    = Some (PStr "error") ∧
  error_result (AttributeError "'list' object has no attribute 'get'") !! "topic" = None.
Proof. repeat split; reflexivity. Qed.

(** The LLM answers with an empty object: the topic is "Unknown", there is
    no query to search, and the session fails. *)
Lemma empty_research_fails_session_witness :
  let E := world (λ _, Ok ["{}"]) (Ok []) (Ok EmptyString) in
  ∃ s4,
    run_learning_session E initial_state = (Ok (failed_result (PStr "Unknown")), s4) ∧
    (∃ r, research_requests (db s4) !! 1%Z = Some r ∧ req_status r = "failed" ∧
          req_error_message r = Some "No results found") ∧
    (∃ ses, learning_sessions (db s4) !! 1%Z = Some ses ∧ ses_status ses = "failed").
Proof.
  cbv zeta.
  set (E := world (λ _, Ok ["{}"]) (Ok []) (Ok EmptyString)).
  set (s1 := (start_learning_session E "autonomous" initial_state).2).
  set (p := Plan ∅ (PStr "Unknown") (PList []) (PInt 1) PNone).
  set (s2 := (prepare_research E s1).2).
  destruct (empty_research_fails_session E initial_state 1 s1 p s2 s2)
    as (s4 & Hrun & _ & _ & (k & Hk & Hreq) & Hses & _);
    [reflexivity..|].
  exists s4. split; [exact Hrun|]. split; [|exact Hses].
  injection Hk as <-.
  destruct (Hreq 1%Z (Request (PStr "Unknown") (PList []) PNone PNone "medium"
                        "in_progress" PNone PNone None (Some 9%Z) None)
              eq_refl eq_refl) as (r & Hr & Hst & Herr).
  by exists r.
Defined.

(** The LLM answers with a JSON array: the session row stays as created. *)
Lemma session_error_leaves_store_witness :
  let E := world (λ _, Ok ["[1, 2]"]) (Ok []) (Ok EmptyString) in
  (run_learning_session E initial_state).1
    = Ok (error_result (AttributeError "'list' object has no attribute 'get'")) ∧
  ∃ ses, learning_sessions (db (run_learning_session E initial_state).2) !! 1%Z
           = Some ses ∧ ses_status ses = "in_progress".
Proof.
  cbv zeta.
  set (E := world (λ _, Ok ["[1, 2]"]) (Ok []) (Ok EmptyString)).
  set (s1 := (start_learning_session E "autonomous" initial_state).2).
  destruct (session_error_leaves_store E initial_state 1 s1
              (AttributeError "'list' object has no attribute 'get'")
              (session_steps E 1 s1).2)
    as (Hrun & _ & _ & (ses & Hses & Hst & _) & _); [reflexivity..|].
  split; [by rewrite Hrun|]. by exists ses.
Defined.

(* ===================================================================== *)
(** * Part III: further properties of the code                            *)
(* ===================================================================== *)

(** ** Code fences in an LLM reply *)

Section Fences.
Import Text.

Lemma split_go_cons sep k c s :
  split_go sep k (String c s) =
  match k with
  | S k' => split_go sep k' s
  | O => if String.prefix sep (String c s)
         then EmptyString :: split_go sep (String.length sep - 1) s
         else cons_head c (split_go sep 0 s)
  end.
Proof. done. Qed.

Lemma split_go_nonempty sep k s : split_go sep k s ≠ [].
Proof.
  revert k. induction s as [|c s IH]; intros k; [done|]. rewrite split_go_cons.
  destruct k; [|apply IH].
  destruct (String.prefix sep (String c s)); [done|].
  specialize (IH 0%nat). by destruct (split_go sep 0 s).
Qed.

Lemma cons_head_length c l : l ≠ [] → length (cons_head c l) = length l.
Proof. by destruct l. Qed.

(** Where the separator occurs, [split] returns at least two pieces. *)
Lemma contains_split sep s :
  sep ≠ EmptyString → contains sep s = true → (2 ≤ length (split sep s))%nat.
Proof.
  intros Hsep. unfold split. induction s as [|c s IH].
  - by destruct sep.
  - intros H. rewrite split_go_cons.
    change (contains sep (String c s))
      with (String.prefix sep (String c s) || contains sep s) in H.
    destruct (String.prefix sep (String c s)) eqn:Hp.
    + pose proof (split_go_nonempty sep (String.length sep - 1) s) as Hne.
      destruct (split_go sep (String.length sep - 1) s); [done|simpl; lia].
    + rewrite cons_head_length by apply split_go_nonempty. by apply IH.
Qed.

Lemma item_in_range {A} (l : list A) i :
  (i < length l)%nat → ∃ x, item l i = Ok x.
Proof.
  intros Hi. unfold item. destruct (lookup_lt_is_Some_2 l i Hi) as [x ->]. eauto.
Qed.

Lemma fenced_piece sep content :
  sep ≠ EmptyString → contains sep content = true →
  ∃ p, (x <-? item (split sep content) 1 ;; item (split "```" x) 0) = Ok p.
Proof.
  intros Hsep Hc.
  destruct (item_in_range (split sep content) 1) as [x ->];
    [by apply contains_split|].
  simpl. apply item_in_range.
  pose proof (split_go_nonempty "```" 0 x) as Hne. unfold split.
  destruct (split_go "```" 0 x); [done|simpl; lia].
Qed.

Lemma prefix_no_char a t s :
  has_char a s = false → String.prefix (String a t) s = false.
Proof.
  destruct s as [|c s]; [done|]. simpl.
  destruct (Ascii.eqb a c) eqn:Hac; [done|]. intros _.
  apply Ascii.eqb_neq in Hac. by destruct (ascii_dec a c).
Qed.

Lemma prefix_head_mismatch a t c s :
  Ascii.eqb a c = false → String.prefix (String a t) (String c s) = false.
Proof.
  intros Hac. simpl. apply Ascii.eqb_neq in Hac. by destruct (ascii_dec a c).
Qed.

Lemma prefix_app_self sep rest : String.prefix sep (sep +:+ rest) = true.
Proof.
  induction sep as [|a sep IH]; simpl; [by destruct rest|].
  by destruct (ascii_dec a a).
Qed.

Lemma split_go_skip sep x rest :
  split_go sep (String.length x) (x +:+ rest) = split_go sep 0 rest.
Proof. induction x as [|c x IH]; [done|]. simpl. exact IH. Qed.

(** Text free of the separator's first character is passed over. *)
Lemma split_go_pass a t pre r :
  has_char a pre = false →
  split_go (String a t) 0 (pre +:+ r) = prepend_head pre (split_go (String a t) 0 r).
Proof.
  induction pre as [|c pre IH]; intros Hpre.
  - change (EmptyString +:+ r) with r.
    pose proof (split_go_nonempty (String a t) 0 r).
    by destruct (split_go (String a t) 0 r).
  - simpl in Hpre. destruct (Ascii.eqb a c) eqn:Hac; [done|].
    change (String c pre +:+ r) with (String c (pre +:+ r)).
    rewrite split_go_cons, prefix_head_mismatch by done.
    rewrite IH by done.
    pose proof (split_go_nonempty (String a t) 0 r).
    by destruct (split_go (String a t) 0 r).
Qed.

Lemma split_go_at a t rest :
  split_go (String a t) 0 (String a t +:+ rest)
  = EmptyString :: split_go (String a t) 0 rest.
Proof.
  change (String a t +:+ rest) with (String a (t +:+ rest)).
  rewrite split_go_cons.
  change (String a (t +:+ rest)) with (String a t +:+ rest).
  rewrite prefix_app_self. f_equal.
  change (String.length (String a t) - 1)%nat with (String.length t - 0)%nat.
  rewrite Nat.sub_0_r. apply split_go_skip.
Qed.

Lemma split_at_first a t pre rest :
  has_char a pre = false →
  split (String a t) (pre +:+ String a t +:+ rest) = pre :: split (String a t) rest.
Proof.
  intros Hpre. unfold split. rewrite split_go_pass by done.
  rewrite split_go_at. simpl. by rewrite app_empty_r.
Qed.

Lemma contains_app sep pre rest : contains sep (pre +:+ sep +:+ rest) = true.
Proof.
  induction pre as [|c pre IH].
  - change (EmptyString +:+ sep +:+ rest) with (sep +:+ rest).
    destruct sep as [|a sep]; [by destruct rest|].
    change (String a sep +:+ rest) with (String a (sep +:+ rest)).
    change (contains (String a sep) (String a (sep +:+ rest)))
      with (String.prefix (String a sep) (String a (sep +:+ rest))
            || contains (String a sep) (sep +:+ rest)).
    change (String a (sep +:+ rest)) with (String a sep +:+ rest).
    by rewrite prefix_app_self.
  - change (String c pre +:+ sep +:+ rest) with (String c (pre +:+ sep +:+ rest)).
    change (contains sep (String c (pre +:+ sep +:+ rest)))
      with (String.prefix sep (String c (pre +:+ sep +:+ rest))
            || contains sep (pre +:+ sep +:+ rest)).
    rewrite IH. apply orb_true_r.
Qed.

(** The first piece of what follows the body, for the two fence markers. *)
Lemma json_marker_after_body post :
  has_char backtick post = false →
  ∃ z tl, split_go "```json" 0 ("```" +:+ post) = z :: tl ∧
          ∃ tl', split_go "```" 0 z = EmptyString :: tl'.
Proof.
  intros Hpost.
  change ("```" +:+ post) with (String backtick (String backtick (String backtick post))).
  rewrite split_go_cons.
  destruct (String.prefix "```json" _) eqn:Hp.
  - eexists _, _. split; [reflexivity|]. by eexists.
  - rewrite split_go_cons.
    assert (String.prefix "```json" (String backtick (String backtick post)) = false) as ->.
    { change (String.prefix "```json" (String backtick (String backtick post)))
        with (String.prefix (String backtick "json") post).
      by apply prefix_no_char. }
    rewrite split_go_cons.
    assert (String.prefix "```json" (String backtick post) = false) as ->.
    { change (String.prefix "```json" (String backtick post))
        with (String.prefix (String backtick (String backtick "json")) post).
      by apply prefix_no_char. }
    pose proof (split_go_nonempty "```json" 0 post) as Hne.
    destruct (split_go "```json" 0 post) as [|h tl]; [done|].
    exists ("```" +:+ h), tl. split; [reflexivity|].
    eexists. apply (split_go_at backtick "``" h).
Qed.

End Fences.

(** X1.  Extracting the payload never fails: a reply that contains a fence
    marker always has the piece after it.  The [IndexError] arm of the two
    parsers is reached only by a response without content blocks. *)
Theorem extract_payload_total content : ∃ p, extract_payload content = Ok p.
Proof.
  unfold extract_payload.
  destruct (Text.contains "```json" content) eqn:Hj; [by apply fenced_piece|].
  destruct (Text.contains "```" content) eqn:Hf; [by apply fenced_piece|].
  by eexists.
Qed.

(** X2.  A payload wrapped in a json fence comes back exactly: when the
    prose before, the payload and the prose after hold no backtick, the
    payload extracted is the text between the markers, and what reaches the
    decoder is that text stripped. *)
Theorem extract_payload_json_fence pre body post
    (Hpre : Text.has_char backtick pre = false)
    (Hbody : Text.has_char backtick body = false)
    (Hpost : Text.has_char backtick post = false) :
  extract_payload (pre +:+ "```json" +:+ body +:+ "```" +:+ post) = Ok body ∧
  reply_payload [pre +:+ "```json" +:+ body +:+ "```" +:+ post]
    = Ok (Text.strip body).
Proof.
  assert (extract_payload (pre +:+ "```json" +:+ body +:+ "```" +:+ post) = Ok body)
    as Hextract.
  { unfold extract_payload. rewrite contains_app.
    rewrite (split_at_first backtick "``json" pre) by done.
    unfold item at 1. simpl lookup. unfold Text.split.
    rewrite (split_go_pass backtick "``json" body) by done.
    change (String backtick "``json") with "```json".
    destruct (json_marker_after_body post Hpost) as (z & tl & -> & tl' & Hz).
    simpl. unfold Text.split.
    rewrite (split_go_pass backtick "``" body) by done.
    change (String backtick "``") with "```".
    rewrite Hz. simpl. unfold item. simpl. by rewrite app_empty_r. }
  split; [exact Hextract|].
  unfold reply_payload. simpl. by rewrite Hextract.
Qed.

(** A choice wrapped in a fence, between two sentences. *)
Lemma extract_payload_json_fence_witness :
  extract_payload ("My choice: ```json {} ``` Thanks.") = Ok " {} ".
Proof.
  apply (extract_payload_json_fence "My choice: " " {} " " Thanks."); reflexivity.
Defined.

(** ** Cleaning a page twice *)

Section Cleaning.
Import Text.

Lemma lstrip_fixed s : leading_space s = false → lstrip s = s.
Proof. destruct s as [|c s]; simpl; [done|]. by intros ->. Qed.

Lemma rstrip_fixed s : trailing_space s = false → rstrip s = s.
Proof.
  induction s as [|c s IH]; [done|]. intros H.
  destruct s as [|d s].
  - simpl in *. by rewrite H.
  - change (trailing_space (String c (String d s)))
      with (trailing_space (String d s)) in H.
    change (rstrip (String c (String d s)))
      with (match rstrip (String d s) with
            | EmptyString => if isspace c then EmptyString else String c EmptyString
            | r => String c r
            end).
    by rewrite IH.
Qed.

Lemma strip_fixed s : trimmed s → strip s = s.
Proof.
  intros [Hl Ht]. unfold strip. rewrite lstrip_fixed by done. by apply rstrip_fixed.
Qed.

Lemma clean_lines_of_clean (l : list string) :
  Forall (λ x, line_ok x ∧ has_char newline x = false) l →
  clean_lines (join nl l) = l.
Proof.
  intros Hall. unfold clean_lines.
  assert (filter (λ line, is_empty (strip line) = false) l = l) as Hfilter.
  { induction Hall as [|x l [(Hne & _ & Htr) _] _ IH]; [done|].
    rewrite filter_cons_True; [by rewrite IH|].
    rewrite strip_fixed; [exact Hne|exact Htr]. }
  assert (strip <$> l = l) as Hmap.
  { clear Hfilter. induction Hall as [|x l [(_ & _ & Htr) _] _ IH]; [done|].
    rewrite fmap_cons, strip_fixed by done. by f_equal. }
  destruct l as [|x l]; [reflexivity|].
  unfold nl. rewrite split_join; [|done|].
  - by rewrite Hfilter, Hmap.
  - eapply Forall_impl; [exact Hall|]. by intros ? [_ ?].
Qed.

End Cleaning.

(** X3.  Cleaning is idempotent: the text [fetch_page_content] makes of a
    page is left as it is by a second cleaning, so content that was fetched
    and stored can be cleaned again without loss. *)
Theorem clean_text_idempotent text : clean_text (clean_text text) = clean_text text.
Proof.
  unfold clean_text at 1 3. f_equal. apply clean_lines_of_clean, clean_lines_ok.
Qed.

(** ** Reading [db.env] *)

Lemma config_line_ignored config line :
  ignored_line line → config_line config line = config.
Proof.
  unfold config_line. intros [-> | [-> | ->]]; simpl; [done| |].
  - by rewrite andb_false_r.
  - by rewrite andb_false_r.
Qed.

(** X4.  Blank lines, comment lines and lines without an equals sign do
    not change the configuration, wherever they stand in the file. *)
Theorem load_db_config_ignores before line after
    (Hignored : ignored_line line) :
  load_db_config (Some (before ++ line :: after))
  = load_db_config (Some (before ++ after)).
Proof.
  unfold load_db_config. rewrite !foldl_app. simpl.
  by rewrite config_line_ignored.
Qed.

(** A commented-out host between two assignments. *)
Lemma load_db_config_ignores_witness :
  load_db_config (Some (["CLAUDE_DB_PORT=5432"] ++ "# CLAUDE_DB_HOST=db" :: ["CLAUDE_DB_USER=me"]))
  = load_db_config (Some (["CLAUDE_DB_PORT=5432"] ++ ["CLAUDE_DB_USER=me"])).
Proof.
  apply (load_db_config_ignores ["CLAUDE_DB_PORT=5432"] "# CLAUDE_DB_HOST=db"
           ["CLAUDE_DB_USER=me"]).
  right; left. reflexivity.
Defined.

Lemma split_once_app a k v :
  Text.has_char a k = false → split_once a (k +:+ String a v) = Some (k, v).
Proof.
  induction k as [|c k IH]; intros Hk.
  - simpl. by rewrite Ascii.eqb_refl.
  - simpl in Hk. destruct (Ascii.eqb a c) eqn:Hac; [done|].
    change (String c k +:+ String a v) with (String c (k +:+ String a v)).
    simpl. by rewrite Hac, IH.
Qed.

Lemma has_char_app a k v : Text.has_char a (k +:+ String a v) = true.
Proof.
  induction k as [|c k IH]; simpl; [by rewrite Ascii.eqb_refl|].
  by destruct (Ascii.eqb a c).
Qed.

Lemma config_line_assigns config line k v :
  Text.strip line = k +:+ String equals_sign v →
  Text.has_char equals_sign k = false →
  starts_with hash_sign k = false →
  config_line config line = <[k := v]> config.
Proof.
  intros Hline Hk Hhash. unfold config_line. rewrite Hline.
  rewrite has_char_app, split_once_app by done.
  assert (Text.is_empty (k +:+ String equals_sign v) = false) as -> by by destruct k.
  assert (starts_with hash_sign (k +:+ String equals_sign v) = false) as ->
    by by destruct k.
  done.
Qed.

Lemma load_db_config_line_appended lines line k v :
  Text.strip line = k +:+ String equals_sign v →
  Text.has_char equals_sign k = false →
  starts_with hash_sign k = false →
  load_db_config (Some (lines ++ [line]))
  = <[k := v]> (load_db_config (Some lines)).
Proof.
  intros. unfold load_db_config. rewrite foldl_app. simpl.
  by apply config_line_assigns.
Qed.

(** X5.  A line [key=value] assigns everything after its first equals sign
    to the key before it, and a later line wins over an earlier one: the
    configuration of a file with one more such line is that of the file,
    with the key set to the value. *)
Theorem load_db_config_assigns lines line k v
    (Hline : Text.strip line = k +:+ String equals_sign v)
    (Hkey : Text.has_char equals_sign k = false)
    (Hcomment : starts_with hash_sign k = false) :
  load_db_config (Some (lines ++ [line]))
  = <[k := v]> (load_db_config (Some lines)).
Proof. by apply load_db_config_line_appended. Qed.

(** A second host, whose value holds an equals sign, replaces the first. *)
Lemma load_db_config_assigns_witness :
  load_db_config (Some (["CLAUDE_DB_HOST=a"] ++ ["  CLAUDE_DB_HOST=b=c  "]))
    !! "CLAUDE_DB_HOST" = Some "b=c".
Proof.
  rewrite (load_db_config_assigns ["CLAUDE_DB_HOST=a"] "  CLAUDE_DB_HOST=b=c  "
             "CLAUDE_DB_HOST" "b=c"); [|reflexivity..].
  apply lookup_insert_eq.
Defined.

Lemma string_app_assoc a b c : (a +:+ b) +:+ c = a +:+ (b +:+ c).
Proof.
  induction a as [|x a IH]; [done|].
  change (String x ((a +:+ b) +:+ c) = String x (a +:+ (b +:+ c))). by f_equal.
Qed.

Lemma has_char_append a k s :
  Text.has_char a (k +:+ s) = Text.has_char a k || Text.has_char a s.
Proof.
  induction k as [|c k IH]; [done|].
  change (Text.has_char a (String c k +:+ s))
    with (if Ascii.eqb a c then true else Text.has_char a (k +:+ s)).
  change (Text.has_char a (String c k))
    with (if Ascii.eqb a c then true else Text.has_char a k).
  by destruct (Ascii.eqb a c).
Qed.

Lemma app_space_neq k : k +:+ " " ≠ k.
Proof.
  intros H. apply (f_equal String.length) in H.
  revert H. induction k as [|c k IH]; simpl; [done|]. intros [= H]. by apply IH.
Qed.

(** X6.  Spaces around the equals sign are kept: a line [key = value] sets
    the key that ends in a space, and leaves [key] itself as it was. *)
Theorem load_db_config_keeps_spaces lines line k v
    (Hline : Text.strip line = k +:+ " =" +:+ v)
    (Hkey : Text.has_char equals_sign k = false)
    (Hcomment : starts_with hash_sign k = false) :
  load_db_config (Some (lines ++ [line])) !! (k +:+ " ") = Some v ∧
  load_db_config (Some (lines ++ [line])) !! k = load_db_config (Some lines) !! k.
Proof.
  assert (Text.strip line = (k +:+ " ") +:+ String equals_sign v) as Hline'.
  { rewrite Hline, string_app_assoc. reflexivity. }
  assert (Text.has_char equals_sign (k +:+ " ") = false) as Hkey'.
  { by rewrite has_char_append, Hkey. }
  assert (starts_with hash_sign (k +:+ " ") = false) as Hcomment'
    by (by destruct k).
  rewrite (load_db_config_line_appended lines line _ v Hline' Hkey' Hcomment').
  split; [apply lookup_insert_eq|].
  apply lookup_insert_ne, app_space_neq.
Qed.

(** The host written with spaces does not reach the key the code reads. *)
Lemma load_db_config_keeps_spaces_witness :
  load_db_config (Some ([] ++ ["CLAUDE_DB_HOST = db"])) !! "CLAUDE_DB_HOST" = None.
Proof.
  destruct (load_db_config_keeps_spaces [] "CLAUDE_DB_HOST = db" "CLAUDE_DB_HOST" " db")
    as [_ ->]; reflexivity.
Defined.

(** ** Finding the API key *)

(** X7.  With a key in the environment [get_anthropic_client] makes no
    database call.  Without one, when connecting fails it raises what the
    connection raised, with nothing opened and nothing to close; otherwise
    the connection it opens is closed exactly once, as the last thing it
    does, whatever happens in between (a missing key file, a failing query,
    no secret), and in between there is at most one query. *)
Theorem get_anthropic_client_closes K :
  if truthy_str (environ_api_key K) then (get_anthropic_client K).2 = []
  else
    match connect_fault K with
    | Some e => get_anthropic_client K = (Raise e, [])
    | None =>
        ∃ queries,
          (get_anthropic_client K).2 = KeyConnect :: queries ++ [KeyClose] ∧
          (length queries ≤ 1)%nat ∧
          Forall (λ e, ∃ key, e = KeyQuery key) queries
    end.
Proof.
  unfold get_anthropic_client.
  destruct (truthy_str (environ_api_key K)).
  { by destruct (environ_api_key K). }
  destruct (connect_fault K); [done|].
  destruct (secret_lookup K) as [found calls] eqn:Hlookup.
  exists calls. split; [by destruct found as [[k|]|e]|].
  unfold secret_lookup in Hlookup.
  destruct (cursor_fault K); [injection Hlookup as <- <-; auto|].
  destruct (key_file K) as [[text|e]|];
    try (injection Hlookup as <- <-; by auto).
  destruct (Text.is_empty (Text.strip text)); [injection Hlookup as <- <-; by auto|].
  destruct (get_secret K (Text.strip text)); injection Hlookup as <- <-;
    (split; [simpl; lia|repeat constructor; eauto]).
Qed.

(** X8.  The key [get_anthropic_client] returns is never empty, and it is
    the environment's when that is set (then without any database call),
    otherwise the secret stored under the stripped contents of the key
    file. *)
Theorem get_anthropic_client_key K k
    (Hreturned : (get_anthropic_client K).1 = Ok k) :
  k ≠ EmptyString ∧
  ((environ_api_key K = Some k ∧ (get_anthropic_client K).2 = []) ∨
   (truthy_str (environ_api_key K) = false ∧
    ∃ text, key_file K = Some (Ok text) ∧
            get_secret K (Text.strip text) = Ok (Some (Some k)))).
Proof.
  unfold get_anthropic_client in *.
  destruct (truthy_str (environ_api_key K)) eqn:Henv.
  { destruct (environ_api_key K) as [k0|]; [|done].
    simpl in Hreturned. injection Hreturned as ->.
    split; [by destruct k|]. by left. }
  destruct (connect_fault K); [done|].
  unfold secret_lookup in *.
  destruct (cursor_fault K); [done|].
  destruct (key_file K) as [[text|e]|]; try done.
  destruct (Text.is_empty (Text.strip text)); [done|].
  destruct (get_secret K (Text.strip text)) as [[[s|]|]|e] eqn:Hsecret; try done.
  simpl in Hreturned. destruct (Text.is_empty s) eqn:Hs; [done|].
  injection Hreturned as ->. split; [intros ->; discriminate Hs|].
  right. split; [done|]. exists text. by rewrite Hsecret.
Qed.

(** The key comes out of the secrets table. *)
Lemma get_anthropic_client_key_witness :
  get_anthropic_client keyed_machine
  = (Ok "sk-ant-1", [KeyConnect; KeyQuery "passphrase"; KeyClose]) ∧
  get_secret keyed_machine "passphrase" = Ok (Some (Some "sk-ant-1")).
Proof.
  split; [reflexivity|].
  destruct (get_anthropic_client_key keyed_machine "sk-ant-1" eq_refl)
    as [_ [[H _]|(_ & text & [= <-] & Hsecret)]]; [discriminate H|exact Hsecret].
Defined.

(** ** [update_research_status] on the table *)

Lemma updated_rows_dom {A} k (f : A → A) (m : gmap Z A) :
  dom (updated_rows k f m) = dom m.
Proof.
  destruct k as [id|]; simpl; [|done].
  destruct (m !! id) as [r|] eqn:Hr; [|done].
  by apply dom_insert_lookup_L.
Qed.

Lemma updated_rows_other {A} k (f : A → A) (m : gmap Z A) id :
  k ≠ Some id → updated_rows k f m !! id = m !! id.
Proof.
  intros Hk. destruct k as [id'|]; simpl; [|done].
  destruct (m !! id') as [r|] eqn:Hr; [|done].
  apply lookup_insert_ne. congruence.
Qed.

Lemma sql_update_request_columns t status error r :
  let r' := sql_update_request t status error r in
  req_status r' = status ∧
  req_error_message r'
    = (if String.eqb status "failed" then error else req_error_message r) ∧
  req_started_at r'
    = (if String.eqb status "in_progress" then Some t else req_started_at r) ∧
  req_completed_at r'
    = (if String.eqb status "completed" || String.eqb status "failed"
       then Some t else req_completed_at r) ∧
  req_topic r' = req_topic r ∧ req_queries r' = req_queries r ∧
  req_priority r' = req_priority r.
Proof.
  unfold sql_update_request.
  destruct (String.eqb status "in_progress") eqn:H1.
  { apply String.eqb_eq in H1 as ->. done. }
  destruct (String.eqb status "completed") eqn:H2.
  { apply String.eqb_eq in H2 as ->. done. }
  by destruct (String.eqb status "failed").
Qed.

(** X9.  An accepted [update_research_status] changes one request row and
    nothing else: no other table, no other request, and no row is created
    when the id is unknown.  In the row it writes the status as given, the
    error message only with status "failed" (an error passed with another
    status is dropped), the start time only with "in_progress" and the
    completion time only with "completed" or "failed". *)
Theorem update_research_status_touches_one_row E rid status error k s
    (Haccepted : db_fault E (clock s) = None)
    (Hkey : row_key E rid = Ok k) :
  ∃ s', update_research_status E rid status error s = (Ok tt, s') ∧
    learning_interests (db s') = learning_interests (db s) ∧
    research_results (db s') = research_results (db s) ∧
    learning_insights (db s') = learning_insights (db s) ∧
    learning_sessions (db s') = learning_sessions (db s) ∧
    dom (research_requests (db s')) = dom (research_requests (db s)) ∧
    (∀ id, k ≠ Some id →
       research_requests (db s') !! id = research_requests (db s) !! id) ∧
    (∀ id r, k = Some id → research_requests (db s) !! id = Some r →
       ∃ r', research_requests (db s') !! id = Some r' ∧
         req_status r' = status ∧
         req_error_message r'
           = (if String.eqb status "failed" then error else req_error_message r) ∧
         req_started_at r'
           = (if String.eqb status "in_progress"
              then Some (now E (clock s)) else req_started_at r) ∧
         req_completed_at r'
           = (if String.eqb status "completed" || String.eqb status "failed"
              then Some (now E (clock s)) else req_completed_at r) ∧
         req_topic r' = req_topic r ∧ req_queries r' = req_queries r ∧
         req_priority r' = req_priority r).
Proof.
  eexists. split.
  { unfold update_research_status. apply sql_accepted; [done|].
    rewrite Hkey. simpl. rewrite update_row_total. reflexivity. }
  simpl. repeat split.
  - apply updated_rows_dom.
  - intros id Hid. by apply updated_rows_other.
  - intros id r -> Hr. rewrite updated_rows_lookup, Hr. simpl.
    eexists. split; [reflexivity|]. apply sql_update_request_columns.
Qed.

(** An error passed along with "completed" does not reach the row. *)
Lemma update_research_status_touches_one_row_witness :
  let E := world (λ _, Ok []) (Ok []) (Ok EmptyString) in
  let s := State (Store ∅ {[ 7 := new_request_row (PStr "Rocq") (PList []) PNone PNone
                                    "medium" PNone PNone ]} [] ∅ ∅) false [] in
  ∃ s' r', update_research_status E (PInt 7) "completed" (Some "late") s = (Ok tt, s') ∧
    research_requests (db s') !! 7%Z = Some r' ∧
    req_status r' = "completed" ∧ req_error_message r' = None.
Proof.
  cbv zeta.
  destruct (update_research_status_touches_one_row
              (world (λ _, Ok []) (Ok []) (Ok EmptyString)) (PInt 7) "completed"
              (Some "late") (Some 7%Z)
              (State (Store ∅ {[ 7 := new_request_row (PStr "Rocq") (PList []) PNone PNone
                                         "medium" PNone PNone ]} [] ∅ ∅) false []))
    as (s' & Hrun & _ & _ & _ & _ & _ & _ & Hrow); [reflexivity..|].
  destruct (Hrow 7%Z _ eq_refl eq_refl) as (r' & Hr' & Hst & Herr & _).
  by exists s', r'.
Defined.

(** ** The research loop, result by result *)

Section Progress.
Context (E : Env) (rid : pyval).

Lemma saved_rows_app items1 items2 :
  saved_rows rid (items1 ++ items2) = saved_rows rid items1 ++ saved_rows rid items2.
Proof. unfold saved_rows. destruct (truthy rid); [apply fmap_app|done]. Qed.

Lemma research_progress_nothing acc s :
  research_progress rid acc s (Ok acc, s) [] [].
Proof.
  unfold research_progress, saved_rows. simpl.
  split; [exists []; by rewrite app_nil_r|].
  repeat split; try done; try lia.
  - by destruct (truthy rid); rewrite app_nil_r.
  - by rewrite app_nil_r.
Qed.

(** A stretch that returned, followed by another stretch. *)
Lemma research_progress_then acc s acc1 s1 out items1 items2 pending :
  research_progress rid acc s (Ok acc1, s1) items1 [] →
  research_progress rid acc1 s1 out items2 pending →
  research_progress rid acc s out (items1 ++ items2) pending.
Proof.
  intros ((new1 & Ht1 & Hf1) & _ & Hu1 & Hr1 & Hi1 & Hq1 & Hn1 & Hs1 & Hres1 & _)
         ((new2 & Ht2 & Hf2) & Hp2 & Hu2 & Hr2 & Hi2 & Hq2 & Hn2 & Hs2 & Hout).
  simpl in *. subst acc1.
  split.
  { exists (new1 ++ new2). rewrite Ht2, Ht1, app_assoc. split; [done|].
    rewrite fetches_app, Hf1, Hf2, app_nil_r, fmap_app, app_assoc. done. }
  split; [done|]. split; [by apply Forall_app|].
  split; [by rewrite Hr2, Hr1, saved_rows_app, app_assoc|].
  repeat (split; [congruence|]).
  destruct out.1; [|done]. destruct Hout as [-> ->].
  by rewrite fmap_app, app_assoc.
Qed.

Lemma research_progress_for_each {A} (body : list pydict → A → M (list pydict)) :
  (∀ acc x s, ∃ items pending, research_progress rid acc s (body acc x s) items pending) →
  ∀ l acc s, ∃ items pending,
    research_progress rid acc s (for_each body l acc s) items pending.
Proof.
  intros Hbody l. induction l as [|x l IH]; intros acc s.
  { exists [], []. apply research_progress_nothing. }
  rewrite for_each_cons.
  destruct (Hbody acc x s) as (items1 & pending1 & H1).
  destruct (body acc x s) as [[acc1|e] s1] eqn:Hb.
  - destruct (IH acc1 s1) as (items2 & pending2 & H2).
    assert (pending1 = []) as -> by (destruct H1 as (_ & _ & _ & _ & _ & _ & _ & _ & _ & ?); done).
    exists (items1 ++ items2), pending2. by eapply research_progress_then.
  - by exists items1, pending1.
Qed.

(** One search result. *)
Lemma research_one_progress q acc hit s :
  ∃ items pending,
    research_progress rid acc s (research_one E q rid acc hit s) items pending.
Proof.
  unfold research_one.
  destruct (Text.is_empty (dget hit "url" EmptyString)) eqn:Hurl.
  { exists [], []. apply research_progress_nothing. }
  destruct (fetch_page_content_returns E (dget hit "url" EmptyString)
              MAX_CONTENT_PER_PAGE s) as (content & Hfetch).
  rewrite (bind_ok _ _ _ _ _ Hfetch).
  set (it := FetchedItem q (dget hit "url" EmptyString) (dget hit "title" EmptyString)
               (dget hit "snippet" EmptyString) content).
  assert (item_url it ≠ EmptyString) as Hne by (simpl; intros Heq; by rewrite Heq in Hurl).
  unfold research_progress, saved_rows.
  destruct (truthy rid) eqn:Hrid.
  - unfold bind, save_research_result, sql, ret. simpl.
    destruct (db_fault E _) as [e|]; simpl.
    + exists [], [dget hit "url" EmptyString]. simpl.
      split; [eexists; split; [by rewrite <- app_assoc|done]|].
      rewrite app_nil_r. repeat split; auto.
    + exists [it], []. simpl.
      split; [eexists; split; [by rewrite <- app_assoc|done]|].
      repeat split; auto.
  - exists [it], []. simpl.
    split; [eexists; split; [reflexivity|done]|].
    rewrite app_nil_r. repeat split; auto.
Qed.

Lemma research_query_progress acc q s :
  ∃ items pending,
    research_progress rid acc s (research_query E rid acc q s) items pending.
Proof.
  unfold research_query.
  destruct (search_web_never_raises E q MAX_RESULTS_PER_QUERY s) as (hits & Hsearch).
  rewrite (bind_ok _ _ _ _ _ Hsearch).
  destruct (research_progress_for_each (research_one E q rid)
              (research_one_progress q) (take 2 hits) acc
              (emit (EvSearch q MAX_RESULTS_PER_QUERY) s))
    as (items & pending & (new & Ht & Hf) & Hrest).
  exists items, pending. split; [|exact Hrest].
  exists (EvSearch q MAX_RESULTS_PER_QUERY :: new).
  split; [by rewrite Ht, trace_emit, <- app_assoc|done].
Qed.

Lemma perform_research_progress queries s :
  ∃ items pending,
    research_progress rid [] s (perform_research E queries rid s) items pending.
Proof.
  unfold perform_research.
  destruct (slice_items MAX_SEARCH_QUERIES queries) as [qs|e] eqn:Hslice.
  - unfold bind, lift. simpl.
    apply research_progress_for_each. intros. apply research_query_progress.
  - exists [], []. unfold bind, lift. simpl.
    unfold research_progress, saved_rows. simpl.
    split; [exists []; by rewrite app_nil_r|].
    repeat split; try done; try lia. by destruct (truthy rid); rewrite app_nil_r.
Qed.

End Progress.

(** X10.  When [perform_research] returns, its results, its page fetches
    and the rows it inserted correspond one to one and in order: each
    result is the dictionary of one fetched page (with the fetched content,
    or None when the fetch failed), and with a request id each has its row
    in [research_results]; without one (None or 0) nothing is inserted.  No
    page has an empty url and no other table is touched. *)
Theorem perform_research_returns E queries rid s results s'
    (Hreturned : perform_research E queries rid s = (Ok results, s')) :
  ∃ items new,
    results = item_result <$> items ∧
    trace s' = trace s ++ new ∧
    fetches new = item_url <$> items ∧
    Forall (λ it, item_url it ≠ EmptyString) items ∧
    research_results (db s')
      = research_results (db s)
        ++ (if truthy rid then item_row rid <$> items else []) ∧
    learning_interests (db s') = learning_interests (db s) ∧
    research_requests (db s') = research_requests (db s) ∧
    learning_insights (db s') = learning_insights (db s) ∧
    learning_sessions (db s') = learning_sessions (db s).
Proof.
  destruct (perform_research_progress E rid queries s) as (items & pending & H).
  rewrite Hreturned in H.
  destruct H as ((new & Ht & Hf) & _ & Hu & Hr & Hi & Hq & Hn & Hs & -> & ->).
  exists items, new. rewrite app_nil_r in Hf. simpl in *. done.
Qed.

(** X11.  Progress is kept: however [perform_research] ends, the rows that
    were in [research_results] are still there, followed by one row for
    each page fetched before the end (at most the last page fetched can be
    without its row, when its insert raised); every other table is as it
    was. *)
Theorem perform_research_keeps_progress E queries rid s :
  ∃ items pending new,
    trace (perform_research E queries rid s).2 = trace s ++ new ∧
    fetches new = (item_url <$> items) ++ pending ∧
    (length pending ≤ 1)%nat ∧
    research_results (db (perform_research E queries rid s).2)
      = research_results (db s)
        ++ (if truthy rid then item_row rid <$> items else []) ∧
    learning_interests (db (perform_research E queries rid s).2)
      = learning_interests (db s) ∧
    research_requests (db (perform_research E queries rid s).2)
      = research_requests (db s) ∧
    learning_insights (db (perform_research E queries rid s).2)
      = learning_insights (db s) ∧
    learning_sessions (db (perform_research E queries rid s).2)
      = learning_sessions (db s).
Proof.
  destruct (perform_research_progress E rid queries s)
    as (items & pending & (new & Ht & Hf) & Hp & _ & Hr & Hi & Hq & Hn & Hs & _).
  by exists items, pending, new.
Qed.

(** One query, one hit, a page that cannot be fetched: the result is kept
    with its row. *)
Lemma perform_research_returns_witness :
  let E := world (λ _, Ok []) (Ok [provider_row]) (Raise (ExternalError "timeout")) in
  let out := perform_research E (PList [PStr "q"]) (PInt 1) initial_state in
  ∃ items, item_url <$> items = ["http://example.org/a"] ∧
           research_results (db out.2) = item_row (PInt 1) <$> items.
Proof.
  cbv zeta.
  set (E := world (λ _, Ok []) (Ok [provider_row]) (Raise (ExternalError "timeout"))).
  destruct (perform_research_returns E (PList [PStr "q"]) (PInt 1) initial_state
              [result_data (PStr "q") "http://example.org/a" "A" "about a" None]
              (perform_research E (PList [PStr "q"]) (PInt 1) initial_state).2)
    as (items & new & _ & Ht & Hf & _ & Hrows & _); [reflexivity|].
  exists items. split; [|exact Hrows].
  rewrite <- Hf. simpl in Ht. by rewrite <- Ht.
Defined.

(** X12.  A provider row that yields no url is passed over without a fetch,
    a result or an insert: a row with neither 'href' nor 'link', and also a
    row whose 'href' is empty, whatever its 'link' holds. *)
Theorem hit_without_url_is_skipped E q rid acc (r : gmap string string) s
    (Hurl : dget r "href" (dget r "link" EmptyString) = EmptyString) :
  research_one E q rid acc (search_hit r) s = (Ok acc, s).
Proof.
  unfold research_one.
  assert (dget (search_hit r) "url" EmptyString = EmptyString) as ->.
  { unfold dget at 1. rewrite search_hit_url. exact Hurl. }
  done.
Qed.

(** An empty 'href' hides the 'link'. *)
Lemma hit_without_url_is_skipped_witness :
  let r : gmap string string :=
    {[ "href" := EmptyString; "link" := "http://example.org/a" ]} in
  research_one (world (λ _, Ok []) (Ok []) (Ok EmptyString)) (PStr "q") (PInt 1) []
    (search_hit r) initial_state = (Ok [], initial_state).
Proof.
  cbv zeta. by apply hit_without_url_is_skipped.
Defined.

(** X13.  Queries that are not a list: a string is searched character by
    character (its first three characters, one search each); a number, a
    boolean or None raises [TypeError] before any call is made. *)
Theorem perform_research_not_a_list E queries rid s :
  match queries with
  | PList _ | PDict _ => True
  | PStr text =>
      ∃ blocks,
        trace (perform_research E queries rid s).2
          = trace s ++ concat (block_events <$> blocks) ∧
        block_query <$> blocks `prefix_of` take 3 (chars text) ∧
        searches (concat (block_events <$> blocks)) = block_query <$> blocks
  | _ => ∃ msg, perform_research E queries rid s = (Raise (TypeError msg), s)
  end.
Proof.
  destruct queries as [| | | |text| |]; try done; try (by eexists).
  unfold perform_research. simpl.
  destruct (outer_loop_trace E rid (take MAX_SEARCH_QUERIES (chars text)) [] s)
    as (blocks & Ht & Hpre & Hall & _).
  exists blocks. unfold bind, lift. simpl.
  split; [exact Ht|]. split; [exact Hpre|]. by apply blocks_searches.
Qed.

(** ** Fresh ids *)

Lemma next_id_above {A} (m : gmap Z A) k :
  is_Some (m !! k) → (k < next_id m)%Z.
Proof.
  unfold next_id.
  assert (∀ k, is_Some (m !! k) → (k ≤ map_fold (λ k _ acc, Z.max k acc) 0 m)%Z) as H.
  { apply (map_fold_weak_ind (λ r (m : gmap Z A), ∀ k, is_Some (m !! k) → (k ≤ r)%Z)).
    - intros k' [x Hx]. by rewrite lookup_empty in Hx.
    - intros i x m' r Hi IH k' Hk'.
      destruct (decide (k' = i)) as [->|Hne]; [lia|].
      rewrite lookup_insert_ne in Hk' by done. specialize (IH k' Hk'). lia. }
  intros Hk. specialize (H k Hk). lia.
Qed.

Lemma next_id_fresh {A} (m : gmap Z A) : m !! next_id m = None.
Proof.
  destruct (m !! next_id m) as [x|] eqn:Hx; [|done].
  pose proof (next_id_above m (next_id m) (mk_is_Some _ _ Hx)). lia.
Qed.

Lemma next_id_positive {A} (m : gmap Z A) : (0 < next_id m)%Z.
Proof.
  unfold next_id.
  assert (0 ≤ map_fold (λ k _ acc, Z.max k acc) 0 m)%Z; [|lia].
  apply (map_fold_weak_ind (λ r (_ : gmap Z A), (0 ≤ r)%Z)); [done|]. intros. lia.
Qed.

(** ** Walking the session with a relation on the store *)

Section StoreWalks.
Context (E : Env) (Q : store → store → Prop).
Hypothesis Q_refl : ∀ d, Q d d.
Hypothesis Q_trans : ∀ d1 d2 d3, Q d1 d2 → Q d2 d3 → Q d1 d3.
Hypothesis Q_interest_added :
  ∀ d row, Q d (set_interests <[next_id (learning_interests d) := row]> d).
Hypothesis Q_interest_updated :
  ∀ d k f m, update_row k f (learning_interests d) = Ok m →
             Q d (set_interests (λ _, m) d).
Hypothesis Q_request_added :
  ∀ d row, Q d (set_requests <[next_id (research_requests d) := row]> d).
Hypothesis Q_request_updated :
  ∀ d k f, Q d (set_requests (λ _, updated_rows k f (research_requests d)) d).
Hypothesis Q_result_added : ∀ d row, Q d (set_results (λ l, l ++ [row]) d).
Hypothesis Q_insight_added :
  ∀ d row, Q d (set_insights <[next_id (learning_insights d) := row]> d).

Lemma db_walks_ret {A} (a : A) : db_walks Q (ret a).
Proof. intros s. apply Q_refl. Qed.

Lemma db_walks_lift {A} (r : result A) : db_walks Q (lift r).
Proof. intros s. apply Q_refl. Qed.

Lemma db_walks_bind {A B} (m : M A) (k : A → M B) :
  db_walks Q m → (∀ a, db_walks Q (k a)) → db_walks Q (bind m k).
Proof.
  intros Hm Hk s. specialize (Hm s). unfold bind.
  destruct (m s) as [[a|e] s1]; simpl in *; [|done].
  eapply Q_trans; [exact Hm|apply Hk].
Qed.

Lemma db_walks_for_each {A B} (body : B → A → M B) l acc :
  (∀ acc x, db_walks Q (body acc x)) → db_walks Q (for_each body l acc).
Proof.
  intros Hbody. revert acc. induction l as [|x l IH]; intros acc.
  - apply db_walks_ret.
  - simpl. apply db_walks_bind; [apply Hbody|apply IH].
Qed.

Lemma db_walks_sql {A} call (run : Z → store → result (store * A)) :
  (∀ t d d' a, run t d = Ok (d', a) → Q d d') → db_walks Q (sql E call run).
Proof.
  intros Hrun s. unfold sql.
  destruct (db_fault E (clock s)); simpl; [apply Q_refl|].
  destruct (run (now E (clock s)) (db s)) as [[d' a]|e] eqn:Hr; simpl;
    [by eapply Hrun|apply Q_refl].
Qed.

Lemma db_walks_sql_read call : db_walks Q (sql_read E call).
Proof. apply db_walks_sql. intros t d d' a [= <- _]. apply Q_refl. Qed.

Lemma db_walks_get_client : db_walks Q (get_client E).
Proof.
  intros s. destruct (get_client_cases E s) as [-> _]. apply Q_refl.
Qed.

Lemma db_walks_messages_create model max_tokens :
  db_walks Q (messages_create E model max_tokens).
Proof. intros s. apply Q_refl. Qed.

Lemma db_walks_parse_reply response fallback :
  db_walks Q (parse_reply E response fallback).
Proof.
  intros s. rewrite parse_reply_state. apply Q_refl.
Qed.

Lemma db_walks_search_web q m : db_walks Q (search_web E q m).
Proof.
  intros s. destruct (search_web_never_raises E q m s) as [hits ->]. apply Q_refl.
Qed.

Lemma db_walks_fetch_page_content u m : db_walks Q (fetch_page_content E u m).
Proof.
  intros s. destruct (fetch_page_content_returns E u m s) as [r ->]. apply Q_refl.
Qed.

Lemma db_walks_queue_research topic queries why hoping priority interest_id project_id :
  db_walks Q (queue_research E topic queries why hoping priority interest_id project_id).
Proof. apply db_walks_sql. intros t d d' a [= <- _]. apply Q_request_added. Qed.

Lemma db_walks_update_research_status rid status error :
  db_walks Q (update_research_status E rid status error).
Proof.
  apply db_walks_sql. intros t d d' a. unfold rbind.
  destruct (row_key E rid); [|done].
  rewrite update_row_total. intros [= <- _]. apply Q_request_updated.
Qed.

Lemma db_walks_save_research_result row : db_walks Q (save_research_result E row).
Proof. apply db_walks_sql. intros t d d' a [= <- _]. apply Q_result_added. Qed.

Lemma db_walks_record_insight topic summary insights questions confidence sources
    request_id interest_id :
  db_walks Q (record_insight E topic summary insights questions confidence sources
                request_id interest_id).
Proof. apply db_walks_sql. intros t d d' a [= <- _]. apply Q_insight_added. Qed.

Lemma db_walks_add_learning_interest topic why sparked priority tags :
  db_walks Q (add_learning_interest E topic why sparked priority tags).
Proof. apply db_walks_sql. intros t d d' a [= <- _]. apply Q_interest_added. Qed.

Lemma db_walks_update_interest_insights id insights questions :
  db_walks Q (update_interest_insights E id insights questions).
Proof.
  unfold update_interest_insights. apply db_walks_bind; [apply db_walks_lift|].
  intros n. apply db_walks_sql. intros t d d' a. unfold rbind.
  destruct (row_key E id); [|done].
  destruct (update_row _ _ _) eqn:Hu; [|done]. intros [= <- _].
  by eapply Q_interest_updated.
Qed.

Ltac db_walks_tac :=
  repeat first
    [ apply db_walks_ret | apply db_walks_lift
    | apply db_walks_parse_reply | apply db_walks_get_client
    | apply db_walks_sql_read | apply db_walks_messages_create
    | apply db_walks_search_web | apply db_walks_fetch_page_content
    | apply db_walks_queue_research | apply db_walks_update_research_status
    | apply db_walks_save_research_result | apply db_walks_record_insight
    | apply db_walks_add_learning_interest | apply db_walks_update_interest_insights
    | apply db_walks_for_each; intros ? ?
    | apply db_walks_bind; [|intros ?]
    | match goal with
      | |- db_walks _ (if ?b then _ else _) => destruct b
      | |- db_walks _ (match ?o with Some _ => _ | None => _ end) => destruct o
      end ].

Lemma db_walks_perform_research queries rid :
  db_walks Q (perform_research E queries rid).
Proof.
  unfold perform_research, research_query, research_one. db_walks_tac.
Qed.

Lemma db_walks_choose_learning_topic : db_walks Q (choose_learning_topic E).
Proof. unfold choose_learning_topic, ask_for_topic. db_walks_tac. Qed.

Lemma db_walks_reflect_on_learning topic results hoping :
  db_walks Q (reflect_on_learning E topic results hoping).
Proof. unfold reflect_on_learning, ask_for_reflection. db_walks_tac. Qed.

Lemma db_walks_prepare_research : db_walks Q (prepare_research E).
Proof.
  unfold prepare_research, choose_learning_topic, ask_for_topic. cbv zeta.
  db_walks_tac.
Qed.

Lemma db_walks_step {A} (m : M A) s r s' :
  db_walks Q m → m s = (r, s') → Q (db s) (db s').
Proof. intros Hm Hs. specialize (Hm s). by rewrite Hs in Hm. Qed.

(** How [finish_session] returns: through an accepted
    [complete_learning_session], with the lengths of the two lists. *)
Lemma finish_session_ok_inv session_id p results s d s' :
  finish_session E session_id p results s = (Ok d, s') →
  ∃ s_last rf sparked n_insights n_questions n_sparked,
    Q (db s) (db s_last) ∧
    py_len (dget rf "key_insights" (PList [])) = Ok n_insights ∧
    py_len (dget rf "new_questions" (PList [])) = Ok n_questions ∧
    complete_learning_session E session_id (plan_topic p)
      (dget (plan_choice p) "why_now" (PStr EmptyString)) "completed"
      n_insights n_questions n_sparked None s_last = (Ok tt, s') ∧
    d = completed_result session_id (plan_topic p)
          (dget rf "key_insights" (PList [])) (dget rf "new_questions" (PList []))
          (dget rf "summary" (PStr EmptyString)) sparked.
Proof.
  intros H. unfold finish_session in H. cbv zeta in H.
  apply bind_ok_inv in H as (reflection & s1 & H1 & H).
  apply bind_ok_inv in H as (rf & s2 & H2 & H).
  apply bind_ok_inv in H as (sources & s3 & H3 & H).
  apply bind_ok_inv in H as (insight_id & s4 & H4 & H).
  apply bind_ok_inv in H as ([] & s5 & H5 & H).
  apply bind_ok_inv in H as (sparked & s6 & H6 & H).
  apply bind_ok_inv in H as (n_sparked & s7 & H7 & H).
  apply bind_ok_inv in H as ([] & s8 & H8 & H).
  apply bind_ok_inv in H as (n_insights & s9 & H9 & H).
  apply bind_ok_inv in H as (n_questions & s10 & H10 & H).
  apply bind_ok_inv in H as ([] & s11 & H11 & H).
  apply ret_inv in H as [[= ->] ->].
  apply lift_ok_inv in H2 as [_ ->]. apply lift_ok_inv in H3 as [_ ->].
  apply lift_ok_inv in H9 as [Hlen1 ->]. apply lift_ok_inv in H10 as [Hlen2 ->].
  eapply db_walks_step in H1; [|apply db_walks_reflect_on_learning].
  eapply db_walks_step in H4; [|apply db_walks_record_insight].
  eapply db_walks_step in H5; [|db_walks_tac].
  eapply db_walks_step in H6; [|db_walks_tac].
  eapply db_walks_step in H7; [|db_walks_tac].
  eapply db_walks_step in H8; [|apply db_walks_update_research_status].
  eexists s8, rf, _, n_insights, n_questions, n_sparked.
  split; [repeat (eapply Q_trans; [eassumption|]); apply Q_refl|].
  done.
Qed.

(** The session row is written by [complete_learning_session] alone. *)
Context (sid : Z).
Hypothesis Q_session_completed :
  ∀ d f, Q d (set_sessions (λ _, updated_rows (Some sid) f (learning_sessions d)) d).

Lemma db_walks_complete_learning_session topic reason status n1 n2 n3 error :
  db_walks Q (complete_learning_session E sid topic reason status n1 n2 n3 error).
Proof.
  apply db_walks_sql. intros t d d' a. rewrite update_row_total.
  intros [= <- _]. apply Q_session_completed.
Qed.

Lemma db_walks_session_steps : db_walks Q (session_steps E sid).
Proof.
  unfold session_steps.
  apply db_walks_bind; [apply db_walks_prepare_research|]. intros p.
  apply db_walks_bind; [apply db_walks_perform_research|]. intros results.
  destruct results.
  - unfold fail_session. db_walks_tac.
    apply db_walks_complete_learning_session.
  - unfold finish_session, reflect_on_learning, ask_for_reflection. cbv zeta.
    db_walks_tac. apply db_walks_complete_learning_session.
Qed.

End StoreWalks.

(** ** A run deletes nothing *)

Lemma store_kept_refl d : store_kept d d.
Proof. by repeat split. Qed.

Lemma store_kept_trans d1 d2 d3 : store_kept d1 d2 → store_kept d2 d3 → store_kept d1 d3.
Proof.
  intros (H1 & H2 & H3 & H4 & H5) (G1 & G2 & G3 & G4 & G5).
  repeat split; by etrans.
Qed.

Lemma updated_rows_via_update_row {A} k (f : A → result A) (m m' : gmap Z A) :
  update_row k f m = Ok m' → dom m' = dom m.
Proof.
  destruct k as [id|]; simpl; [|by intros [= <-]].
  destruct (m !! id) as [r|] eqn:Hr; [|by intros [= <-]].
  destruct (f r) as [r'|e]; simpl; [|done]. intros [= <-].
  by apply dom_insert_lookup_L.
Qed.

Lemma db_walks_run_learning_session E Q :
  (∀ d, Q d d) →
  (∀ sid, db_walks Q (session_steps E sid)) →
  (∀ d row, Q d (set_sessions <[next_id (learning_sessions d) := row]> d)) →
  (∀ d1 d2 d3, Q d1 d2 → Q d2 d3 → Q d1 d3) →
  db_walks Q (run_learning_session E).
Proof.
  intros Hrefl Hsteps Hstart Htrans s. unfold run_learning_session, try_except.
  assert (db_walks Q (sid <- start_learning_session E "autonomous" ;;
                      session_steps E sid)) as Hbody.
  { apply db_walks_bind; [done| |done].
    apply db_walks_sql; [done|]. intros t d d' a [= <- _]. apply Hstart. }
  specialize (Hbody s). by destruct (bind _ _ s) as [[d|e] s'].
Qed.

(** X14.  A run deletes nothing and rewrites no result or insight: in the
    store it ends with, whatever its outcome, every table has the rows it
    had (by id), [research_results] starts with the rows it had, and every
    insight recorded before is there unchanged. *)
Theorem run_learning_session_keeps_rows E s :
  store_kept (db s) (db (run_learning_session E s).2).
Proof.
  apply db_walks_run_learning_session.
  - apply store_kept_refl.
  - intros sid. apply db_walks_session_steps.
    + apply store_kept_refl.
    + apply store_kept_trans.
    + intros d row. repeat split; try done. simpl. apply dom_insert_subseteq.
    + intros d k f m Hm. repeat split; try done. simpl.
      by rewrite (updated_rows_via_update_row _ _ _ _ Hm).
    + intros d row. repeat split; try done. simpl. apply dom_insert_subseteq.
    + intros d k f. repeat split; try done.
      by rewrite <- (updated_rows_dom k f (research_requests d)) at 1.
    + intros d row. repeat split; try done. simpl. by apply prefix_app_r.
    + intros d row. repeat split; try done. simpl.
      apply insert_subseteq, next_id_fresh.
    + intros d f. repeat split; try done.
      by rewrite <- (updated_rows_dom (Some sid) f (learning_sessions d)) at 1.
  - intros d row. repeat split; try done. simpl. apply dom_insert_subseteq.
  - apply store_kept_trans.
Qed.

(** ** A run writes one session row *)

Lemma sessions_kept_refl ids d : sessions_kept ids d d.
Proof. by intros id _. Qed.

Lemma sessions_kept_trans ids d1 d2 d3 :
  sessions_kept ids d1 d2 → sessions_kept ids d2 d3 → sessions_kept ids d1 d3.
Proof. intros H1 H2 id Hid. rewrite H2, H1; done. Qed.

Lemma session_steps_keeps_other_sessions E ids sid :
  sid ∉ ids → db_walks (sessions_kept ids) (session_steps E sid).
Proof.
  intros Hsid. apply db_walks_session_steps;
    try (by intros; apply sessions_kept_refl); try (by intros; intros id _).
  - apply sessions_kept_trans.
  - intros d f id Hid.
    apply (updated_rows_other (Some sid) f (learning_sessions d)). congruence.
Qed.

(** X15.  A run leaves the session rows of earlier runs alone: every
    session that was in the store is unchanged at the end, whatever the
    outcome; the run writes only the row it created. *)
Theorem run_learning_session_keeps_other_sessions E s id :
  is_Some (learning_sessions (db s) !! id) →
  learning_sessions (db (run_learning_session E s).2) !! id
  = learning_sessions (db s) !! id.
Proof.
  intros Hid. apply elem_of_dom in Hid.
  cut (sessions_kept (dom (learning_sessions (db s))) (db s)
         (db (run_learning_session E s).2)); [intros H; by apply H|].
  clear id Hid.
  unfold run_learning_session, try_except.
  destruct (start_learning_session E "autonomous" s) as [[sid|e] s1] eqn:Hstart.
  - rewrite (bind_ok _ _ _ _ _ Hstart).
    apply sql_ok_inv in Hstart as (_ & d & [= <- <-] & ->).
    assert (next_id (learning_sessions (db s)) ∉ dom (learning_sessions (db s))) as Hfresh
      by (apply not_elem_of_dom, next_id_fresh).
    pose proof (session_steps_keeps_other_sessions E _ _ Hfresh
                  (set_db (set_sessions
                             <[next_id (learning_sessions (db s))
                               := new_session_row (now E (clock s)) "autonomous"]> (db s))
                          (emit (EvSql (StartLearningSession "autonomous")) s))) as Hsteps.
    destruct (session_steps E _ _) as [[r|e] s2]; simpl in *;
      (eapply sessions_kept_trans; [|exact Hsteps]);
      intros id Hid; simpl; apply lookup_insert_ne; intros <-; done.
  - rewrite (bind_raise _ _ _ _ _ Hstart). simpl.
    apply sql_raise_inv in Hstart as ->. apply sessions_kept_refl.
Qed.

(** A session of an earlier run is as it was after a run that fails. *)
Lemma run_learning_session_keeps_other_sessions_witness :
  let E := world (λ _, Ok ["{}"]) (Ok []) (Ok EmptyString) in
  learning_sessions (db (run_learning_session E one_session_state).2) !! 1%Z
  = Some (new_session_row 0 "autonomous").
Proof.
  cbv zeta.
  rewrite (run_learning_session_keeps_other_sessions
             (world (λ _, Ok ["{}"]) (Ok []) (Ok EmptyString)) one_session_state 1);
    [reflexivity|by eexists].
Defined.

(** ** What a run costs *)

Section Costs.
Context (E : Env) (w : event → nat).

Lemma trace_price_app t1 t2 :
  trace_price w (t1 ++ t2) = (trace_price w t1 + trace_price w t2)%nat.
Proof. induction t1 as [|e t1 IH]; [done|]. simpl. lia. Qed.

Lemma costs_weaken {A} n n' (m : M A) : (n ≤ n')%nat → costs w n m → costs w n' m.
Proof.
  intros Hn Hm s. destruct (Hm s) as (new & Ht & Hp). exists new. split; [done|lia].
Qed.

Lemma costs_same {A} (m : M A) : (∀ s, (m s).2 = s) → costs w 0 m.
Proof.
  intros Hm s. exists []. rewrite Hm, app_nil_r. split; [done|]. simpl. lia.
Qed.

Lemma costs_ret {A} (a : A) : costs w 0 (ret a).
Proof. by apply costs_same. Qed.

Lemma costs_lift {A} (r : result A) : costs w 0 (lift r).
Proof. by apply costs_same. Qed.

Lemma costs_parse_reply response fallback : costs w 0 (parse_reply E response fallback).
Proof.
  apply costs_same. intros s. apply parse_reply_state.
Qed.

Lemma costs_bind {A B} n k (m : M A) (c : A → M B) :
  costs w n m → (∀ a, costs w k (c a)) → costs w (n + k) (bind m c).
Proof.
  intros Hm Hc s. destruct (Hm s) as (new1 & Ht1 & Hp1). unfold bind.
  destruct (m s) as [[a|e] s1]; simpl in *.
  - destruct (Hc a s1) as (new2 & Ht2 & Hp2).
    exists (new1 ++ new2). rewrite Ht2, Ht1, app_assoc, trace_price_app.
    split; [done|lia].
  - exists new1. split; [done|lia].
Qed.

Lemma costs_bind_ok {A B} n (x : A) (c : A → M B) :
  costs w n (c x) → costs w n (bind (lift (Ok x)) c).
Proof. intros Hc s. apply (Hc s). Qed.

Lemma costs_bind_raise {A B} e (c : A → M B) : costs w 0 (bind (lift (Raise e)) c).
Proof. by apply costs_same. Qed.

Lemma costs_if {A} n k (b : bool) (m1 m2 : M A) :
  costs w n m1 → costs w k m2 → costs w (Nat.max n k) (if b then m1 else m2).
Proof. intros H1 H2. destruct b; (eapply costs_weaken; [|eassumption]); lia. Qed.

Lemma costs_match_option {A B} n k (o : option B) (m1 : B → M A) (m2 : M A) :
  (∀ x, costs w n (m1 x)) → costs w k m2 →
  costs w (Nat.max n k) (match o with Some x => m1 x | None => m2 end).
Proof. intros H1 H2. destruct o; (eapply costs_weaken; [|eauto]); lia. Qed.

Lemma costs_for_each {A B} n (body : B → A → M B) l acc :
  (∀ acc x, costs w n (body acc x)) → costs w (length l * n) (for_each body l acc).
Proof.
  intros Hbody. revert acc. induction l as [|x l IH]; intros acc.
  - apply costs_ret.
  - simpl. apply costs_bind; [apply Hbody|apply IH].
Qed.

Lemma costs_for_each_bounded {A B} n k (body : B → A → M B) l acc :
  (length l ≤ k)%nat → (∀ acc x, costs w n (body acc x)) →
  costs w (k * n) (for_each body l acc).
Proof.
  intros Hl Hbody. eapply costs_weaken; [|by apply costs_for_each].
  by apply Nat.mul_le_mono_r.
Qed.

Lemma costs_emit {A} e (m : M A) :
  (∀ s, ∃ r, m s = (r, emit e s) ∨ ∃ d b, m s = (r, set_client b (set_db d (emit e s)))) →
  costs w (w e) m.
Proof.
  intros Hm s. exists [e].
  destruct (Hm s) as [r [->|(d & b & ->)]]; simpl;
    (split; [done|]); simpl; lia.
Qed.

Lemma costs_sql {A} call (run : Z → store → result (store * A)) :
  costs w (w (EvSql call)) (sql E call run).
Proof.
  apply costs_emit. intros s. unfold sql.
  destruct (db_fault E (clock s)); [eexists; by left|].
  destruct (run _ _) as [[d a]|e]; eexists; [right|by left].
  exists d, (client s). by destruct s.
Qed.

Lemma costs_messages_create model max_tokens :
  costs w (w (EvLlm model max_tokens)) (messages_create E model max_tokens).
Proof. apply costs_emit. intros s. eexists. by left. Qed.

Lemma costs_search_web q m : costs w (w (EvSearch q m)) (search_web E q m).
Proof.
  apply costs_emit. intros s.
  destruct (search_web_never_raises E q m s) as [hits ->]. eexists. by left.
Qed.

Lemma costs_fetch_page_content u m : costs w (w (EvFetch u)) (fetch_page_content E u m).
Proof.
  apply costs_emit. intros s.
  destruct (fetch_page_content_returns E u m s) as [r ->]. eexists. by left.
Qed.

End Costs.

Lemma slice_items_length n v items :
  slice_items n v = Ok items → (length items ≤ n)%nat.
Proof.
  destruct v; simpl; try done; intros [= <-]; rewrite length_take; lia.
Qed.

Section RunCosts.
Context (E : Env) (a k b c d f : nat).
Local Abbreviation w := (call_price a k b c d f).

(** The key lookup sends at most one query. *)
Lemma price_key_lookup K :
  (trace_price w (EvKey <$> (get_anthropic_client K).2) ≤ k)%nat.
Proof.
  destruct (get_anthropic_client_calls K) as [->|(queries & -> & Hlen & Hall)];
    [simpl; lia|].
  destruct queries as [|q [|q' queries]]; [simpl; lia| |simpl in Hlen; lia].
  apply Forall_inv in Hall as [key ->]. simpl. lia.
Qed.

Lemma price_sql {A} call (run : Z → store → result (store * A)) :
  costs w a (sql E call run).
Proof. apply (costs_sql E w). Qed.

Lemma price_get_client : costs w (k + b) (get_client E).
Proof.
  intros s. destruct (get_client_cases E s) as [_ [[_ ->]|(_ & built & Ht & Hb & _)]].
  - exists []. rewrite app_nil_r. split; [done|]. simpl. lia.
  - eexists. split; [exact Ht|]. rewrite trace_price_app.
    pose proof (price_key_lookup (key_env E (clock s))).
    destruct Hb as [-> | ->]; simpl; lia.
Qed.

Lemma price_messages_create model max_tokens :
  costs w c (messages_create E model max_tokens).
Proof. apply (costs_messages_create E w). Qed.

Lemma price_search_web q m : costs w d (search_web E q m).
Proof. apply (costs_search_web E w). Qed.

Lemma price_fetch_page_content u m : costs w f (fetch_page_content E u m).
Proof. apply (costs_fetch_page_content E w). Qed.

Ltac costs_tac :=
  repeat match goal with
    | |- costs _ _ (ret _) => eapply costs_ret
    | |- costs _ _ (lift _) => eapply costs_lift
    | |- costs _ _ (parse_reply _ _ _) => eapply costs_parse_reply
    | |- costs _ _ (sql _ _ _) => eapply price_sql
    | |- costs _ _ (get_client _) => eapply price_get_client
    | |- costs _ _ (messages_create _ _ _) => eapply price_messages_create
    | |- costs _ _ (search_web _ _ _) => eapply price_search_web
    | |- costs _ _ (fetch_page_content _ _ _) => eapply price_fetch_page_content
    | |- costs _ _ (bind _ _) => eapply costs_bind; [|intros ?]
    | |- costs _ _ (if _ then _ else _) => eapply costs_if
    | |- costs _ _ (match _ with Some _ => _ | None => _ end) =>
        eapply costs_match_option; [intros ?|]
    end.

Lemma costs_research_one q rid acc hit :
  costs w (f + a) (research_one E q rid acc hit).
Proof.
  eapply costs_weaken; [|unfold research_one, save_research_result; costs_tac].
  simpl. lia.
Qed.

Lemma costs_perform_research queries rid :
  costs w (3 * (d + 2 * (f + a))) (perform_research E queries rid).
Proof.
  unfold perform_research.
  destruct (slice_items MAX_SEARCH_QUERIES queries) as [qs|e] eqn:Hslice.
  - apply slice_items_length in Hslice. apply costs_bind_ok.
    apply costs_for_each_bounded; [done|]. intros acc q.
    unfold research_query.
    apply (costs_bind _ d (2 * (f + a))); [apply price_search_web|].
    intros hits. apply costs_for_each_bounded; [|intros; apply costs_research_one].
    rewrite length_take. lia.
  - eapply costs_weaken; [|apply costs_bind_raise]. lia.
Qed.

Lemma costs_prepare_research : costs w (k + b + 7 * a + c) (prepare_research E).
Proof.
  eapply costs_weaken;
    [|unfold prepare_research, choose_learning_topic, ask_for_topic,
        get_learning_interests, get_pending_research, get_user_context, get_projects,
        get_recent_insights, sql_read, queue_research, update_research_status;
      cbv zeta; costs_tac].
  simpl. lia.
Qed.

Lemma costs_fail_session sid p : costs w (2 * a) (fail_session E sid p).
Proof.
  eapply costs_weaken;
    [|unfold fail_session, update_research_status, complete_learning_session; costs_tac].
  simpl. lia.
Qed.

Lemma costs_finish_session sid p results :
  costs w (k + b + c + 5 * a) (finish_session E sid p results).
Proof.
  eapply costs_weaken;
    [|unfold finish_session, reflect_on_learning, ask_for_reflection, record_insight,
        update_interest_insights, add_learning_interest, update_research_status,
        complete_learning_session;
      cbv zeta; costs_tac].
  simpl. lia.
Qed.

Lemma costs_run_learning_session :
  costs w (19 * a + 2 * k + 2 * b + 2 * c + 3 * d + 6 * f) (run_learning_session E).
Proof.
  assert (∀ sid, costs w (18 * a + 2 * k + 2 * b + 2 * c + 3 * d + 6 * f)
                   (session_steps E sid))
    as Hsteps.
  { intros sid. unfold session_steps.
    apply (costs_weaken w ((k + b + 7 * a + c)
                           + (3 * (d + 2 * (f + a)) + (k + b + c + 5 * a))));
      [lia|].
    apply costs_bind; [apply costs_prepare_research|intros p].
    apply costs_bind; [apply costs_perform_research|intros results].
    destruct results; [|apply costs_finish_session].
    apply (costs_weaken w (2 * a)); [lia|apply costs_fail_session]. }
  intros s. unfold run_learning_session, try_except.
  assert (costs w (a + (18 * a + 2 * k + 2 * b + 2 * c + 3 * d + 6 * f))
            (sid <- start_learning_session E "autonomous" ;; session_steps E sid))
    as Hbody by (apply costs_bind; [apply price_sql|apply Hsteps]).
  destruct (Hbody s) as (new & Ht & Hp). exists new.
  split; [|lia]. by destruct (bind _ _ s) as [[r|e] s'].
Qed.

End RunCosts.

(** ** One client for a run *)

Section Once.
Context (E : Env) (k b : nat).
Local Abbreviation u := (call_price 0 k b 0 0 0).
Local Abbreviation once_client := (once u (k + b)).

Lemma once_quiet {A} (m : M A) :
  (∀ s, client (m s).2 = client s ∧
        ∃ new, trace (m s).2 = trace s ++ new ∧ trace_price u new = 0%nat) →
  once_client m.
Proof.
  intros Hm s. destruct (Hm s) as (Hc & new & Ht & Hp). exists new.
  split; [done|]. rewrite Hc. destruct (client s); auto.
Qed.

Lemma once_same {A} (m : M A) : (∀ s, (m s).2 = s) → once_client m.
Proof.
  intros Hm. apply once_quiet. intros s. rewrite Hm. split; [done|].
  exists []. by rewrite app_nil_r.
Qed.

Lemma once_ret {A} (a : A) : once_client (ret a).
Proof. by apply once_same. Qed.

Lemma once_lift {A} (r : result A) : once_client (lift r).
Proof. by apply once_same. Qed.

Lemma once_parse_reply response fallback :
  once_client (parse_reply E response fallback).
Proof. apply once_same. intros s. apply parse_reply_state. Qed.

Lemma once_sql {A} call (run : Z → store → result (store * A)) :
  once_client (sql E call run).
Proof.
  apply once_quiet. intros s. unfold sql.
  destruct (db_fault E (clock s)); [split; [done|by exists [EvSql call]]|].
  destruct (run _ _) as [[d a]|e]; (split; [done|by exists [EvSql call]]).
Qed.

Lemma once_messages_create model max_tokens :
  once_client (messages_create E model max_tokens).
Proof. apply once_quiet. intros s. split; [done|]. by eexists [_]. Qed.

Lemma once_search_web q m : once_client (search_web E q m).
Proof.
  apply once_quiet. intros s.
  destruct (search_web_never_raises E q m s) as [hits ->].
  split; [done|]. by eexists [_].
Qed.

Lemma once_fetch_page_content url m : once_client (fetch_page_content E url m).
Proof.
  apply once_quiet. intros s.
  destruct (fetch_page_content_returns E url m s) as [r ->].
  split; [done|]. by eexists [_].
Qed.

Lemma once_get_client : once_client (get_client E).
Proof.
  intros s.
  destruct (get_client_cases E s) as [_ [[Hc ->]|(Hc & built & Ht & Hb & Hok)]];
    rewrite Hc.
  - exists []. by rewrite app_nil_r.
  - eexists. split; [exact Ht|]. right. split; [|by intros []].
    rewrite (trace_price_app u).
    pose proof (price_key_lookup 0 k b 0 0 0 (key_env E (clock s))).
    destruct Hb as [-> | ->]; simpl; lia.
Qed.

Lemma once_bind {A B} (m : M A) (c : A → M B) :
  once_client m → (∀ a, once_client (c a)) → once_client (bind m c).
Proof.
  intros Hm Hc s. destruct (Hm s) as (new1 & Ht1 & H1). unfold bind.
  destruct (m s) as [[a|e] s1]; simpl in *.
  - destruct (Hc a s1) as (new2 & Ht2 & H2).
    exists (new1 ++ new2). rewrite Ht2, Ht1, app_assoc, (trace_price_app u).
    split; [done|].
    destruct (client s).
    + destruct H1 as [Hc1 ->]. rewrite Hc1 in H2. by destruct H2 as [-> ->].
    + destruct H1 as [-> | [Hp1 Hok1]].
      * destruct (client s1); [left; by destruct H2 as [_ ->]|].
        destruct H2 as [-> | [Hp2 Hok2]]; [by left|right]. by split.
      * rewrite (Hok1 a eq_refl) in H2. destruct H2 as [Hc2 ->].
        right. split; [lia|done].
  - exists new1. split; [done|].
    destruct (client s); [done|]. destruct H1 as [-> | [Hp1 _]]; [by left|by right].
Qed.

Lemma once_for_each {A B} (body : B → A → M B) l acc :
  (∀ acc x, once_client (body acc x)) → once_client (for_each body l acc).
Proof.
  intros Hbody. revert acc. induction l as [|x l IH]; intros acc.
  - apply once_ret.
  - simpl. apply once_bind; [apply Hbody|apply IH].
Qed.

Ltac once_tac :=
  repeat match goal with
    | |- once _ _ (ret _) => apply once_ret
    | |- once _ _ (lift _) => apply once_lift
    | |- once _ _ (parse_reply _ _ _) => apply once_parse_reply
    | |- once _ _ (sql _ _ _) => apply once_sql
    | |- once _ _ (get_client _) => apply once_get_client
    | |- once _ _ (messages_create _ _ _) => apply once_messages_create
    | |- once _ _ (search_web _ _ _) => apply once_search_web
    | |- once _ _ (fetch_page_content _ _ _) => apply once_fetch_page_content
    | |- once _ _ (for_each _ _ _) => apply once_for_each; intros ? ?
    | |- once _ _ (bind _ _) => apply once_bind; [|intros ?]
    | |- once _ _ (if ?c then _ else _) => destruct c
    | |- once _ _ (match ?o with Some _ => _ | None => _ end) => destruct o
    | |- once _ _ (match ?l with [] => _ | _ :: _ => _ end) => destruct l
    end.

Lemma once_perform_research queries rid : once_client (perform_research E queries rid).
Proof.
  unfold perform_research, research_query, research_one, save_research_result.
  once_tac.
Qed.

Lemma once_prepare_research : once_client (prepare_research E).
Proof.
  unfold prepare_research, choose_learning_topic, ask_for_topic,
    get_learning_interests, get_pending_research, get_user_context, get_projects,
    get_recent_insights, sql_read, queue_research, update_research_status.
  cbv zeta. once_tac.
Qed.

Lemma once_session_steps sid : once_client (session_steps E sid).
Proof.
  unfold session_steps. apply once_bind; [apply once_prepare_research|intros p].
  apply once_bind; [apply once_perform_research|intros results].
  unfold fail_session, finish_session, reflect_on_learning, ask_for_reflection,
    record_insight, update_interest_insights, add_learning_interest,
    update_research_status, complete_learning_session.
  cbv zeta. once_tac.
Qed.

(** A run looks the key up and builds the client at most once. *)
Lemma run_learning_session_one_client s :
  ∃ new, trace (run_learning_session E s).2 = trace s ++ new ∧
         (trace_price u new ≤ k + b)%nat.
Proof.
  assert (once_client (sid <- start_learning_session E "autonomous" ;;
                       session_steps E sid)) as Hbody
    by (apply once_bind; [apply once_sql|apply once_session_steps]).
  destruct (Hbody s) as (new & Ht & Hp). exists new.
  unfold run_learning_session, try_except.
  split; [by destruct (bind _ _ s) as [[r|e] s']|].
  destruct (client s); [lia|]. destruct Hp as [-> | [Hp _]]; lia.
Qed.

End Once.

(** X16.  What a run can cost, whatever the world answers and however it
    ends: at most 2 requests to the LLM, 3 web searches, 6 page fetches and
    19 statements on the session's connection; the API key is looked up at
    most once, with at most one query on a connection of its own, and at
    most one client is built.  So at most 20 statements reach the database. *)
Theorem run_learning_session_cost E s :
  ∃ calls, trace (run_learning_session E s).2 = trace s ++ calls ∧
    (trace_price (call_price 0 0 0 1 0 0) calls ≤ 2)%nat ∧
    (trace_price (call_price 0 0 0 0 1 0) calls ≤ 3)%nat ∧
    (trace_price (call_price 0 0 0 0 0 1) calls ≤ 6)%nat ∧
    (trace_price (call_price 1 0 0 0 0 0) calls ≤ 19)%nat ∧
    (trace_price (call_price 0 1 0 0 0 0) calls ≤ 1)%nat ∧
    (trace_price (call_price 0 0 1 0 0 0) calls ≤ 1)%nat ∧
    (trace_price (call_price 1 1 0 0 0 0) calls ≤ 20)%nat.
Proof.
  destruct (costs_run_learning_session E 0 0 0 1 0 0 s) as (calls & Ht & H1).
  exists calls. split; [done|].
  assert (∀ calls', trace (run_learning_session E s).2 = trace s ++ calls' →
                    calls' = calls) as Huniq.
  { intros calls' Ht'. rewrite Ht in Ht'. by apply app_inv_head in Ht'. }
  assert (∀ x z v t n,
            (19 * x + 2 * z + 3 * v + 6 * t ≤ n)%nat →
            (trace_price (call_price x 0 0 z v t) calls ≤ n)%nat) as Hbound.
  { intros x z v t n Hn.
    destruct (costs_run_learning_session E x 0 0 z v t s) as (calls' & Ht' & H').
    rewrite (Huniq calls' Ht') in H'. lia. }
  assert (∀ y z, (trace_price (call_price 0 y z 0 0 0) calls ≤ y + z)%nat) as Honce.
  { intros y z.
    destruct (run_learning_session_one_client E y z s) as (calls' & Ht' & H').
    by rewrite (Huniq calls' Ht') in H'. }
  assert (∀ x y, trace_price (call_price x y 0 0 0 0) calls
                 = (trace_price (call_price x 0 0 0 0 0) calls
                    + trace_price (call_price 0 y 0 0 0 0) calls)%nat) as Hsum.
  { intros x y. clear. induction calls as [|e calls IH]; [done|].
    simpl. rewrite IH. destruct e as [| [] | | | |]; simpl; lia. }
  pose proof (Hbound 1 0 0 0 19)%nat as Hsql.
  pose proof (Honce 1 0)%nat as Hkey.
  split; [apply Hbound; simpl; lia|]. split; [apply Hbound; simpl; lia|].
  split; [apply Hbound; simpl; lia|]. split; [apply Hsql; simpl; lia|].
  split; [exact Hkey|]. split; [apply (Honce 0 1)%nat|].
  rewrite Hsum. specialize (Hsql ltac:(simpl; lia)). simpl in Hkey. lia.
Qed.

(** ** A completed run is a recorded run *)

Section Completed.
Context (E : Env).

Lemma same_sessions_prepare s p s' :
  prepare_research E s = (Ok p, s') → same_sessions (db s) (db s').
Proof.
  intros H.
  assert (db_walks same_sessions (prepare_research E)) as Hwalk
    by (apply db_walks_prepare_research; unfold same_sessions; try done; congruence).
  specialize (Hwalk s). by rewrite H in Hwalk.
Qed.

Lemma same_sessions_perform queries rid s r s' :
  perform_research E queries rid s = (r, s') → same_sessions (db s) (db s').
Proof.
  intros H.
  assert (db_walks same_sessions (perform_research E queries rid)) as Hwalk
    by (apply db_walks_perform_research; unfold same_sessions; try done; congruence).
  specialize (Hwalk s). by rewrite H in Hwalk.
Qed.

Lemma fail_session_ok_inv sid p s d s' :
  fail_session E sid p s = (Ok d, s') → d = failed_result (plan_topic p).
Proof.
  intros H. unfold fail_session in H.
  apply bind_ok_inv in H as (? & ? & _ & H).
  apply bind_ok_inv in H as (? & ? & _ & H).
  by apply ret_inv in H as [[= ->] _].
Qed.

(** What the run returned, by the path it took. *)
Lemma run_learning_session_paths s :
  ∃ d s', run_learning_session E s = (Ok d, s') ∧
    ((∃ e, d = error_result e) ∨
     (∃ topic, d = failed_result topic) ∨
     (∃ sid p results s1 s3,
        start_learning_session E "autonomous" s = (Ok sid, s1) ∧
        same_sessions (db s1) (db s3) ∧
        finish_session E sid p results s3 = (Ok d, s'))).
Proof.
  unfold run_learning_session, try_except.
  destruct (bind _ _ s) as [[d|e] s'] eqn:Hrun.
  2:{ exists (error_result e), s'. split; [done|]. left. by eexists. }
  exists d, s'. split; [done|].
  apply bind_ok_inv in Hrun as (sid & s1 & Hstart & Hsteps).
  unfold session_steps in Hsteps.
  apply bind_ok_inv in Hsteps as (p & s2 & Hplan & Hsteps).
  apply bind_ok_inv in Hsteps as (results & s3 & Hperf & Hsteps).
  apply same_sessions_prepare in Hplan. apply same_sessions_perform in Hperf.
  destruct results as [|r results].
  - right; left. apply fail_session_ok_inv in Hsteps. eauto.
  - right; right. exists sid, p, (r :: results), s1, s3.
    split; [done|]. split; [|done]. unfold same_sessions in *. congruence.
Qed.

Lemma completed_run_inv s d s' :
  run_learning_session E s = (Ok d, s') →
  d !! "status" = Some (PStr "completed") →
  ∃ sid topic insights questions summary sparked n_insights n_questions ses,
    d = completed_result sid topic insights questions summary sparked ∧
    py_len insights = Ok n_insights ∧
    py_len questions = Ok n_questions ∧
    learning_sessions (db s') !! sid = Some ses ∧
    ses_status ses = "completed" ∧
    ses_error_message ses = None ∧
    topic_chosen ses = topic ∧
    ses_insights_count ses = n_insights ∧
    ses_new_questions_count ses = n_questions ∧
    is_Some (ses_completed_at ses).
Proof.
  intros Hrun Hstatus.
  destruct (run_learning_session_paths s) as (d0 & s0 & Hrun0 & Hpath).
  rewrite Hrun in Hrun0. injection Hrun0 as <- <-.
  destruct Hpath as [[e ->]|[[topic ->]|(sid & p & results & s1 & s3 & Hstart & Hsame & Hfin)]];
    [discriminate Hstatus|discriminate Hstatus|].
  apply (finish_session_ok_inv E same_sessions) in Hfin
    as (s_last & rf & sparked & n_i & n_q & n_s & Hsame' & Hlen1 & Hlen2 & Hcomplete & ->);
    unfold same_sessions in *; try done; try (intros; simpl; congruence).
  pose proof Hcomplete as Hacc. apply sql_ok_inv in Hacc as (Hfault & _).
  destruct (complete_learning_session_accepted E sid (plan_topic p)
              (dget (plan_choice p) "why_now" (PStr EmptyString)) "completed"
              n_i n_q n_s None s_last Hfault) as (s'' & Hcomplete' & _ & _ & Hrow).
  rewrite Hcomplete in Hcomplete'. injection Hcomplete' as <-.
  apply start_learning_session_ok_inv in Hstart as [Hnew _].
  rewrite Hsame', Hsame, Hnew in Hrow. simpl in Hrow.
  eexists sid, _, _, _, _, _, n_i, n_q, _.
  split; [reflexivity|]. split; [exact Hlen1|]. split; [exact Hlen2|].
  split; [exact Hrow|]. simpl. repeat split; try done; by eexists.
Qed.

End Completed.

(** X17.  A run that returns status "completed" has recorded it: the
    session row it created is "completed" in the store, without error
    message, with a completion time, the topic of the result, and the counts
    of insights and questions equal to the lengths of the two lists the
    result carries (which therefore have a length). *)
Theorem run_learning_session_completed E s d s'
    (Hrun : run_learning_session E s = (Ok d, s'))
    (Hstatus : d !! "status" = Some (PStr "completed")) :
  ∃ sid topic insights questions ses n_insights n_questions,
    d !! "session_id" = Some (PInt sid) ∧
    d !! "topic" = Some topic ∧
    d !! "insights" = Some insights ∧
    d !! "new_questions" = Some questions ∧
    py_len insights = Ok n_insights ∧
    py_len questions = Ok n_questions ∧
    learning_sessions (db s') !! sid = Some ses ∧
    ses_status ses = "completed" ∧
    ses_error_message ses = None ∧
    is_Some (ses_completed_at ses) ∧
    topic_chosen ses = topic ∧
    ses_insights_count ses = n_insights ∧
    ses_new_questions_count ses = n_questions.
Proof.
  destruct (completed_run_inv E s d s' Hrun Hstatus)
    as (sid & topic & ins & qs & summary & sparked & n_i & n_q & ses & -> & H).
  exists sid, topic, ins, qs, ses, n_i, n_q.
  destruct H as (? & ? & ? & ? & ? & ? & ? & ? & ?).
  repeat split; try done; reflexivity.
Qed.

(** The scripted run: two insights and one question are counted. *)
Lemma run_learning_session_completed_witness :
  ∃ ses, learning_sessions (db (run_learning_session scripted_world initial_state).2)
           !! 1%Z = Some ses ∧
         ses_status ses = "completed" ∧ ses_insights_count ses = 2%Z ∧
         ses_new_questions_count ses = 1%Z.
Proof.
  set (out := run_learning_session scripted_world initial_state).
  assert (∃ d, out = (Ok d, out.2) ∧ d !! "status" = Some (PStr "completed")
               ∧ d !! "session_id" = Some (PInt 1)
               ∧ d !! "insights" = Some (PList [PStr "a"; PStr "b"])
               ∧ d !! "new_questions" = Some (PList [PStr "why"]))
    as (d & Hout & Hst & Hsid & Hins & Hqs).
  { vm_compute. eexists. split; [reflexivity|]. repeat split; reflexivity. }
  destruct (run_learning_session_completed scripted_world initial_state d out.2 Hout Hst)
    as (sid & topic & ins & qs & ses & n_i & n_q & Hsid' & _ & Hins' & Hqs' & Hl1 & Hl2
        & Hrow & Hstatus & _ & _ & _ & Hc1 & Hc2).
  rewrite Hsid in Hsid'. injection Hsid' as <-.
  rewrite Hins in Hins'. injection Hins' as <-.
  rewrite Hqs in Hqs'. injection Hqs' as <-.
  injection Hl1 as <-. injection Hl2 as <-.
  exists ses. by repeat split.
Defined.

(** ** The request a session works on *)

Section Requests.
Context (E : Env).

Lemma choose_learning_topic_keeps_store s r s' :
  choose_learning_topic E s = (r, s') → db s' = db s.
Proof.
  intros H.
  assert (db_walks (λ d d', d' = d) (choose_learning_topic E)) as Hwalk
    by (apply db_walks_choose_learning_topic; [done|congruence]).
  specialize (Hwalk s). by rewrite H in Hwalk.
Qed.

Lemma update_research_status_row rid status error s s' :
  update_research_status E rid status error s = (Ok tt, s') →
  ∃ k, row_key E rid = Ok k ∧
       research_requests (db s')
       = updated_rows k (sql_update_request (now E (clock s)) status error)
           (research_requests (db s)).
Proof.
  intros H. apply sql_ok_inv in H as (_ & d & Hrun & ->).
  destruct (row_key E rid) as [k|e]; [|done]. simpl in Hrun.
  rewrite update_row_total in Hrun. simpl in Hrun. injection Hrun as <-.
  by exists k.
Qed.

Lemma prepare_research_inv s p s' :
  prepare_research E s = (Ok p, s') →
  ∃ tc s1 s2,
    db s1 = db s ∧
    plan_choice p = tc ∧
    plan_topic p = dget tc "topic" (PStr "Unknown") ∧
    plan_queries p = dget tc "search_queries" (PList []) ∧
    plan_interest_id p = dget tc "interest_id" PNone ∧
    (if truthy (dget tc "research_id" PNone)
     then s2 = s1 ∧ plan_request_id p = dget tc "research_id" PNone
     else ∃ id, queue_research E (plan_topic p) (plan_queries p)
                  (dget tc "why_now" PNone) (dget tc "hoping_to_learn" PNone)
                  "medium" (plan_interest_id p) PNone s1 = (Ok id, s2) ∧
                plan_request_id p = PInt id) ∧
    update_research_status E (plan_request_id p) "in_progress" None s2 = (Ok tt, s').
Proof.
  intros H. unfold prepare_research in H.
  apply bind_ok_inv in H as (choice & s1 & Hchoose & H).
  apply bind_ok_inv in H as (tc & s1' & Hdict & H).
  apply lift_ok_inv in Hdict as [Hdict ->].
  cbv zeta in H.
  apply bind_ok_inv in H as (rid & s2 & Hrid & H).
  apply bind_ok_inv in H as ([] & s3 & Hupdate & H).
  apply ret_inv in H as [[= ->] <-].
  apply choose_learning_topic_keeps_store in Hchoose.
  exists tc, s1, s2. simpl. repeat split; try done.
  destruct (truthy (dget tc "research_id" PNone)).
  - by apply ret_inv in Hrid as [[= ->] ->].
  - apply bind_ok_inv in Hrid as (id & s2' & Hqueue & Hrid).
    apply ret_inv in Hrid as [[= ->] ->]. by exists id.
Qed.

End Requests.

(** X18.  When the chosen topic names no research request, preparing the
    research queues one: the request has a fresh positive id (no row of the
    table had it), carries the chosen topic and queries with priority
    "medium", is "in_progress" with its start time set when the preparation
    returns, and is the only row added to the table. *)
Theorem prepare_research_queues E s p s'
    (Hrun : prepare_research E s = (Ok p, s'))
    (Hnew : truthy (dget (plan_choice p) "research_id" PNone) = false) :
  ∃ id r,
    plan_request_id p = PInt id ∧
    (0 < id)%Z ∧
    research_requests (db s) !! id = None ∧
    research_requests (db s') !! id = Some r ∧
    req_status r = "in_progress" ∧
    is_Some (req_started_at r) ∧
    req_topic r = plan_topic p ∧
    req_queries r = plan_queries p ∧
    req_priority r = "medium" ∧
    dom (research_requests (db s')) = {[ id ]} ∪ dom (research_requests (db s)).
Proof.
  apply prepare_research_inv in Hrun
    as (tc & s1 & s2 & Hdb & <- & Htopic & Hqueries & Hinterest & Hrid & Hupdate).
  rewrite Hnew in Hrid. destruct Hrid as (id & Hqueue & Hid).
  apply sql_ok_inv in Hqueue as (_ & d & Hqueue & ->).
  injection Hqueue as <- <-. rewrite Hdb in *.
  apply update_research_status_row in Hupdate as (k & Hkey & Hrows).
  rewrite Hid in Hkey. simpl in Hkey. injection Hkey as <-.
  set (id := next_id (research_requests (db s))) in *.
  exists id, (sql_update_request (now E (clock (emit (EvSql (QueueResearch (plan_topic p) (plan_queries p))) s1)))
                "in_progress" None
                (new_request_row (plan_topic p) (plan_queries p)
                   (dget (plan_choice p) "why_now" PNone)
                   (dget (plan_choice p) "hoping_to_learn" PNone) "medium"
                   (plan_interest_id p) PNone)).
  split; [done|]. split; [apply next_id_positive|]. split; [apply next_id_fresh|].
  split.
  { rewrite Hrows, updated_rows_lookup. simpl. by rewrite lookup_insert_eq. }
  split; [done|]. split; [by eexists|]. split; [done|]. split; [done|].
  split; [done|].
  rewrite Hrows, updated_rows_dom. simpl. by rewrite dom_insert_L.
Qed.

Lemma prepare_research_queues_witness :
  ∃ r, research_requests (db (prepare_research scripted_world initial_state).2) !! 1%Z
         = Some r ∧ req_status r = "in_progress" ∧ req_topic r = PStr "Rocq".
Proof.
  set (out := prepare_research scripted_world initial_state).
  assert (∃ p, out = (Ok p, out.2) ∧
               truthy (dget (plan_choice p) "research_id" PNone) = false ∧
               plan_request_id p = PInt 1 ∧ plan_topic p = PStr "Rocq")
    as (p & Hout & Hnew & Hid & Htopic).
  { vm_compute. eexists. split; [reflexivity|]. repeat split; reflexivity. }
  destruct (prepare_research_queues scripted_world initial_state p out.2 Hout Hnew)
    as (id & r & Hid' & _ & _ & Hrow & Hstatus & _ & Ht & _).
  rewrite Hid in Hid'. injection Hid' as <-.
  exists r. split; [exact Hrow|]. split; [exact Hstatus|]. by rewrite Ht.
Defined.

(** X19.  When the chosen topic names a research request, that request is
    the one the session works on and none is queued: the table of requests
    keeps its rows' ids, and every row other than the named one is left as
    it was. *)
Theorem prepare_research_reuses E s p s'
    (Hrun : prepare_research E s = (Ok p, s'))
    (Hnamed : truthy (dget (plan_choice p) "research_id" PNone) = true) :
  plan_request_id p = dget (plan_choice p) "research_id" PNone ∧
  dom (research_requests (db s')) = dom (research_requests (db s)) ∧
  ∃ k, row_key E (plan_request_id p) = Ok k ∧
       ∀ id, k ≠ Some id →
             research_requests (db s') !! id = research_requests (db s) !! id.
Proof.
  apply prepare_research_inv in Hrun
    as (tc & s1 & s2 & Hdb & <- & _ & _ & _ & Hrid & Hupdate).
  rewrite Hnamed in Hrid. destruct Hrid as [-> Hid].
  apply update_research_status_row in Hupdate as (k & Hkey & Hrows).
  split; [done|]. rewrite Hrows, Hdb. split; [apply updated_rows_dom|].
  exists k. split; [done|]. intros id Hne. by apply updated_rows_other.
Qed.

Lemma prepare_research_reuses_witness :
  dom (research_requests (db (prepare_research named_request_world
                                pending_request_state).2)) = {[ 7%Z ]}.
Proof.
  set (out := prepare_research named_request_world pending_request_state).
  assert (∃ p, out = (Ok p, out.2) ∧
               truthy (dget (plan_choice p) "research_id" PNone) = true)
    as (p & Hout & Hnamed).
  { vm_compute. eexists. split; reflexivity. }
  destruct (prepare_research_reuses named_request_world pending_request_state p out.2
              Hout Hnamed) as (_ & Hdom & _).
  rewrite Hdom. simpl. by rewrite dom_singleton_L.
Defined.

(** ** The cron script *)




